(** * Onboarding hub: a shallow embedding of the client's decision logic

    The portal is a browser client over a managed document database.  What
    it decides itself is small: which page a path is dispatched to
    (main.js), which query a role is given (pages/Partners.js,
    pages/Documents.js, pages/Templates.js), how the list of onboarding
    stages is cached and saved (constants/onboardingStages.js) and how the
    Settings page edits that list (pages/Settings.js).  Each of these is
    embedded below as Rocq functions; the backend is an explicit argument
    that supplies the outcome of every remote call. *)

From Stdlib Require Import String Ascii ZArith List Lia.
From stdpp Require Import base option list strings gmap.


(** ** JavaScript values that reach the modelled code *)

Module Js.

(** Truthiness of a string: only the empty string is falsy. *)
Definition nonempty (s : string) : bool := negb (String.eqb s "").

(** A [string|null] argument ([None] is [null] or [undefined]). *)
Definition truthy (o : option string) : bool :=
  match o with
  | Some s => nonempty s
  | None => false
  end.

(** The values a Firestore field or a [stages] argument can hold, as far
    as the code tells them apart. *)
Inductive value :=
| VUndefined
| VNull
| VStr (s : string)
| VArr (l : list string)
| VServerTimestamp.

#[global] Instance value_eq_dec : EqDecision value.
Proof. solve_decision. Defined.

Definition value_truthy (v : value) : bool :=
  match v with
  | VUndefined | VNull => false
  | VStr s => nonempty s
  | VArr _ | VServerTimestamp => true
  end.

(** [Array.isArray(v) && v.length > 0], returning the array. *)
Definition nonempty_array (v : value) : option (list string) :=
  match v with
  | VArr (x :: l) => Some (x :: l)
  | _ => None
  end.

End Js.

(** ** main.js: the route dispatcher *)

Module Main.

(** What [renderRoute] does to the content root once it has cleared it:
    it calls one of the page renderers ([RenderSettingsPage] is a call of
    [renderSettingsPage] of pages/Settings.js) or assigns markup to
    [innerHTML] itself.  Highlighting the active navigation link has no
    part in the choice and is left out. *)
Inductive effect :=
| RenderPartnerDetailPage (partnerDocId userRole : string)
| RenderPartnersPage (userRole : string) (partnerId : option string)
| RenderDocumentsPage (userRole : string) (partnerId : option string)
| RenderTemplatesPage (userRole : string) (partnerId : option string)
| RenderSettingsPage (userRole : string)
| InnerHTML (html : string).

Definition normalizePath (pathname : string) : string :=
  if (negb (Js.nonempty pathname) || String.eqb pathname "/"
      || String.eqb pathname "/home")%bool
  then "/partners"
  else pathname.

(** [strip_prefix p s] is the rest of [s] after the prefix [p]. *)
Fixpoint strip_prefix (p s : string) : option string :=
  match p, s with
  | EmptyString, _ => Some s
  | String a p', String b s' =>
      if Ascii.eqb a b then strip_prefix p' s' else None
  | String _ _, EmptyString => None
  end.

(** The character class [[^/]]. *)
Fixpoint no_slash (s : string) : bool :=
  match s with
  | EmptyString => true
  | String c s' => negb (Ascii.eqb c "/") && no_slash s'
  end.

(** [path.match(/^\/partners\/([^/]+)$/)], returning capture group 1. *)
Definition partnerDetailMatch (path : string) : option string :=
  match strip_prefix "/partners/" path with
  | Some id => if Js.nonempty id && no_slash id then Some id else None
  | None => None
  end.

Definition settingsMarkup (userRole : string) : string :=
  "<h1>Account Settings</h1><p>Settings page for role: " +:+ userRole +:+ "</p>".

Definition notFoundMarkup : string := "<h1>404 | Not Found</h1>".

(** [renderRoute]: the detail pattern is tried on the raw path, the
    switch runs on the normalized one.  The call of the Settings renderer
    is commented out in the source; the case writes a placeholder. *)
Definition renderRoute (path userRole : string) (partnerId : option string)
  : effect :=
  let normalizedPath := normalizePath path in
  match partnerDetailMatch path with
  | Some partnerDocId => RenderPartnerDetailPage partnerDocId userRole
  | None =>
      if String.eqb normalizedPath "/partners"
      then RenderPartnersPage userRole partnerId
      else if String.eqb normalizedPath "/documents"
      then RenderDocumentsPage userRole partnerId
      else if String.eqb normalizedPath "/templates"
      then RenderTemplatesPage userRole partnerId
      else if String.eqb normalizedPath "/settings"
      then InnerHTML (settingsMarkup userRole)
      else InnerHTML notFoundMarkup
  end.

End Main.

(** ** The backend as the pages see it *)

Module Firestore.

(** A stored document: a JavaScript object used as a map from field names
    to values. *)
Abbreviation document := (gmap string Js.value).

Inductive constraint :=
| where_eq (field value : string)
| orderBy (field direction : string).

Record Query := mkQuery {
  q_collection : string;
  q_constraints : list constraint
}.

(** [collection(db, name)]: a collection reference is a query without
    constraints, and [getDocs] accepts it as such. *)
Definition collection (name : string) : Query := mkQuery name [].

(** [query(base, ...constraints)]. *)
Definition query (base : Query) (cs : list constraint) : Query :=
  mkQuery (q_collection base) (q_constraints base ++ cs).

(** A settled promise of a backend call. *)
Inductive response (A : Type) :=
| Resolved (a : A)
| Rejected (error : string).
Arguments Resolved {A} a.
Arguments Rejected {A} error.

(** The documents of a query snapshot, each with its id. *)
Abbreviation snapshot := (list (string * document)).

(** A read sent to the backend: [getDocs(query)] or
    [getDoc(doc(db, collection, id))]. *)
Inductive read :=
| GetDocs (q : Query)
| GetDoc (collection id : string).

(** The backend: the answer it gives to each read. *)
Record backend := mkBackend {
  answer_getDocs : Query -> response snapshot;
  answer_getDoc : string -> string -> response (option document)
}.

(** [{ id: doc.id, ...doc.data() }]: the fields of the data win over [id]. *)
Definition with_id (id : string) (data : document) : document :=
  data ∪ {[ "id" := Js.VStr id ]}.

(** Is the constraint a filter on the [partnerId] field. *)
Definition is_partnerId_filter (c : constraint) : bool :=
  match c with
  | where_eq f _ => String.eqb f "partnerId"
  | orderBy _ _ => false
  end.

(** The query carries no filter on [partnerId]. *)
Definition unfiltered (q : Query) : bool :=
  forallb (fun c => negb (is_partnerId_filter c)) (q_constraints q).

(** The query carries [where("partnerId", "==", partnerId)]. *)
Definition scoped_to (partnerId : string) (q : Query) : Prop :=
  In (where_eq "partnerId" partnerId) (q_constraints q).

(** A stored row meets a constraint of a query. *)
Definition meets (data : document) (c : constraint) : bool :=
  match c with
  | where_eq f v => bool_decide (data !! f = Some (Js.VStr v))
  | orderBy _ _ => true
  end.

(** The backend honours filters: a query snapshot holds only rows that
    meet every constraint of the query. *)
Definition honours_filters (be : backend) : Prop :=
  forall q s, answer_getDocs be q = Resolved s ->
    forall d, In d s -> forallb (meets d.2) (q_constraints q) = true.

(** A backend that serves the rows of [store], a snapshot per collection. *)
Definition serving (store : string -> snapshot) : backend :=
  mkBackend
    (fun q => Resolved
       (List.filter (fun d => forallb (meets d.2) (q_constraints q))
                    (store (q_collection q))))
    (fun collection id =>
       Resolved (snd <$> List.find (fun d => String.eqb d.1 id)
                                   (store collection))).

End Firestore.

(** ** The page renderers: pages/Partners.js, pages/Documents.js (both
    revisions), pages/Templates.js *)

Module Pages.
Import Firestore.

(** What the content root shows. *)
Inductive view :=
| Loading
| AccessDenied
| Listing (rows : list document)
| Library (documents folders : list document)
| PartnerNotFound
| Detail (partner : document)
| LoadError.

(** The page while a renderer runs: the reads sent to the backend so far,
    the console, and the content root. *)
Record page := mkPage {
  issued : list read;
  console : list (string * string);
  shown : view
}.

Definition blank : page := mkPage [] [] Loading.

Inductive outcome (A : Type) :=
| Returned (a : A)
| Thrown (error : string).
Arguments Returned {A} a.
Arguments Thrown {A} error.

(** Renderer code: it reads the backend's answers and updates the page;
    a rejected promise is an exception at its [await]. *)
Definition M (A : Type) : Type := backend -> page -> outcome A * page.

#[export] Instance M_ret : MRet M := fun A a _ p => (Returned a, p).

#[export] Instance M_bind : MBind M := fun A B k m be p =>
  match m be p with
  | (Returned a, p') => k a be p'
  | (Thrown e, p') => (Thrown e, p')
  end.

(** [try { m } catch (error) { handler error }]. *)
Definition try_catch {A} (m : M A) (handler : string -> M A) : M A :=
  fun be p =>
    match m be p with
    | (Returned a, p') => (Returned a, p')
    | (Thrown e, p') => handler e be p'
    end.

Definition await {A} (r : read) (answer : response A) : M A :=
  fun _ p =>
    let p' := mkPage (issued p ++ [r]) (console p) (shown p) in
    match answer with
    | Resolved a => (Returned a, p')
    | Rejected e => (Thrown e, p')
    end.

(** [await getDocs(q)]. *)
Definition getDocs (q : Query) : M snapshot :=
  fun be => await (GetDocs q) (answer_getDocs be q) be.

(** [await getDoc(doc(db, collection, id))]. *)
Definition getDoc (collection id : string) : M (option document) :=
  fun be => await (GetDoc collection id) (answer_getDoc be collection id) be.

(** [console.error(label, error)]. *)
Definition console_error (label error : string) : M unit :=
  fun _ p =>
    (Returned tt, mkPage (issued p) (console p ++ [(label, error)]) (shown p)).

(** [contentRoot.innerHTML = ...]. *)
Definition show (v : view) : M unit :=
  fun _ p => (Returned tt, mkPage (issued p) (console p) v).

(** [snapshot.forEach(doc => rows.push({ id: doc.id, ...doc.data() }))]. *)
Definition rows_of (s : snapshot) : list document :=
  map (fun d => with_id (fst d) (snd d)) s.

(** The role branch the renderers share: [staff] for admin and transferz,
    [scoped partnerId] for a partner whose id is truthy, else no query. *)
Definition role_query (staff : Query) (scoped : string -> Query)
    (userRole : string) (partnerId : option string) : option Query :=
  if String.eqb userRole "admin" || String.eqb userRole "transferz"
  then Some staff
  else match partnerId with
       | Some pid =>
           if String.eqb userRole "partner" && Js.nonempty pid
           then Some (scoped pid)
           else None
       | None => None
       end.

Module Partners.

Definition partnersCol : Query := collection "partners".

Definition partnersQuery : string -> option string -> option Query :=
  role_query (query partnersCol [])
             (fun pid => query partnersCol [where_eq "partnerId" pid]).

Definition renderPartnersPage (userRole : string) (partnerId : option string)
  : M unit :=
  show Loading;;
  match partnersQuery userRole partnerId with
  | None => show AccessDenied
  | Some q =>
      try_catch
        (querySnapshot ← getDocs q;
         show (Listing (rows_of querySnapshot)))
        (fun error =>
           console_error "Error fetching partners:" error;;
           show LoadError)
  end.

Definition renderPartnerDetailPage (partnerDocId userRole : string) : M unit :=
  show Loading;;
  try_catch
    (partnerDocSnap ← getDoc "partners" partnerDocId;
     match partnerDocSnap with
     | None => show PartnerNotFound
     | Some data => show (Detail (with_id partnerDocId data))
     end)
    (fun error =>
       console_error "Error fetching partner details:" error;;
       show LoadError).

End Partners.

(** pages/Documents.js, first revision: a flat, role-filtered list. *)
Module Documents.

Definition documentsCol : Query := collection "documents".

Definition documentsQuery : string -> option string -> option Query :=
  role_query (query documentsCol [orderBy "updatedAt" "desc"])
             (fun pid => query documentsCol
                [where_eq "partnerId" pid; orderBy "updatedAt" "desc"]).

Definition renderDocumentsPage (userRole : string) (partnerId : option string)
  : M unit :=
  show Loading;;
  match documentsQuery userRole partnerId with
  | None => show AccessDenied
  | Some q =>
      try_catch
        (snapshot ← getDocs q;
         show (Listing (rows_of snapshot)))
        (fun error =>
           console_error "Error loading documents:" error;;
           show LoadError)
  end.

End Documents.

(** pages/Documents.js, second revision: folders, favourites, upload. *)
Module DocumentsLibrary.

Definition documentsCol : Query := collection "documents".
Definition foldersCol : Query := collection "folders".

(** The query of [loadDocuments(folderName)]; a falsy folder name is the
    root view. *)
Definition documentsQuery (userRole : string) (partnerId : option string)
    (folderName : option string) : option Query :=
  role_query
    (match folderName with
     | Some f =>
         if Js.nonempty f
         then query documentsCol [where_eq "folder" f; orderBy "createdAt" "desc"]
         else query documentsCol [orderBy "createdAt" "desc"]
     | None => query documentsCol [orderBy "createdAt" "desc"]
     end)
    (fun pid =>
       match folderName with
       | Some f =>
           if Js.nonempty f
           then query documentsCol
                  [where_eq "partnerId" pid; where_eq "folder" f;
                   orderBy "createdAt" "desc"]
           else query documentsCol
                  [where_eq "partnerId" pid; orderBy "createdAt" "desc"]
       | None => query documentsCol
                   [where_eq "partnerId" pid; orderBy "createdAt" "desc"]
       end)
    userRole partnerId.

Definition loadDocuments (userRole : string) (partnerId : option string)
    (folderName : option string) : M (list document) :=
  match documentsQuery userRole partnerId folderName with
  | None => mret []
  | Some q => snapshot ← getDocs q; mret (rows_of snapshot)
  end.

Definition loadFolders : M (list document) :=
  snapshot ← getDocs foldersCol; mret (rows_of snapshot).

Definition renderPage (userRole : string) (partnerId : option string)
    (folderName : option string) : M unit :=
  documents ← loadDocuments userRole partnerId folderName;
  folders ← loadFolders;
  show (Library documents folders).

(** The renderer awaits the initial [renderPage(null)] outside any [try]. *)
Definition renderDocumentsPage (userRole : string) (partnerId : option string)
  : M unit :=
  show Loading;;
  renderPage userRole partnerId None.

End DocumentsLibrary.

Module Templates.

Definition templatesCol : Query := collection "templates".

Definition templatesQuery : string -> option string -> option Query :=
  role_query (query templatesCol [orderBy "updatedAt" "desc"])
             (fun pid => query templatesCol
                [where_eq "partnerId" pid; orderBy "updatedAt" "desc"]).

Definition renderTemplatesPage (userRole : string) (partnerId : option string)
  : M unit :=
  show Loading;;
  match templatesQuery userRole partnerId with
  | None => show AccessDenied
  | Some q =>
      try_catch
        (snapshot ← getDocs q;
         show (Listing (rows_of snapshot)))
        (fun error =>
           console_error "Error loading templates:" error;;
           show LoadError)
  end.

End Templates.

(** *** Vocabulary for the statements about the renderers *)

(** The reads a renderer sends when it starts on a blank page. *)
Definition reads (m : M unit) (be : backend) : list read :=
  issued (m be blank).2.

Definition staff (userRole : string) : Prop :=
  userRole = "admin" \/ userRole = "transferz".

(** A backend that has nothing stored and answers every read. *)
Definition empty_backend : backend :=
  mkBackend (fun _ => Resolved []) (fun _ _ => Resolved None).

(** A backend that rejects every read with the given error. *)
Definition failing_backend (error : string) : backend :=
  mkBackend (fun _ => Rejected error) (fun _ _ => Rejected error).

(** The query a role is given by a renderer's role branch. *)
Definition role_scoped (build : string -> option string -> option Query)
    (collection : string) : Prop :=
  forall userRole partnerId,
    (staff userRole ->
       exists q, build userRole partnerId = Some q
                 /\ q_collection q = collection /\ unfiltered q = true) /\
    (forall pid q, userRole = "partner" -> partnerId = Some pid ->
       build userRole partnerId = Some q ->
       q_collection q = collection /\ scoped_to pid q) /\
    (forall pid, userRole = "partner" -> partnerId = Some pid -> pid <> "" ->
       exists q, build userRole partnerId = Some q) /\
    (~ staff userRole -> ~ (userRole = "partner" /\ Js.truthy partnerId = true) ->
       build userRole partnerId = None).

(** A renderer sends its collection's query as the role branch builds
    it, and no read outside [collections]. *)
Definition sends_scoped (render : string -> option string -> M unit)
    (collection : string) (collections : list string) : Prop :=
  forall userRole partnerId be,
    (forall r, In r (reads (render userRole partnerId) be) ->
       exists q, r = GetDocs q /\ In (q_collection q) collections) /\
    (forall q, In (GetDocs q) (reads (render userRole partnerId) be) ->
       staff userRole -> unfiltered q = true) /\
    (forall q pid, In (GetDocs q) (reads (render userRole partnerId) be) ->
       userRole = "partner" -> partnerId = Some pid ->
       q_collection q = collection -> scoped_to pid q) /\
    (forall pid, userRole = "partner" -> partnerId = Some pid -> pid <> "" ->
       exists q, In (GetDocs q) (reads (render userRole partnerId) be)
                 /\ q_collection q = collection /\ scoped_to pid q) /\
    (staff userRole ->
       exists q, In (GetDocs q) (reads (render userRole partnerId) be)
                 /\ q_collection q = collection).

(** The rows of the renderer's own collection that a view shows. *)
Definition own_rows (v : view) : list document :=
  match v with
  | Listing rows => rows
  | Library documents _ => documents
  | _ => []
  end.

(** On a backend that honours filters, a partner is shown only rows of
    the renderer's collection whose [partnerId] is the partner's. *)
Definition shows_scoped (render : string -> option string -> M unit) : Prop :=
  forall be pid row,
    honours_filters be ->
    In row (own_rows (shown (render "partner" (Some pid) be blank).2)) ->
    row !! "partnerId" = Some (Js.VStr pid).

(** Sample data: two documents of different partners and one folder. *)
Definition sample_store (collection : string) : snapshot :=
  if String.eqb collection "documents" then
    [("d1", {[ "name" := Js.VStr "guide.pdf"; "partnerId" := Js.VStr "acme" ]});
     ("d2", {[ "name" := Js.VStr "rates.pdf"; "partnerId" := Js.VStr "globex" ]})]
  else if String.eqb collection "folders" then
    [("f1", {[ "name" := Js.VStr "Globex launch" ]})]
  else [].

End Pages.

(** ** constants/onboardingStages.js: the cached stage list *)

Module OnboardingStages.
Import Firestore.

Definition DEFAULT_STAGES : list string :=
  ["Intake"; "Testing"; "Integration"; "Go Live"; "Complete"].

(** The calls the module sends for the document settings/onboardingStages. *)
Inductive call :=
| CallGetDoc
| CallSetDoc (data : document) (merge : bool).

(** Where the body of a running load is parked. *)
Inductive parked :=
| AwaitingGetDoc
| AwaitingSetDoc.

#[export] Instance parked_eq_dec : EqDecision parked.
Proof. solve_decision. Defined.

(** What the caller of [loadOnboardingStages] gets: a promise already
    resolved with the cached array, or one that follows [stagesPromise]. *)
Inductive loaded :=
| Cached (stages : list string)
| Following (promise : nat).

Inductive result :=
| Done
| Threw (error : string).

(** The module's two variables, the promises it has created, and what is
    outside it: the calls sent, the console, the stored document. *)
Record world := mkWorld {
  cachedStages : option (list string);
  stagesPromise : option nat;
  suspended : gmap nat parked;
  fulfilled : gmap nat (list string);
  next_promise : nat;
  calls : list call;
  console : list (string * string);
  settingsDoc : option document
}.

Definition initial : world :=
  mkWorld None None ∅ ∅ 0 [] [] None.

Definition set_cachedStages (c : option (list string)) (w : world) : world :=
  mkWorld c (stagesPromise w) (suspended w) (fulfilled w) (next_promise w)
          (calls w) (console w) (settingsDoc w).

Definition set_stagesPromise (p : option nat) (w : world) : world :=
  mkWorld (cachedStages w) p (suspended w) (fulfilled w) (next_promise w)
          (calls w) (console w) (settingsDoc w).

Definition set_suspended (s : gmap nat parked) (w : world) : world :=
  mkWorld (cachedStages w) (stagesPromise w) s (fulfilled w) (next_promise w)
          (calls w) (console w) (settingsDoc w).

Definition send (c : call) (w : world) : world :=
  mkWorld (cachedStages w) (stagesPromise w) (suspended w) (fulfilled w)
          (next_promise w) (calls w ++ [c]) (console w) (settingsDoc w).

Definition console_error (label error : string) (w : world) : world :=
  mkWorld (cachedStages w) (stagesPromise w) (suspended w) (fulfilled w)
          (next_promise w) (calls w) (console w ++ [(label, error)])
          (settingsDoc w).

Definition set_settingsDoc (d : option document) (w : world) : world :=
  mkWorld (cachedStages w) (stagesPromise w) (suspended w) (fulfilled w)
          (next_promise w) (calls w) (console w) d.

(** [{ stages: ..., updatedAt: serverTimestamp() }]. *)
Definition stages_data (stages : list string) : document :=
  {[ "stages" := Js.VArr stages; "updatedAt" := Js.VServerTimestamp ]}.

(** The backend's [setDoc]: with [merge] the fields are laid over the
    stored ones, without it the document is replaced. *)
Definition stored_after (data : document) (merge : bool)
    (old : option document) : option document :=
  if merge then Some (data ∪ default ∅ old) else Some data.

(** [settingsDocSnap.exists() && settingsDocSnap.data().stages], then
    [Array.isArray(stages) && stages.length > 0]. *)
Definition usable_stages (snap : option document) : option (list string) :=
  match snap with
  | Some data =>
      let stages := default Js.VUndefined (data !! "stages") in
      if Js.value_truthy stages then Js.nonempty_array stages else None
  | None => None
  end.

(** [return v] of the load body followed by its [finally]: the promise is
    fulfilled and [stagesPromise] is cleared. *)
Definition finish (p : nat) (v : list string) (w : world) : world :=
  mkWorld (cachedStages w) None (delete p (suspended w))
          (<[p := v]> (fulfilled w)) (next_promise w)
          (calls w) (console w) (settingsDoc w).

(** The [catch] of the load body. *)
Definition load_failed (p : nat) (error : string) (w : world) : world :=
  finish p DEFAULT_STAGES
    (set_cachedStages (Some DEFAULT_STAGES)
       (console_error "Error loading onboarding stages:" error w)).

(** [loadOnboardingStages(db)] up to its first [await]: the cached array,
    the promise of a running load, or a new load whose body has sent its
    [getDoc]. *)
Definition loadOnboardingStages (w : world) : loaded * world :=
  match cachedStages w with
  | Some stages => (Cached stages, w)
  | None =>
      match stagesPromise w with
      | Some p => (Following p, w)
      | None =>
          let p := next_promise w in
          (Following p,
           mkWorld None (Some p) (<[p := AwaitingGetDoc]> (suspended w))
                   (fulfilled w) (S p) (calls w ++ [CallGetDoc])
                   (console w) (settingsDoc w))
      end
  end.

(** The load body resumes with the answer to its [getDoc]. *)
Definition getDoc_settled (p : nat) (answer : response (option document))
    (w : world) : world :=
  match suspended w !! p with
  | Some AwaitingGetDoc =>
      match answer with
      | Resolved settingsDocSnap =>
          match usable_stages settingsDocSnap with
          | Some stages => finish p stages (set_cachedStages (Some stages) w)
          | None =>
              send (CallSetDoc (stages_data DEFAULT_STAGES) true)
                   (set_suspended (<[p := AwaitingSetDoc]> (suspended w)) w)
          end
      | Rejected error => load_failed p error w
      end
  | _ => w
  end.

(** The load body resumes with the answer to its initialising [setDoc]. *)
Definition setDoc_settled (p : nat) (answer : response unit) (w : world)
  : world :=
  match suspended w !! p with
  | Some AwaitingSetDoc =>
      match answer with
      | Resolved _ =>
          finish p DEFAULT_STAGES
            (set_cachedStages (Some DEFAULT_STAGES)
               (set_settingsDoc
                  (stored_after (stages_data DEFAULT_STAGES) true (settingsDoc w))
                  w))
      | Rejected error => load_failed p error w
      end
  | _ => w
  end.

(** [saveOnboardingStages(db, stages)], given the answer to its [setDoc]. *)
Definition saveOnboardingStages (stages : Js.value) (answer : response unit)
    (w : world) : result * world :=
  match Js.nonempty_array stages with
  | None => (Threw "Stages must be a non-empty array", w)
  | Some l =>
      let data := stages_data l in
      let w1 := send (CallSetDoc data false) w in
      match answer with
      | Resolved _ =>
          (Done,
           set_cachedStages (Some l)
             (set_settingsDoc (stored_after data false (settingsDoc w1)) w1))
      | Rejected error =>
          (Threw error, console_error "Error saving onboarding stages:" error w1)
      end
  end.

Definition clearStagesCache (w : world) : world :=
  set_stagesPromise None (set_cachedStages None w).

(** [stages || cachedStages || DEFAULT_STAGES]: an array is truthy even
    when it is empty. *)
Definition stagesToUse (w : world) (stages : option (list string)) : list string :=
  match stages with
  | Some l => l
  | None => default DEFAULT_STAGES (cachedStages w)
  end.

(** [Array.prototype.indexOf], with [-1] for an absent element. *)
Fixpoint indexOf (x : string) (l : list string) : Z :=
  match l with
  | [] => -1
  | y :: r =>
      if String.eqb y x then 0
      else let i := indexOf x r in
           if (i =? -1)%Z then -1 else (i + 1)%Z
  end.

(** [l[0] || null]. *)
Definition first_or_null (l : list string) : option string :=
  match l with
  | x :: _ => if Js.nonempty x then Some x else None
  | [] => None
  end.

(** [getNextStage(currentStage, stages)]; [None] is [null]. *)
Definition getNextStage (w : world) (currentStage : option string)
    (stages : option (list string)) : option string :=
  let stagesToUse := stagesToUse w stages in
  match currentStage with
  | None => first_or_null stagesToUse
  | Some cur =>
      if negb (Js.nonempty cur) then first_or_null stagesToUse
      else
        let currentIndex := indexOf cur stagesToUse in
        if (currentIndex =? -1)%Z then first_or_null stagesToUse
        else if (currentIndex >=? Z.of_nat (length stagesToUse) - 1)%Z then None
        else stagesToUse !! Z.to_nat (currentIndex + 1)
  end.

Definition getFirstStage (w : world) (stages : option (list string)) : string :=
  default "Intake" (first_or_null (stagesToUse w stages)).

Definition getStages (w : world) : list string :=
  default DEFAULT_STAGES (cachedStages w).

(** What can happen to the module between two turns of the event loop. *)
Inductive event :=
| Load
| GetDocSettled (p : nat) (answer : response (option document))
| SetDocSettled (p : nat) (answer : response unit).

Definition step (w : world) (e : event) : world :=
  match e with
  | Load => snd (loadOnboardingStages w)
  | GetDocSettled p answer => getDoc_settled p answer w
  | SetDocSettled p answer => setDoc_settled p answer w
  end.

Definition run (es : list event) (w : world) : world := foldl step w es.

(** Loads whose [getDoc] has been sent and not answered yet. *)
Definition fetches_in_flight (w : world) : nat :=
  size (filter (fun kv => kv.2 = AwaitingGetDoc) (suspended w)).

(** A whole load with nothing else in between: the call, then the two
    answers as far as the body asks for them.  The value is what the
    promise resolves with. *)
Definition load_all (getDoc_answer : response (option document))
    (setDoc_answer : response unit) (w : world) : option (list string) * world :=
  match loadOnboardingStages w with
  | (Cached stages, w') => (Some stages, w')
  | (Following p, w') =>
      let w'' := setDoc_settled p setDoc_answer
                   (getDoc_settled p getDoc_answer w') in
      (fulfilled w'' !! p, w'')
  end.

(** The state of the module between loads: no load body is suspended
    and [stagesPromise] is cleared, or exactly one is, [stagesPromise] is
    its promise and the cache is still unset. *)
Definition coalesced (w : world) : Prop :=
  (suspended w = ∅ /\ stagesPromise w = None) \/
  (exists p ph, suspended w = {[p := ph]} /\ stagesPromise w = Some p
                /\ cachedStages w = None).

(** The first occurrence of [x] splits the list. *)
Definition first_occurrence (x : string) (l pre post : list string) : Prop :=
  l = pre ++ x :: post /\ ~ In x pre.

End OnboardingStages.

(** ** pages/Settings.js: the stage editor *)

Module Settings.
Import Firestore OnboardingStages.

(** An entry of the editor's local [stages] array.  Every entry is a
    stage name as long as the indices come from rendered buttons; a write
    past the end would leave holes and [undefined] behind. *)
Inductive slot :=
| Hole
| Undefined
| Name (s : string).

#[export] Instance slot_eq_dec : EqDecision slot.
Proof. solve_decision. Defined.

(** [a[i]]: a hole or an index past the end reads as [undefined]. *)
Definition aget (i : nat) (a : list slot) : slot :=
  match a !! i with
  | Some (Name s) => Name s
  | _ => Undefined
  end.

(** [a[i] = v]: past the end the array grows, with holes up to [i]. *)
Definition aset (i : nat) (v : slot) (a : list slot) : list slot :=
  if decide (i < length a) then <[i := v]> a
  else a ++ replicate (i - length a) Hole ++ [v].

(** [a.splice(i, 1)]: nothing is removed past the end. *)
Definition splice1 (i : nat) (a : list slot) : list slot := delete i a.

(** The buttons of one rendered stage item. *)
Record item := mkItem {
  data_index : nat;
  move_up_disabled : bool;
  move_down_disabled : bool;
  delete_disabled : bool
}.

(** [renderStagesList]: one item per entry ([map] skips holes). *)
Definition renderStagesList (stages : list slot) : list item :=
  omap id
    (imap (fun index stage =>
             match stage with
             | Hole => None
             | _ => Some (mkItem index
                            (index =? 0)%nat
                            (index =? length stages - 1)%nat
                            (length stages <=? 1)%nat)
             end) stages).

(** The click handler of a move-up button. *)
Definition moveUp (index : nat) (stages : list slot) : list slot :=
  if (0 <? index)%nat then
    let rhs0 := aget (index - 1) stages in
    let rhs1 := aget index stages in
    aset (index - 1) rhs1 (aset index rhs0 stages)
  else stages.

(** The click handler of a move-down button. *)
Definition moveDown (index : nat) (stages : list slot) : list slot :=
  if (index <? length stages - 1)%nat then
    let rhs0 := aget (index + 1) stages in
    let rhs1 := aget index stages in
    aset (index + 1) rhs1 (aset index rhs0 stages)
  else stages.

(** The click handler of a delete button; [confirmed] is what
    [confirm()] returns when it is asked. *)
Definition deleteStage (index : nat) (confirmed : bool) (stages : list slot)
  : list slot :=
  if (1 <? length stages)%nat then
    if confirmed then splice1 index stages else stages
  else stages.

Inductive save_outcome :=
| NamesMissing
| TypeErrorThrown
| Declined
| Saved
| SaveFailed.

Inductive reset_outcome :=
| ResetDeclined
| ResetDone
| ResetFailed.

(** The array literal of the reset handler. *)
Definition defaultStages : list string :=
  ["Intake"; "Testing"; "Integration"; "Go Live"; "Complete"].

Definition name_of (e : slot) : option string :=
  match e with
  | Name s => Some s
  | _ => None
  end.

Section Trim.

(** [String.prototype.trim], the platform's. *)
Variable trim : string -> string.

(** The blur handler of a stage input holding [value]. *)
Definition blurInput (index : nat) (value : string) (stages : list slot)
  : list slot :=
  let newValue := trim value in
  if Js.nonempty newValue
     && negb (bool_decide (Name newValue = aget index stages))
  then aset index (Name newValue) stages
  else stages.

(** The click handler of the add button; [prompted] is what [prompt()]
    returns. *)
Definition addStage (prompted : option string) (stages : list slot)
  : list slot :=
  match prompted with
  | Some newStageName =>
      if Js.nonempty newStageName && Js.nonempty (trim newStageName)
      then stages ++ [Name (trim newStageName)]
      else stages
  | None => stages
  end.

(** [s => !s || !s.trim()], as [filter] applies it: holes are skipped. *)
Definition unnamed (e : slot) : bool :=
  match e with
  | Hole => false
  | Undefined => true
  | Name s => negb (Js.nonempty s) || negb (Js.nonempty (trim s))
  end.

(** One turn of the de-duplication loop of the save handler. *)
Definition dedupe_step (acc : gset string * list string) (stage : string)
  : gset string * list string :=
  let trimmed := trim stage in
  if Js.nonempty trimmed && negb (bool_decide (trimmed ∈ acc.1))
  then ({[trimmed]} ∪ acc.1, (acc.2 ++ [trimmed])%list)
  else acc.

Definition uniqueStagesOf (stages : list string) : list string :=
  (foldl dedupe_step (∅, []) stages).2.

(** The names that loop keeps or drops: the trimmed, non-empty ones. *)
Definition trimmed_names (names : list string) : list string :=
  filter (fun s => s <> "") (trim <$> names).

(** The click handler of the save button.  [confirmed] is the answer to
    the duplicate warning, [answer] the backend's answer to the write.
    The loop calls [trim] on every entry, which throws on an entry that is
    not a string.  The value is the outcome, the local array afterwards
    and the module state afterwards. *)
Definition saveStagesClick (confirmed : bool) (answer : response unit)
    (stages : list slot) (w : world) : save_outcome * list slot * world :=
  if existsb unnamed stages then (NamesMissing, stages, w)
  else
    match mapM name_of stages with
    | None => (TypeErrorThrown, stages, w)
    | Some names =>
        let uniqueStages := uniqueStagesOf names in
        let save (toSave : list string) :=
          match saveOnboardingStages (Js.VArr toSave) answer w with
          | (Done, w') => (Saved, Name <$> toSave, clearStagesCache w')
          | (Threw error, w') =>
              (SaveFailed, Name <$> toSave,
               console_error "Error saving stages:" error w')
          end in
        if negb (length uniqueStages =? length stages)%nat then
          if confirmed then save uniqueStages else (Declined, stages, w)
        else save names
    end.

(** What the user can do to the local list. *)
Inductive operation :=
| MoveUp (index : nat)
| MoveDown (index : nat)
| Delete (index : nat) (confirmed : bool)
| Rename (index : nat) (value : string)
| Add (prompted : option string).

Definition apply (stages : list slot) (op : operation) : list slot :=
  match op with
  | MoveUp index => moveUp index stages
  | MoveDown index => moveDown index stages
  | Delete index confirmed => deleteStage index confirmed stages
  | Rename index value => blurInput index value stages
  | Add prompted => addStage prompted stages
  end.

End Trim.

(** The click handler of the reset button. *)
Definition resetStagesClick (confirmed : bool) (answer : response unit)
    (w : world) : reset_outcome * world :=
  if confirmed then
    match saveOnboardingStages (Js.VArr defaultStages) answer w with
    | (Done, w') => (ResetDone, clearStagesCache w')
    | (Threw error, w') =>
        (ResetFailed, console_error "Error resetting stages:" error w')
    end
  else (ResetDeclined, w).

(** De-duplication as the specification words it: the first occurrence
    of every name is kept, in the order of the list. *)
Definition first_occurrences (l : list string) : list string :=
  foldr (fun x kept => x :: filter (fun y => y <> x) kept) [] l.

(** ASCII white space, the part of [trim] that the examples below use. *)
Definition is_space (c : ascii) : bool :=
  match nat_of_ascii c with
  | 9 | 10 | 11 | 12 | 13 | 32 => true
  | _ => false
  end.

Fixpoint trim_start (s : string) : string :=
  match s with
  | String c r => if is_space c then trim_start r else s
  | EmptyString => EmptyString
  end.

Fixpoint trim_end (s : string) : string :=
  match s with
  | String c r =>
      match trim_end r with
      | EmptyString => if is_space c then EmptyString else String c EmptyString
      | r' => String c r'
      end
  | EmptyString => EmptyString
  end.

Definition ascii_trim (s : string) : string := trim_end (trim_start s).

End Settings.
(** ** constants/onboardingStages.js: the module and the arrays it shares *)

Module StagesLifecycle.
Import Firestore OnboardingStages.

(** The module keeps and hands out arrays, not copies of them:
    [cachedStages = stages] stores the caller's own array,
    [return cachedStages] and [cachedStages || DEFAULT_STAGES] hand out
    the cached array or [DEFAULT_STAGES] itself.  So arrays are objects
    with an identity here, and whoever holds one can change it. *)

(** An argument of [saveOnboardingStages]: an array, by reference, or a
    value that is not an array. *)
Inductive argument :=
| Array (r : nat)
| NotAnArray.

(** Where the body of a running load is parked; a write waits with the
    data it was serialised to when it was sent. *)
Inductive waiting :=
| ForGetDoc
| ForSetDoc (data : document).

(** The array objects ([arrays], by reference; reference [0] is
    [DEFAULT_STAGES]), the module's two variables, the load promises
    and the pending saves with the array each holds, and what is outside:
    the calls sent, the console, the stored document. *)
Record state := mkState {
  arrays : list (list string);
  cached : option nat;
  loading : option nat;
  parked_loads : gmap nat waiting;
  resolved_loads : gmap nat nat;
  next_load : nat;
  saving : gmap nat (nat * document);
  next_save : nat;
  sent : list call;
  logged : list (string * string);
  stored : option document
}.

Definition DEFAULT : nat := 0.

Definition start : state :=
  mkState [DEFAULT_STAGES] None None ∅ ∅ 0 ∅ 0 [] [] None.

(** What the array holds now. *)
Definition contents (st : state) (r : nat) : list string :=
  default [] (arrays st !! r).

(** What a caller of [loadOnboardingStages] gets: a promise already
    resolved with the cached array, or one that follows [stagesPromise]. *)
Inductive handed :=
| Now (r : nat)
| Later (promise : nat).

(** [loadOnboardingStages(db)] up to its first [await]. *)
Definition load_called (st : state) : handed * state :=
  match cached st with
  | Some r => (Now r, st)
  | None =>
      match loading st with
      | Some p => (Later p, st)
      | None =>
          let p := next_load st in
          (Later p,
           mkState (arrays st) None (Some p)
                   (<[p := ForGetDoc]> (parked_loads st)) (resolved_loads st)
                   (S p) (saving st) (next_save st)
                   (sent st ++ [CallGetDoc]) (logged st) (stored st))
      end
  end.

(** [cachedStages = r; return r] of the load body followed by its
    [finally]. *)
Definition finish (p r : nat) (st : state) : state :=
  mkState (arrays st) (Some r) None
          (delete p (parked_loads st)) (<[p := r]> (resolved_loads st))
          (next_load st) (saving st) (next_save st)
          (sent st) (logged st) (stored st).

(** The [catch] of the load body. *)
Definition load_failed (p : nat) (error : string) (st : state) : state :=
  finish p DEFAULT
    (mkState (arrays st) (cached st) (loading st)
             (parked_loads st) (resolved_loads st)
             (next_load st) (saving st) (next_save st) (sent st)
             (logged st ++ [("Error loading onboarding stages:", error)])
             (stored st)).

(** The load body resumes with the answer to its [getDoc].  The array in
    the snapshot's data is a new object. *)
Definition getDoc_settled (p : nat) (answer : response (option document))
    (st : state) : state :=
  match parked_loads st !! p with
  | Some ForGetDoc =>
      match answer with
      | Resolved settingsDocSnap =>
          match usable_stages settingsDocSnap with
          | Some stages =>
              finish p (length (arrays st))
                (mkState (arrays st ++ [stages]) (cached st) (loading st)
                         (parked_loads st) (resolved_loads st)
                         (next_load st) (saving st) (next_save st)
                         (sent st) (logged st) (stored st))
          | None =>
              let data := stages_data (contents st DEFAULT) in
              mkState (arrays st) (cached st) (loading st)
                      (<[p := ForSetDoc data]> (parked_loads st))
                      (resolved_loads st)
                      (next_load st) (saving st) (next_save st)
                      (sent st ++ [CallSetDoc data true]) (logged st)
                      (stored st)
          end
      | Rejected error => load_failed p error st
      end
  | _ => st
  end.

(** The load body resumes with the answer to its initialising [setDoc]. *)
Definition setDoc_settled (p : nat) (answer : response unit) (st : state)
  : state :=
  match parked_loads st !! p with
  | Some (ForSetDoc data) =>
      match answer with
      | Resolved _ =>
          finish p DEFAULT
            (mkState (arrays st) (cached st) (loading st)
                     (parked_loads st) (resolved_loads st)
                     (next_load st) (saving st) (next_save st)
                     (sent st) (logged st)
                     (stored_after data true (stored st)))
      | Rejected error => load_failed p error st
      end
  | _ => st
  end.

(** [saveOnboardingStages(db, stages)] up to its [await]: the check of
    the argument, then the write of what the array holds now. *)
Definition save_called (stages : argument) (st : state) : result * state :=
  match stages with
  | NotAnArray => (Threw "Stages must be a non-empty array", st)
  | Array r =>
      match arrays st !! r with
      | Some ((_ :: _) as l) =>
          let data := stages_data l in
          (Done,
           mkState (arrays st) (cached st) (loading st)
                   (parked_loads st) (resolved_loads st) (next_load st)
                   (<[next_save st := (r, data)]> (saving st))
                   (S (next_save st))
                   (sent st ++ [CallSetDoc data false]) (logged st)
                   (stored st))
      | _ => (Threw "Stages must be a non-empty array", st)
      end
  end.

(** The body of a save resumes with the answer to its [setDoc]:
    [cachedStages = stages] is the array the caller passed, whatever it
    holds by now. *)
Definition save_settled (k : nat) (answer : response unit) (st : state)
  : state :=
  match saving st !! k with
  | Some (r, data) =>
      match answer with
      | Resolved _ =>
          mkState (arrays st) (Some r) (loading st)
                  (parked_loads st) (resolved_loads st) (next_load st)
                  (delete k (saving st)) (next_save st)
                  (sent st) (logged st)
                  (stored_after data false (stored st))
      | Rejected error =>
          mkState (arrays st) (cached st) (loading st)
                  (parked_loads st) (resolved_loads st) (next_load st)
                  (delete k (saving st)) (next_save st)
                  (sent st)
                  (logged st ++ [("Error saving onboarding stages:", error)])
                  (stored st)
      end
  | None => st
  end.

(** [clearStagesCache()]. *)
Definition cleared (st : state) : state :=
  mkState (arrays st) None None
          (parked_loads st) (resolved_loads st) (next_load st)
          (saving st) (next_save st) (sent st) (logged st) (stored st).

(** [getStages()]: the cached array or [DEFAULT_STAGES], by reference. *)
Definition getStages (st : state) : nat := default DEFAULT (cached st).

(** Everything that can happen between two turns of the event loop: the
    calls into the module and the backend's answers, and what the rest
    of the program can do to arrays: make one, and change one it holds
    (any array may have been handed to it). *)
Inductive operation :=
| CallLoad
| AnswerGetDoc (p : nat) (answer : response (option document))
| AnswerSetDoc (p : nat) (answer : response unit)
| CallSave (stages : argument)
| AnswerSave (k : nat) (answer : response unit)
| CallClear
| NewArray (l : list string)
| Mutate (r : nat) (l : list string).

Definition with_arrays (a : list (list string)) (st : state) : state :=
  mkState a (cached st) (loading st) (parked_loads st) (resolved_loads st)
          (next_load st) (saving st) (next_save st) (sent st) (logged st)
          (stored st).

Definition perform (st : state) (op : operation) : state :=
  match op with
  | CallLoad => (load_called st).2
  | AnswerGetDoc p answer => getDoc_settled p answer st
  | AnswerSetDoc p answer => setDoc_settled p answer st
  | CallSave stages => (save_called stages st).2
  | AnswerSave k answer => save_settled k answer st
  | CallClear => cleared st
  | NewArray l => with_arrays (arrays st ++ [l]) st
  | Mutate r l => with_arrays (<[r := l]> (arrays st)) st
  end.

Definition history (ops : list operation) : state := foldl perform start ops.

(** No array the module holds is empty: not [DEFAULT_STAGES], not the
    cached array, not one a load was resolved with, not one a pending
    save is about to cache. *)
Definition stocked (st : state) : Prop :=
  contents st DEFAULT <> [] /\
  (forall r, cached st = Some r -> contents st r <> []) /\
  (forall p r, resolved_loads st !! p = Some r -> contents st r <> []) /\
  (forall k r data, saving st !! k = Some (r, data) -> contents st r <> []).

(** The module as the by-value machine of [OnboardingStages] sees it:
    every reference replaced by what the array holds. *)
Definition by_value (st : state) : world :=
  mkWorld (contents st <$> cached st) (loading st)
          ((fun w => match w with
                     | ForGetDoc => AwaitingGetDoc
                     | ForSetDoc _ => AwaitingSetDoc
                     end) <$> parked_loads st)
          (contents st <$> resolved_loads st)
          (next_load st) (sent st) (logged st) (stored st).

(** The references the module holds are arrays, [DEFAULT_STAGES] holds
    its five names, and a parked initialising write carries them. *)
Definition untouched (st : state) : Prop :=
  arrays st !! DEFAULT = Some DEFAULT_STAGES /\
  (forall r, cached st = Some r -> r < length (arrays st)) /\
  (forall p r, resolved_loads st !! p = Some r -> r < length (arrays st)) /\
  (forall k r data, saving st !! k = Some (r, data) ->
                    r < length (arrays st)) /\
  (forall p data, parked_loads st !! p = Some (ForSetDoc data) ->
                  data = stages_data DEFAULT_STAGES).

End StagesLifecycle.

(** ** main.js: the signed-in session and the navigation bar *)

Module Shell.

(** The document users/<uid>, as far as the start-up reads it. *)
Record userData := mkUserData {
  role : option string;
  partnerId : option string;
  displayName : option string
}.

(** What the start-up hands to the router ([userRole], [scope]) and
    writes into the sidebar ([shownName]). *)
Record session := mkSession {
  userRole : string;
  scope : option string;
  shownName : string
}.

(** How the auth-state callback ends for a signed-in user. *)
Inductive signedIn :=
| Routed (s : session)
| ReadRejected (error : string)
| SplitOfNull.

(** [a || b] on [string|null] operands. *)
Definition or_else (a b : option string) : option string :=
  if Js.truthy a then a else b.

(** The auth-state callback for a signed-in user, from the profile of the
    auth service and the answer to [getDoc] of the user document (a
    snapshot is [None] when the document does not exist).  The read is
    awaited outside any [try], so a rejection ends the callback before
    anything is rendered.  [displayName.split(' ')] throws a [TypeError]
    when no name was found anywhere and the e-mail is [null]: the layout
    is up by then, but [handleNavigation] is never reached. *)
Definition resolveSession (authDisplayName authEmail : option string)
    (answer : Firestore.response (option userData)) : signedIn :=
  match answer with
  | Firestore.Rejected error => ReadRejected error
  | Firestore.Resolved userDocSnap =>
      let displayName0 := or_else authDisplayName authEmail in
      let '(userRole, partnerId, displayName) :=
        match userDocSnap with
        | Some userData =>
            (default "default" (or_else (role userData) (Some "default")),
             or_else (partnerId userData) None,
             or_else (displayName userData) displayName0)
        | None => ("default", None, displayName0)
        end in
      match displayName with
      | Some name => Routed (mkSession userRole partnerId name)
      | None => SplitOfNull
      end
  end.

(** The [data-route] attributes of the links in [#main-nav]. *)
Definition main_nav : list string := ["/partners"; "/documents"; "/templates"].

(** [highlightActiveNav(currentPath)]: for every link, whether it carries
    the class [active-nav] afterwards. *)
Definition highlightActiveNav (currentPath : string) : list (string * bool) :=
  (fun route => (route, String.eqb (Main.normalizePath route) currentPath))
    <$> main_nav.

(** The links highlighted once [renderRoute(path, ...)] has run. *)
Definition active_links (path : string) : list string :=
  fst <$> filter (fun link => link.2 = true)
                 (highlightActiveNav (Main.normalizePath path)).

End Shell.

(** ** Markup helpers: [escapeHtml] (pages/Partners.js, pages/Settings.js)
    and the error line of pages/Login.js *)

Module Markup.

(** [s.replace(/c/g, by)] for a pattern of one character. *)
Fixpoint replace_all (c : ascii) (by_ : string) (s : string) : string :=
  match s with
  | EmptyString => EmptyString
  | String a r =>
      if Ascii.eqb a c then by_ +:+ replace_all c by_ r
      else String a (replace_all c by_ r)
  end.

Definition amp : ascii := ascii_of_nat 38.
Definition quot : ascii := ascii_of_nat 34.
Definition apos : ascii := ascii_of_nat 39.
Definition lt : ascii := ascii_of_nat 60.
Definition gt : ascii := ascii_of_nat 62.

(** [escapeHtml(value)]; [None] is [null] or [undefined]. *)
Definition escapeHtml (value : option string) : string :=
  match value with
  | None => ""
  | Some s =>
      replace_all gt "&gt;"
        (replace_all lt "&lt;"
           (replace_all apos "&#39;"
              (replace_all quot "&quot;"
                 (replace_all amp "&amp;" s))))
  end.

(** Escaping one character at a time, as a reader expects it. *)
Definition entity (a : ascii) : string :=
  if Ascii.eqb a amp then "&amp;"
  else if Ascii.eqb a quot then "&quot;"
  else if Ascii.eqb a apos then "&#39;"
  else if Ascii.eqb a lt then "&lt;"
  else if Ascii.eqb a gt then "&gt;"
  else String a EmptyString.

Fixpoint escape_each (s : string) : string :=
  match s with
  | EmptyString => EmptyString
  | String a r => entity a +:+ escape_each r
  end.

(** The characters that end an attribute value or start a tag. *)
Definition markup_char (c : ascii) : Prop :=
  c = quot \/ c = apos \/ c = lt \/ c = gt.

(** Does the character occur in the string. *)
Fixpoint occurs (c : ascii) (s : string) : bool :=
  match s with
  | EmptyString => false
  | String a r => Ascii.eqb a c || occurs c r
  end.

(** [s.replace(pattern, "")] for a string pattern: the first occurrence
    only. *)
Fixpoint remove_first (pattern s : string) : string :=
  match Main.strip_prefix pattern s with
  | Some rest => rest
  | None =>
      match s with
      | EmptyString => EmptyString
      | String a r => String a (remove_first pattern r)
      end
  end.

(** [error.code.replace('auth/', '').split('-').join(' ')]. *)
Definition errorWords (code : string) : string :=
  replace_all "-" " " (remove_first "auth/" code).

(** The line the login form shows after a failed sign-in. *)
Definition loginFailed (code : string) : string :=
  "Login failed: " +:+ errorWords code.

End Markup.

(** ** pages/Partners.js: the roster's filters, forms and checklist *)

Module Roster.
Import Firestore.

(** A row of the roster with the fields the page reads; a field is
    [None] when the stored document has none or holds [null]. *)
Record partner := mkPartner {
  id : string;
  name : option string;
  partnerId : option string;
  onboardingStatus : option string;
  psm : option string;
  integrationType : option string
}.

(** [set.add(x)] on the entries of a [Set] in insertion order. *)
Definition set_add (entries : list string) (x : string) : list string :=
  if bool_decide (x ∈ entries) then entries else entries ++ [x].

(** [Array.from(new Set(l))]. *)
Definition distinct (l : list string) : list string := foldl set_add [] l.

(** [l.filter(Boolean)] on [string|null] entries. *)
Definition truthy_values (l : list (option string)) : list string :=
  omap (fun o => if Js.truthy o then o else None) l.

(** [Array.from(new Set(partners.map(field).filter(Boolean)))]: how the
    page computes the arrays [stages], [psms] and [integrations] of
    lines 45-53. *)
Definition distinct_values (field : partner -> option string)
    (partners : list partner) : list string :=
  distinct (truthy_values (field <$> partners)).

(** The three arrays the filter drop-downs are written from.  The page
    writes every entry as it is, unescaped, into
    [<option value="...">...</option>]; the option values that the
    browser reads back from that markup are not modelled, and differ
    from the entry when the entry holds a double quote. *)
Definition stages : list partner -> list string :=
  distinct_values onboardingStatus.
Definition psms : list partner -> list string := distinct_values psm.
Definition integrations : list partner -> list string :=
  distinct_values integrationType.

(** [hay.includes(needle)]. *)
Fixpoint includes (hay needle : string) : bool :=
  match Main.strip_prefix needle hay with
  | Some _ => true
  | None =>
      match hay with
      | EmptyString => false
      | String _ rest => includes rest needle
      end
  end.

(** The values of the search box and the three drop-downs. *)
Record criteria := mkCriteria {
  search : string;
  stageFilter : string;
  psmFilter : string;
  integrationFilter : string
}.

(** What the add and edit forms hold: [FormData.get] gives a string, or
    [null] for a field that is not in the form. *)
Record partnerForm := mkPartnerForm {
  f_partnerName : option string;
  f_partnerId : option string;
  f_onboardingStatus : option string;
  f_psm : option string;
  f_integrationType : option string;
  f_contactEmail : option string;
  f_notes : option string
}.

(** The object that the forms write. *)
Record partnerFields := mkPartnerFields {
  w_name : option string;
  w_partnerId : option string;
  w_onboardingStatus : option string;
  w_psm : option string;
  w_integrationType : option string;
  w_contactEmail : option string;
  w_notes : string
}.

Inductive submitted :=
| Incomplete
| Written (fields : partnerFields)
| NotWritten (fields : partnerFields) (error : string).






Section Text.

(** [String.prototype.toLowerCase] and [trim], the platform's. *)
Variable toLowerCase : string -> string.
Variable trim : string -> string.

(** [(searchInput.value || '').toLowerCase().trim()]. *)
Definition searchTerm (c : criteria) : string := trim (toLowerCase (search c)).

(** [field?.toLowerCase().includes(term)]: [undefined], so falsy, on a
    missing field. *)
Definition field_includes (field : option string) (term : string) : bool :=
  match field with
  | Some s => includes (toLowerCase s) term
  | None => false
  end.

(** [filter ? field === filter : true]. *)
Definition select_matches (filter_ : string) (field : option string) : bool :=
  if Js.nonempty filter_ then bool_decide (field = Some filter_) else true.

(** The predicate of [applyFilters]. *)
Definition shown (c : criteria) (p : partner) : bool :=
  (field_includes (name p) (searchTerm c)
   || field_includes (partnerId p) (searchTerm c)
   || negb (Js.nonempty (searchTerm c)))
  && select_matches (stageFilter c) (onboardingStatus p)
  && select_matches (psmFilter c) (psm p)
  && select_matches (integrationFilter c) (integrationType p).

(** [applyFilters]: the partners listed afterwards. *)
Definition applyFilters (c : criteria) (partners : list partner)
  : list partner :=
  filter (fun p => shown c p = true) partners.

(** [formData.get(field)?.toString().trim()]. *)
Definition trimmed (o : option string) : option string := trim <$> o.

(** [... || null]. *)
Definition or_null (o : option string) : option string :=
  if Js.truthy o then o else None.

(** The object both forms build from their fields. *)
Definition readForm (f : partnerForm) : partnerFields :=
  mkPartnerFields
    (trimmed (f_partnerName f))
    (trimmed (f_partnerId f))
    (trimmed (f_onboardingStatus f))
    (or_null (trimmed (f_psm f)))
    (or_null (trimmed (f_integrationType f)))
    (or_null (trimmed (f_contactEmail f)))
    (default "" (or_null (trimmed (f_notes f)))).

(** The submit handler of the add form and of the edit form, given the
    answer to its [addDoc] or [updateDoc]: what became of the submission
    and how many writes were sent. *)
Definition submitForm (f : partnerForm) (answer : response unit)
  : submitted * nat :=
  let fields := readForm f in
  if negb (Js.truthy (w_name fields))
     || negb (Js.truthy (w_partnerId fields))
     || negb (Js.truthy (w_onboardingStatus fields))
  then (Incomplete, 0)
  else match answer with
       | Resolved _ => (Written fields, 1)
       | Rejected error => (NotWritten fields error, 1)
       end.

End Text.

End Roster.

(** ** pages/Documents.js, second revision: uploads, folders, deletion *)

Module Library.
Import Firestore.

(** The metadata document of an uploaded file. *)
Record docData := mkDocData {
  d_name : string;
  d_type : string;
  d_url : string;
  d_storagePath : string;
  d_folder : option string;
  d_isFavorite : bool;
  d_partnerId : option string
}.

(** The blob store and the [documents] collection. *)
Record cloud := mkCloud {
  blobs : gset string;
  documents : gmap string docData
}.

(** The [File] of the upload form. *)
Record file := mkFile {
  file_name : string;
  file_type : string
}.

Inductive uploaded :=
| NoFile
| Stored (id : string) (d : docData)
| UploadFailed (error : string).

Inductive deleted :=
| Unknown
| Kept
| Removed
| DeleteFailed (error : string).

Inductive folderCreated :=
| NameMissing
| AlreadyExists
| Created (name : string)
| CreateFailed (error : string).

(** [a || null] on a form value. *)
Definition or_null (o : option string) : option string :=
  if Js.truthy o then o else None.

(** The value a stored document has in a field that an equality filter
    can name. *)
Definition string_field (d : docData) (field : string) : option string :=
  if String.eqb field "partnerId" then d_partnerId d
  else if String.eqb field "folder" then d_folder d
  else if String.eqb field "name" then Some (d_name d)
  else if String.eqb field "type" then Some (d_type d)
  else if String.eqb field "url" then Some (d_url d)
  else if String.eqb field "storagePath" then Some (d_storagePath d)
  else None.

(** The backend returns the document for the query. *)
Definition sees (q : Query) (d : docData) : bool :=
  forallb (fun c => match c with
                    | where_eq f v => bool_decide (string_field d f = Some v)
                    | orderBy _ _ => true
                    end) (q_constraints q).

(** Lower-casing of the letters A to Z, which is all the [i] flag of the
    extension pattern does. *)
Definition lower_char (c : ascii) : ascii :=
  let n := nat_of_ascii c in
  if (65 <=? n)%nat && (n <=? 90)%nat then ascii_of_nat (n + 32) else c.

Fixpoint ascii_lower (s : string) : string :=
  match s with
  | EmptyString => EmptyString
  | String c r => String (lower_char c) (ascii_lower r)
  end.

Fixpoint ends_with (s suffix : string) : bool :=
  if String.eqb s suffix then true
  else match s with
       | EmptyString => false
       | String _ r => ends_with r suffix
       end.

Definition video_extensions : list string :=
  [".mp4"; ".avi"; ".mov"; ".wmv"; ".flv"; ".webm"].

(** [defaultFolders] of [renderFolders]. *)
Definition defaultFolders : list string := ["Presentations"; "Videos"].

(** The folder cards of [renderFolders]: none inside a folder; at the
    root one per name of [new Set([...defaultFolders, ...names])], with
    the number of documents whose [folder] is that name. *)
Definition folderCards (currentFolder : option string)
    (docs : list docData) (folders : list string) : list (string * nat) :=
  if Js.truthy currentFolder then []
  else (fun folderName =>
          (folderName,
           length (filter (fun d => d_folder d = Some folderName) docs)))
         <$> Roster.distinct (defaultFolders ++ folders).

(** The click handler of a delete button on the document [docId], among
    the documents [docs] that the page holds.  [confirmed] answers the
    confirmation; the two answers are the store's to [deleteObject] and
    the database's to [deleteDoc].  A rejected [deleteObject] is caught on
    the spot and only logged. *)
Definition deleteClicked (docs : gmap string docData) (docId : string)
    (confirmed : bool) (storageAnswer databaseAnswer : response unit)
    (c : cloud) : deleted * cloud :=
  match docs !! docId with
  | None => (Unknown, c)
  | Some docItem =>
      if negb confirmed then (Kept, c)
      else
        let blobs' :=
          if Js.nonempty (d_storagePath docItem) then
            match storageAnswer with
            | Resolved _ => blobs c ∖ {[ d_storagePath docItem ]}
            | Rejected _ => blobs c
            end
          else blobs c in
        match databaseAnswer with
        | Resolved _ => (Removed, mkCloud blobs' (delete docId (documents c)))
        | Rejected error => (DeleteFailed error, mkCloud blobs' (documents c))
        end
  end.

Section Text.

(** [String.prototype.toLowerCase] and [trim], the platform's. *)
Variable toLowerCase : string -> string.
Variable trim : string -> string.

(** [file.type.startsWith('video/') ||
    file.name.toLowerCase().match(/\.(mp4|avi|mov|wmv|flv|webm)$/i)]. *)
Definition isVideo (f : file) : bool :=
  bool_decide (is_Some (Main.strip_prefix "video/" (file_type f)))
  || existsb (ends_with (ascii_lower (toLowerCase (file_name f))))
             video_extensions.

(** The metadata object of the upload handler. *)
Definition docDataOf (userRole : string) (partnerId : option string)
    (f : file) (folder : option string) (downloadURL fullPath : string)
  : docData :=
  mkDocData (file_name f)
            (if isVideo f then "video" else "document")
            downloadURL fullPath
            (or_null folder)
            false
            (if String.eqb userRole "partner" then partnerId else None).

(** The submit handler of the upload form.  [now] is [Date.now()] as
    text, [newId] the id the database gives the new document; the three
    answers are those to [uploadBytes], [getDownloadURL] and [addDoc]. *)
Definition uploadSubmitted (userRole : string) (partnerId : option string)
    (f : option file) (folder : option string) (now newId : string)
    (uploadAnswer : response unit) (urlAnswer : response string)
    (addAnswer : response unit) (c : cloud) : uploaded * cloud :=
  match f with
  | None => (NoFile, c)
  | Some f =>
      if negb (Js.nonempty (file_name f)) then (NoFile, c)
      else
        let fullPath := "documents/" +:+ now +:+ "_" +:+ file_name f in
        match uploadAnswer with
        | Rejected error => (UploadFailed error, c)
        | Resolved _ =>
            let c1 := mkCloud ({[ fullPath ]} ∪ blobs c) (documents c) in
            match urlAnswer with
            | Rejected error => (UploadFailed error, c1)
            | Resolved downloadURL =>
                let d := docDataOf userRole partnerId f folder
                                   downloadURL fullPath in
                match addAnswer with
                | Rejected error => (UploadFailed error, c1)
                | Resolved _ =>
                    (Stored newId d,
                     mkCloud (blobs c1) (<[newId := d]> (documents c1)))
                end
            end
        end
  end.

(** The submit handler of the folder form on the folder names [store]
    that the database holds.  [existing] is the answer to the read of
    the folders, [addAnswer] the answer to [addDoc]. *)
Definition folderSubmitted (input : option string)
    (existing : response (list string)) (addAnswer : response unit)
    (store : list string) : folderCreated * list string :=
  match trim <$> input with
  | None => (NameMissing, store)
  | Some folderName =>
      if negb (Js.nonempty folderName) then (NameMissing, store)
      else match existing with
           | Rejected error => (CreateFailed error, store)
           | Resolved names =>
               if existsb (String.eqb folderName) names
               then (AlreadyExists, store)
               else match addAnswer with
                    | Resolved _ => (Created folderName, store ++ [folderName])
                    | Rejected error => (CreateFailed error, store)
                    end
           end
  end.

End Text.

End Library.

(** ** pages/Settings.js: an editing session *)

Module EditorSession.
Import Settings.

(** The operation is a click or a blur on an element that
    [renderStagesList] has rendered for the list, or the add button. *)
Definition on_rendered (stages : list slot) (op : operation) : Prop :=
  match op with
  | MoveUp index | MoveDown index | Delete index _ | Rename index _ =>
      exists it, it ∈ renderStagesList stages /\ data_index it = index
  | Add _ => True
  end.

Section Trim.
Variable trim : string -> string.

(** The lists an editing session can reach from the loaded one. *)
Inductive reaches (loaded : list slot) : list slot -> Prop :=
| reaches_loaded : reaches loaded loaded
| reaches_step stages op :
    reaches loaded stages -> on_rendered stages op ->
    reaches loaded (apply trim stages op).

(** The entry is a stage name that is not blank. *)
Definition proper (e : slot) : Prop :=
  exists s, e = Name s /\ s <> "" /\ trim s <> "".

End Trim.

End EditorSession.
(** ** What the operations send, log and show *)

(** The event handlers and renderers as far as the backend is concerned:
    which calls they send and in which order, what they write to the
    console, and which alert, message or page they show.  The data they
    move is in the modules above. *)
Module Effects.
Import Firestore.

(** The backend calls of the handlers, by SDK function and target. *)
Inductive request :=
| SignIn
| SignUp
| SignOut
| GetUser
| UpdateUser
| GetSettings
| SetSettings (merge : bool)
| AddPartner
| UpdatePartner
| UpdateChecklist
| GetDocuments
| GetFolders
| UploadBytes
| GetDownloadURL
| AddDocument
| AddFolder
| UpdateFavorite
| DeleteObject
| DeleteDocument.

(** What is assigned to [contentRoot.innerHTML]. *)
Inductive content :=
| LoadingSettings
| SettingsEditor
| SettingsError
| LoadingDocuments
| DocumentsLibrary.

(** [ConsoleError label error] is [console.error(label, error)] (with an
    empty label, [console.error(error)]), [ConsoleWarn] likewise;
    [Message text] is the text written into the message element of the
    form or page ([errorMessage.textContent], [showMessage],
    [showDisplayNameMessage]). *)
Inductive effect :=
| Sent (r : request)
| ConsoleError (label error : string)
| ConsoleWarn (label error : string)
| Alert (message : string)
| Message (text : string)
| Page (c : content).

(** The backend's answers to the calls of one run, in the order in which
    the calls are sent. *)
Definition answers : Type := nat -> response unit.

(** Handler code: it reads the answers and adds to the trace of its
    effects; a rejected promise is an exception at its [await]. *)
Definition H (A : Type) : Type :=
  answers -> list effect -> Pages.outcome A * list effect.

#[export] Instance H_ret : MRet H := fun A a _ t => (Pages.Returned a, t).

#[export] Instance H_bind : MBind H := fun A B k m o t =>
  match m o t with
  | (Pages.Returned a, t') => k a o t'
  | (Pages.Thrown e, t') => (Pages.Thrown e, t')
  end.

(** [try { m } catch (error) { handler error }] and
    [promise.catch(handler)]. *)
Definition try_catch {A} (m : H A) (handler : string -> H A) : H A :=
  fun o t =>
    match m o t with
    | (Pages.Returned a, t') => (Pages.Returned a, t')
    | (Pages.Thrown e, t') => handler e o t'
    end.

Definition throw {A} (error : string) : H A :=
  fun _ t => (Pages.Thrown error, t).

Definition emit (e : effect) : H unit :=
  fun _ t => (Pages.Returned tt, t ++ [e]).

(** An answer without its value. *)
Definition unit_answer {A} (r : response A) : response unit :=
  match r with
  | Resolved _ => Resolved tt
  | Rejected error => Rejected error
  end.

(** The calls of a trace. *)
Definition sent (t : list effect) : list request :=
  omap (fun e => match e with Sent r => Some r | _ => None end) t.

(** [await] of a backend call: the call is sent and answered. *)
Definition await (r : request) : H unit :=
  fun o t =>
    match o (length (sent t)) with
    | Resolved _ => (Pages.Returned tt, t ++ [Sent r])
    | Rejected e => (Pages.Thrown e, t ++ [Sent r])
    end.

(** The entries a trace writes with [console.error]. *)
Definition errors_logged (t : list effect) : list (string * string) :=
  omap (fun e => match e with
                 | ConsoleError label error => Some (label, error)
                 | _ => None
                 end) t.

(** A handler run from the start. *)
Definition execute {A} (h : H A) (o : answers) : Pages.outcome A * list effect :=
  h o [].

(** *** Vocabulary for the statements about failures *)

Definition is_resolved (r : response unit) : bool :=
  match r with
  | Resolved _ => true
  | Rejected _ => false
  end.

(** Nothing has been reported: no console entry, no alert, and no text
    in a message element (handlers clear it with the empty string). *)
Definition unreported (t : list effect) : Prop :=
  Forall (fun e => match e with
                   | Sent _ | Page _ => True
                   | Message text => text = ""
                   | ConsoleError _ _ | ConsoleWarn _ _ | Alert _ => False
                   end) t.

(** How [h] ends when the backend rejects one of its calls, as long as
    the first [k] calls are accepted: either every call it has sent was
    accepted, or it stops at the first rejected call, with nothing
    reported before, and ends as [ending] says for the backend's error:
    with that outcome and these effects, none of them a call. *)
Definition on_rejection_after (k : nat) (h : H unit)
    (ending : string -> Pages.outcome unit * list effect) : Prop :=
  forall o,
    (forall m, m < k -> is_resolved (o m) = true) ->
    (forall n, n < length (sent (execute h o).2) -> is_resolved (o n) = true)
    \/ exists n error pre,
         o n = Rejected error
         /\ (forall m, m < n -> is_resolved (o m) = true)
         /\ execute h o = ((ending error).1, pre ++ (ending error).2)
         /\ length (sent pre) = S n
         /\ unreported pre
         /\ sent (ending error).2 = [].

(** The handler catches the rejection, reports and returns. *)
Definition surfaces (h : H unit) (report : string -> list effect) : Prop :=
  on_rejection_after 0 h (fun error => (Pages.Returned tt, report error)).

(** The rejection leaves the operation: nothing is logged or shown. *)
Definition lets_through (h : H unit) : Prop :=
  on_rejection_after 0 h (fun error => (Pages.Thrown error, [])).

(** The backend accepts every call. *)
Definition accepted : answers := fun _ => Resolved tt.

(** The same answers, the first call accepted. *)
Definition accepting (o : answers) : answers :=
  fun n => match n with
           | 0 => Resolved tt
           | S _ => o n
           end.

(** A rejection of the first call, [r], is logged as a warning and
    otherwise ignored: the handler goes on as if the call had been
    accepted. *)
Definition swallows (h : H unit) (r : request) (label : string) : Prop :=
  forall o error,
    o 0 = Rejected error ->
    exists pre rest,
      sent pre = []
      /\ execute h (accepting o) = ((execute h o).1, pre ++ Sent r :: rest)
      /\ (execute h o).2 = pre ++ Sent r :: ConsoleWarn label error :: rest.

End Effects.

Module Handlers.
Import Firestore Effects.

(** Left out of the handlers below: button states, modals and form
    resets, timers, and the calls of page renderers that are not
    awaited (each renderer is an operation of its own). *)

(** *** main.js *)

(** The auth-state callback for a signed-in user: the read of the user
    document is awaited outside any [try]. *)
Definition authStateChanged : H unit := await GetUser.

(** The click handler of the logout button:
    [signOut(auth).then(reload).catch(console.error)]. *)
Definition logoutClick : H unit :=
  try_catch (await SignOut) (fun error => emit (ConsoleError "" error)).

(** *** pages/Login.js *)

Definition loginSubmit : H unit :=
  emit (Message "");;
  try_catch (await SignIn)
    (fun error =>
       emit (ConsoleError "Login Failed:" error);;
       emit (Message (Markup.loginFailed error))).

Definition signupClick : H unit :=
  emit (Message "");;
  try_catch
    (await SignUp;;
     emit (Alert "Account created! Please check the console for the UID to set the role in Firestore."))
    (fun error =>
       emit (ConsoleError "Sign Up Failed:" error);;
       emit (Message ("Sign up failed: " +:+ Markup.errorWords error))).

(** *** constants/onboardingStages.js, as its callers see it *)

(** What a call of [loadOnboardingStages] finds: the list is served from
    the cache or from the load in flight, or a new load starts, whose
    read returns a usable list or not. *)
Inductive found :=
| Served
| Fresh (usable : bool).

Definition loadOnboardingStages (f : found) : H unit :=
  match f with
  | Served => mret tt
  | Fresh usable =>
      try_catch
        (await GetSettings;;
         if usable then mret tt else await (SetSettings true))
        (fun error => emit (ConsoleError "Error loading onboarding stages:" error))
  end.

(** [valid]: the argument is a non-empty array. *)
Definition saveOnboardingStages (valid : bool) : H unit :=
  if valid then
    try_catch (await (SetSettings false))
      (fun error =>
         emit (ConsoleError "Error saving onboarding stages:" error);;
         throw error)
  else throw "Stages must be a non-empty array".

(** *** pages/Settings.js *)

(** [renderSettingsPage] on a content root that exists; [signedIn] is
    [auth.currentUser] being set. *)
Definition renderSettingsPage (signedIn : bool) (f : found) : H unit :=
  emit (Page LoadingSettings);;
  try_catch
    ((if signedIn then mret tt else throw "User is not authenticated");;
     try_catch (await GetUser)
       (fun userError =>
          emit (ConsoleWarn "Could not load user display name:" userError));;
     loadOnboardingStages f;;
     emit (Page SettingsEditor))
    (fun error =>
       emit (ConsoleError "Error loading settings:" error);;
       emit (Page SettingsError)).

(** The click handler of the save button of the display name; [named]:
    the trimmed input is not empty. *)
Definition saveDisplayNameClick (named : bool) : H unit :=
  if named then
    try_catch
      (await UpdateUser;;
       emit (Message "Display name saved successfully! Updating UI..."))
      (fun error =>
         emit (ConsoleError "Error saving display name:" error);;
         emit (Message "Error saving display name. Please try again."))
  else emit (Message "Display name cannot be empty.").

(** The click handler of the save button of the stage editor; [named]:
    every stage has a name, [proceed]: there is no duplicate or the user
    confirms their removal, [valid]: the list is not empty. *)
Definition saveStagesClick (named proceed valid : bool) : H unit :=
  if named then
    if proceed then
      try_catch
        (saveOnboardingStages valid;;
         emit (Message "Stages saved successfully!"))
        (fun error =>
           emit (ConsoleError "Error saving stages:" error);;
           emit (Message "Error saving stages. Please try again."))
    else mret tt
  else emit (Message "Please ensure all stages have names.").

(** The click handler of the reset button. *)
Definition resetStagesClick (confirmed : bool) : H unit :=
  if confirmed then
    try_catch
      (saveOnboardingStages true;;
       emit (Message "Stages reset to default!"))
      (fun error =>
         emit (ConsoleError "Error resetting stages:" error);;
         emit (Message "Error resetting stages. Please try again."))
  else mret tt.

(** *** pages/Partners.js *)

(** The submit handler of the add form; [complete]: the three required
    fields are filled in. *)
Definition addPartnerSubmit (complete : bool) : H unit :=
  if complete then
    try_catch (await AddPartner)
      (fun err =>
         emit (ConsoleError "Error adding partner:" err);;
         emit (Alert "Could not save partner. Please try again."))
  else emit (Alert "Please complete the required fields.").

(** The submit handler of the edit form. *)
Definition editPartnerSubmit (complete : bool) : H unit :=
  if complete then
    try_catch (await UpdatePartner)
      (fun error =>
         emit (ConsoleError "Error updating partner:" error);;
         emit (Alert "Could not update partner. Please try again."))
  else emit (Alert "Please complete the required fields.").

(** The change handler of a checkbox of the CS guide checklist. *)
Definition checklistChange : H unit :=
  try_catch (await UpdateChecklist)
    (fun error =>
       emit (ConsoleError "Error updating CS guide status:" error);;
       emit (Alert "Could not update status. Please try again.")).

(** *** pages/Documents.js, second revision *)

(** [renderPage(folderName)]: [loadDocuments], which sends a read only
    for a role that has a documents query ([queried]), then
    [loadFolders]; there is no [try] around them. *)
Definition renderPage (queried : bool) : H unit :=
  (if queried then await GetDocuments else mret tt);;
  await GetFolders;;
  emit (Page DocumentsLibrary).

(** [renderDocumentsPage]: the initial [await renderPage(null)]. *)
Definition renderDocumentsPage (queried : bool) : H unit :=
  emit (Page LoadingDocuments);;
  renderPage queried.

(** The submit handler of the upload form; [chosen]: a file with a name
    was selected. *)
Definition uploadSubmit (chosen queried : bool) : H unit :=
  if chosen then
    try_catch
      (await UploadBytes;;
       await GetDownloadURL;;
       await AddDocument;;
       renderPage queried)
      (fun error =>
         emit (ConsoleError "Error uploading file:" error);;
         emit (Alert "Failed to upload file. Please try again."))
  else emit (Alert "Please select a file.").

(** The submit handler of the folder form; [named]: the trimmed name is
    not empty, [folderExists]: the folders read holds the name. *)
Definition folderSubmit (named folderExists queried : bool) : H unit :=
  if named then
    try_catch
      (await GetFolders;;
       if folderExists then
         emit (Alert "A folder with this name already exists.")
       else
         await AddFolder;;
         renderPage queried)
      (fun error =>
         emit (ConsoleError "Error creating folder:" error);;
         emit (Alert "Failed to create folder. Please try again."))
  else emit (Alert "Please enter a folder name.").

(** The click handler of a favourite button; [known]: the page holds
    the document of the button. *)
Definition favoriteClick (known queried : bool) : H unit :=
  if known then
    try_catch
      (await UpdateFavorite;;
       renderPage queried)
      (fun error =>
         emit (ConsoleError "Error updating favorite:" error);;
         emit (Alert "Failed to update favorite status."))
  else mret tt.

(** The click handler of a delete button; [hasPath]: the document has a
    [storagePath]. *)
Definition deleteClick (known confirmed hasPath queried : bool) : H unit :=
  if known && confirmed then
    try_catch
      ((if hasPath then
          try_catch (await DeleteObject)
            (fun err =>
               emit (ConsoleWarn "Error deleting file from storage:" err))
        else mret tt);;
       await DeleteDocument;;
       renderPage queried)
      (fun error =>
         emit (ConsoleError "Error deleting document:" error);;
         emit (Alert "Failed to delete document."))
  else mret tt.

End Handlers.

(** * Properties *)

(** ** JavaScript values *)

Module JsFacts.
Import Js.

Lemma nonempty_true s : nonempty s = true <-> s <> "".
Proof.
  unfold nonempty. destruct (String.eqb_spec s ""); simpl; split; congruence.
Qed.

Lemma nonempty_false s : nonempty s = false <-> s = "".
Proof.
  unfold nonempty. destruct (String.eqb_spec s ""); simpl; split; congruence.
Qed.

Lemma nonempty_array_Some v l :
  nonempty_array v = Some l <-> v = VArr l /\ l <> [].
Proof.
  destruct v as [| |s|[|x r]|]; simpl; split;
    try (intros [? ?]); try congruence; try discriminate.
  intros [= <-]. split; [reflexivity | discriminate].
Qed.

Lemma nonempty_array_None v :
  nonempty_array v = None <-> ~ exists l, v = VArr l /\ l <> [].
Proof.
  split.
  - intros H [l Hl]. apply nonempty_array_Some in Hl. congruence.
  - intros H. destruct (nonempty_array v) as [l|] eqn:E; [|reflexivity].
    exfalso. apply H. exists l. by apply nonempty_array_Some.
Qed.

End JsFacts.

(** ** The route dispatcher *)

Module MainFacts.
Import Main.

Lemma strip_prefix_Some p s r :
  strip_prefix p s = Some r <-> s = p +:+ r.
Proof.
  revert s. induction p as [|a p IH]; intros s.
  - change ("" +:+ r) with r. simpl. split; congruence.
  - change (String a p +:+ r) with (String a (p +:+ r)). simpl.
    destruct s as [|b s]; [split; discriminate|].
    destruct (Ascii.eqb_spec a b) as [->|Hne].
    + rewrite IH. split; [intros ->; reflexivity | congruence].
    + split; [discriminate | congruence].
Qed.

(** The pattern matches exactly the paths [/partners/<id>] whose [<id>]
    is a non-empty segment without a slash, and captures [<id>]. *)
Lemma partnerDetailMatch_Some path id :
  partnerDetailMatch path = Some id <->
  path = "/partners/" +:+ id /\ id <> "" /\ no_slash id = true.
Proof.
  unfold partnerDetailMatch.
  destruct (strip_prefix "/partners/" path) as [r|] eqn:E.
  - apply strip_prefix_Some in E. subst path.
    assert ("/partners/" +:+ r = "/partners/" +:+ id <-> r = id) as ->
      by (split; [apply String.app_inj | congruence]).
    destruct (Js.nonempty r) eqn:Hr; simpl.
    + apply JsFacts.nonempty_true in Hr.
      destruct (no_slash r) eqn:Hs.
      * split; [intros [= <-]; done | intros (-> & _); done].
      * split; [discriminate | intros (<- & _ & ?); congruence].
    + apply JsFacts.nonempty_false in Hr.
      split; [discriminate | intros (<- & ? & _); congruence].
  - split; [discriminate|]. intros (-> & _ & _).
    assert (strip_prefix "/partners/" ("/partners/" +:+ id) = Some id) as H
      by (by apply strip_prefix_Some).
    congruence.
Qed.

Lemma normalizePath_other path :
  path <> "" -> path <> "/" -> path <> "/home" -> normalizePath path = path.
Proof.
  intros H1 H2 H3. unfold normalizePath.
  apply JsFacts.nonempty_true in H1. rewrite H1. simpl.
  apply String.eqb_neq in H2, H3. by rewrite H2, H3.
Qed.

(** C4, the claim as stated fails on the settings route: the dispatcher
    does not hand the path [/settings] to the Settings page renderer
    (its call is commented out); it writes a two-line placeholder into the
    content root itself. *)
Lemma renderRoute_settings_counterexample :
  renderRoute "/settings" "admin" None
    = InnerHTML "<h1>Account Settings</h1><p>Settings page for role: admin</p>"
  /\ renderRoute "/settings" "admin" None <> RenderSettingsPage "admin".
Proof. split; [reflexivity | discriminate]. Qed.

(** C4, as the code dispatches: [normalizePath] maps the empty path, [/]
    and [/home] to [/partners] and leaves every other path alone;
    [renderRoute] hands a path [/partners/<id>] ([<id>] non-empty, without
    slash) to the partner-detail renderer with that id; otherwise it
    switches on the normalized path: [/partners] (so also the empty path,
    [/] and [/home]) goes to the Partners renderer, [/documents] to the
    Documents renderer, [/templates] to the Templates renderer,
    [/settings] gets the inline account-settings placeholder, and every
    other path gets the 404 markup. *)
Theorem renderRoute_dispatch (path userRole : string) (partnerId : option string) :
  (normalizePath "" = "/partners" /\ normalizePath "/" = "/partners"
   /\ normalizePath "/home" = "/partners") /\
  (path <> "" -> path <> "/" -> path <> "/home" -> normalizePath path = path) /\
  (forall id, path = "/partners/" +:+ id -> id <> "" -> no_slash id = true ->
     renderRoute path userRole partnerId = RenderPartnerDetailPage id userRole) /\
  (In path [""; "/"; "/home"; "/partners"] ->
     renderRoute path userRole partnerId = RenderPartnersPage userRole partnerId) /\
  (path = "/documents" ->
     renderRoute path userRole partnerId = RenderDocumentsPage userRole partnerId) /\
  (path = "/templates" ->
     renderRoute path userRole partnerId = RenderTemplatesPage userRole partnerId) /\
  (path = "/settings" ->
     renderRoute path userRole partnerId = InnerHTML (settingsMarkup userRole)) /\
  ((forall id, id <> "" -> no_slash id = true -> path <> "/partners/" +:+ id) ->
   ~ In path [""; "/"; "/home"; "/partners"; "/documents"; "/templates"; "/settings"] ->
     renderRoute path userRole partnerId = InnerHTML notFoundMarkup).
Proof.
  split; [by repeat split|].
  split; [apply normalizePath_other|].
  split.
  { intros id Hp Hid Hs. unfold renderRoute.
    by rewrite (proj2 (partnerDetailMatch_Some path id)). }
  split.
  { simpl. intros [<-|[<-|[<-|[<-|[]]]]]; reflexivity. }
  split; [by intros ->|]. split; [by intros ->|]. split; [by intros ->|].
  intros Hd Hn.
  assert (partnerDetailMatch path = None) as Hm.
  { destruct (partnerDetailMatch path) as [id|] eqn:E; [|reflexivity].
    apply partnerDetailMatch_Some in E as (E & Hid & Hs).
    by destruct (Hd id Hid Hs). }
  unfold renderRoute. rewrite Hm.
  assert (forall s, In s [""; "/"; "/home"; "/partners"; "/documents";
                          "/templates"; "/settings"] -> path <> s) as Hne
    by (intros s Hs ->; exact (Hn Hs)).
  rewrite normalizePath_other by (apply Hne; simpl; tauto).
  assert (forall s, path <> s -> String.eqb path s = false) as Hneq
    by (intros s; apply String.eqb_neq).
  rewrite !Hneq by (apply Hne; simpl; tauto). reflexivity.
Qed.

Lemma renderRoute_dispatch_witness :
  renderRoute "/partners/acme-42" "partner" (Some "acme")
    = RenderPartnerDetailPage "acme-42" "partner"
  /\ renderRoute "/home" "admin" None = RenderPartnersPage "admin" None
  /\ renderRoute "/partners/acme/edit" "admin" None = InnerHTML notFoundMarkup.
Proof.
  split; [|split].
  - apply (renderRoute_dispatch "/partners/acme-42" "partner" (Some "acme")).
    + reflexivity.
    + discriminate.
    + reflexivity.
  - apply (renderRoute_dispatch "/home" "admin" None). simpl. tauto.
  - apply (renderRoute_dispatch "/partners/acme/edit" "admin" None).
    + intros id _ Hs E.
      change "/partners/acme/edit" with ("/partners/" +:+ "acme/edit") in E.
      apply String.app_inj in E. subst id. discriminate Hs.
    + simpl. intros H.
      repeat (destruct H as [H|H]; [discriminate H|]). exact H.
Defined.

End MainFacts.

(** ** Role-scoped queries *)

Module PagesFacts.
Import Firestore Pages.

Lemma role_query_staff q scoped userRole partnerId :
  staff userRole -> role_query q scoped userRole partnerId = Some q.
Proof. by intros [-> | ->]. Qed.

Lemma role_query_partner q scoped pid :
  role_query q scoped "partner" (Some pid)
  = if Js.nonempty pid then Some (scoped pid) else None.
Proof. reflexivity. Qed.

Ltac run_renderer :=
  repeat match goal with
    | |- context [answer_getDocs ?be ?q] =>
        destruct (answer_getDocs be q); simpl
    end.

(** What each renderer sends, by role. *)
Lemma reads_partners userRole partnerId be :
  reads (Partners.renderPartnersPage userRole partnerId) be
  = match Partners.partnersQuery userRole partnerId with
    | Some q => [GetDocs q]
    | None => []
    end.
Proof.
  unfold reads, Partners.renderPartnersPage.
  destruct (Partners.partnersQuery userRole partnerId) as [q|]; [|reflexivity].
  unfold mbind, M_bind, try_catch, getDocs, await; simpl. by run_renderer.
Qed.

Lemma reads_documents userRole partnerId be :
  reads (Documents.renderDocumentsPage userRole partnerId) be
  = match Documents.documentsQuery userRole partnerId with
    | Some q => [GetDocs q]
    | None => []
    end.
Proof.
  unfold reads, Documents.renderDocumentsPage.
  destruct (Documents.documentsQuery userRole partnerId) as [q|]; [|reflexivity].
  unfold mbind, M_bind, try_catch, getDocs, await; simpl. by run_renderer.
Qed.

Lemma reads_templates userRole partnerId be :
  reads (Templates.renderTemplatesPage userRole partnerId) be
  = match Templates.templatesQuery userRole partnerId with
    | Some q => [GetDocs q]
    | None => []
    end.
Proof.
  unfold reads, Templates.renderTemplatesPage.
  destruct (Templates.templatesQuery userRole partnerId) as [q|]; [|reflexivity].
  unfold mbind, M_bind, try_catch, getDocs, await; simpl. by run_renderer.
Qed.

(** The folder page sends its document query, if the role has one, and,
    unless that read fails, the unconstrained read of the folders. *)
Lemma reads_library userRole partnerId folderName be :
  reads (DocumentsLibrary.renderPage userRole partnerId folderName) be
  = match DocumentsLibrary.documentsQuery userRole partnerId folderName with
    | Some q =>
        match answer_getDocs be q with
        | Resolved _ => [GetDocs q; GetDocs DocumentsLibrary.foldersCol]
        | Rejected _ => [GetDocs q]
        end
    | None => [GetDocs DocumentsLibrary.foldersCol]
    end.
Proof.
  unfold reads, DocumentsLibrary.renderPage, DocumentsLibrary.loadDocuments,
    DocumentsLibrary.loadFolders.
  destruct (DocumentsLibrary.documentsQuery userRole partnerId folderName)
    as [q|]; unfold mbind, M_bind, mret, M_ret, getDocs, await; simpl.
  - destruct (answer_getDocs be q); simpl; [|reflexivity]. by run_renderer.
  - by run_renderer.
Qed.

Lemma reads_library_page userRole partnerId be :
  reads (DocumentsLibrary.renderDocumentsPage userRole partnerId) be
  = reads (DocumentsLibrary.renderPage userRole partnerId None) be.
Proof. reflexivity. Qed.

Lemma role_query_scoped staff_q scoped_q collection :
  q_collection staff_q = collection -> unfiltered staff_q = true ->
  (forall pid, q_collection (scoped_q pid) = collection
               /\ scoped_to pid (scoped_q pid)) ->
  role_scoped (role_query staff_q scoped_q) collection.
Proof.
  intros Hc Hu Hs userRole partnerId. repeat split.
  - intros H. exists staff_q. by rewrite role_query_staff.
  - subst. rewrite role_query_partner in H1.
    destruct (Js.nonempty pid); [|discriminate].
    injection H1 as <-. apply Hs.
  - subst. rewrite role_query_partner in H1.
    destruct (Js.nonempty pid); [|discriminate].
    injection H1 as <-. apply Hs.
  - intros pid -> -> Hp. rewrite role_query_partner.
    apply JsFacts.nonempty_true in Hp. rewrite Hp. eauto.
  - intros Hn Hp. unfold role_query.
    destruct (String.eqb_spec userRole "admin") as [->|_];
      [exfalso; apply Hn; by left|].
    destruct (String.eqb_spec userRole "transferz") as [->|_];
      [exfalso; apply Hn; by right|].
    simpl. destruct partnerId as [pid|]; [|reflexivity].
    destruct (String.eqb_spec userRole "partner") as [->|_]; [|reflexivity].
    simpl. destruct (Js.nonempty pid) eqn:E; [|reflexivity].
    exfalso. apply Hp. by split.
Qed.

Lemma partnersQuery_scoped : role_scoped Partners.partnersQuery "partners".
Proof.
  apply role_query_scoped; [reflexivity..|].
  intros pid. split; [reflexivity | by left].
Qed.

Lemma documentsQuery_scoped : role_scoped Documents.documentsQuery "documents".
Proof.
  apply role_query_scoped; [reflexivity..|].
  intros pid. split; [reflexivity | by left].
Qed.

Lemma templatesQuery_scoped : role_scoped Templates.templatesQuery "templates".
Proof.
  apply role_query_scoped; [reflexivity..|].
  intros pid. split; [reflexivity | by left].
Qed.

Lemma library_documentsQuery_scoped folderName :
  role_scoped (fun userRole partnerId =>
                 DocumentsLibrary.documentsQuery userRole partnerId folderName)
              "documents".
Proof.
  unfold DocumentsLibrary.documentsQuery.
  apply role_query_scoped.
  - destruct folderName as [f|]; [destruct (Js.nonempty f)|]; reflexivity.
  - destruct folderName as [f|]; [destruct (Js.nonempty f)|]; [|reflexivity..].
    unfold unfiltered. simpl. reflexivity.
  - intros pid.
    destruct folderName as [f|]; [destruct (Js.nonempty f)|];
      (split; [reflexivity | by left]).
Qed.


Lemma role_scoped_collection build collection userRole partnerId q :
  role_scoped build collection ->
  build userRole partnerId = Some q -> q_collection q = collection.
Proof.
  intros Hrole E.
  destruct (Hrole userRole partnerId) as (Hstaff & Hpartner & _ & Hnone).
  destruct (String.eqb_spec userRole "admin") as [->|Ha].
  { destruct Hstaff as (q' & Hq' & Hc & _); [by left|]. congruence. }
  destruct (String.eqb_spec userRole "transferz") as [->|Ht].
  { destruct Hstaff as (q' & Hq' & Hc & _); [by right|]. congruence. }
  destruct (String.eqb_spec userRole "partner") as [->|Hp].
  - destruct partnerId as [pid|].
    + by apply (Hpartner pid q).
    + rewrite Hnone in E; [discriminate| |].
      * intros [?|?]; discriminate.
      * intros [_ ?]; discriminate.
  - rewrite Hnone in E; [discriminate| |].
    + intros [?|?]; congruence.
    + intros [? _]; congruence.
Qed.

Lemma sends_scoped_single render build collection :
  (forall userRole partnerId be,
     reads (render userRole partnerId) be
     = match build userRole partnerId with
       | Some q => [GetDocs q]
       | None => []
       end) ->
  role_scoped build collection ->
  sends_scoped render collection [collection].
Proof.
  intros Hreads Hrole userRole partnerId be. rewrite Hreads.
  destruct (Hrole userRole partnerId) as (Hstaff & Hpartner & Hsome & _).
  pose proof (role_scoped_collection build collection userRole partnerId)
    as Hcol.
  destruct (build userRole partnerId) as [q0|] eqn:E.
  - split; [|split; [|split; [|split]]].
    + intros r [<-|[]]. exists q0. split; [reflexivity|]. left.
      symmetry. by apply Hcol.
    + intros q [[= <-]|[]] Hs.
      destruct (Hstaff Hs) as (q' & [= <-] & _ & Hu). exact Hu.
    + intros q pid [[= <-]|[]] Hr Hp _. by apply (Hpartner pid q0).
    + intros pid Hr Hp Hne. exists q0.
      split; [by left|]. by apply (Hpartner pid q0).
    + intros Hs. exists q0. split; [by left|]. by apply Hcol.
  - split; [|split; [|split; [|split]]].
    + intros r [].
    + intros q [].
    + intros q pid [].
    + intros pid Hr Hp Hne. destruct (Hsome pid Hr Hp Hne) as [q Hq].
      discriminate.
    + intros Hs. destruct (Hstaff Hs) as (q & Hq & _). discriminate.
Qed.

Lemma sends_scoped_library folderName :
  sends_scoped
    (fun userRole partnerId =>
       DocumentsLibrary.renderPage userRole partnerId folderName)
    "documents" ["documents"; "folders"].
Proof.
  intros userRole partnerId be. rewrite reads_library.
  pose proof (library_documentsQuery_scoped folderName) as Hrole.
  destruct (Hrole userRole partnerId) as (Hstaff & Hpartner & Hsome & _).
  pose proof (fun q => role_scoped_collection _ _ userRole partnerId q Hrole)
    as Hcol.
  simpl in *.
  destruct (DocumentsLibrary.documentsQuery userRole partnerId folderName)
    as [q0|] eqn:E.
  - assert (forall r,
              In r match answer_getDocs be q0 with
                   | Resolved _ =>
                       [GetDocs q0; GetDocs DocumentsLibrary.foldersCol]
                   | Rejected _ => [GetDocs q0]
                   end ->
              r = GetDocs q0 \/ r = GetDocs DocumentsLibrary.foldersCol) as Hin.
    { intros r Hr. destruct (answer_getDocs be q0); simpl in Hr;
        intuition congruence. }
    assert (In (GetDocs q0)
              match answer_getDocs be q0 with
              | Resolved _ => [GetDocs q0; GetDocs DocumentsLibrary.foldersCol]
              | Rejected _ => [GetDocs q0]
              end) as Hsent
      by (destruct (answer_getDocs be q0); by left).
    split; [|split; [|split; [|split]]].
    + intros r Hr. destruct (Hin r Hr) as [-> | ->].
      * exists q0. split; [reflexivity|]. left. symmetry. by apply Hcol.
      * exists DocumentsLibrary.foldersCol. split; [reflexivity|].
        right. by left.
    + intros q Hq Hs. destruct (Hin _ Hq) as [[= ->] | [= ->]].
      * destruct (Hstaff Hs) as (q' & [= <-] & _ & Hu). exact Hu.
      * reflexivity.
    + intros q pid Hq Hr Hp Hc. destruct (Hin _ Hq) as [[= ->] | [= ->]].
      * by apply (Hpartner pid q0).
      * discriminate Hc.
    + intros pid Hr Hp Hne. exists q0.
      split; [exact Hsent|]. by apply (Hpartner pid q0).
    + intros Hs. exists q0. split; [exact Hsent|]. by apply Hcol.
  - split; [|split; [|split; [|split]]].
    + intros r [<-|[]]. exists DocumentsLibrary.foldersCol.
      split; [reflexivity|]. right. by left.
    + intros q [[= <-]|[]] _. reflexivity.
    + intros q pid [[= <-]|[]] _ _ Hc. discriminate Hc.
    + intros pid Hr Hp Hne. destruct (Hsome pid Hr Hp Hne) as [q Hq].
      discriminate.
    + intros Hs. destruct (Hstaff Hs) as (q & Hq & _). discriminate.
Qed.

(** *** The rows a partner is shown *)

Lemma scoped_rows be q s pid row :
  honours_filters be -> answer_getDocs be q = Resolved s ->
  scoped_to pid q -> In row (rows_of s) ->
  row !! "partnerId" = Some (Js.VStr pid).
Proof.
  intros Hbe Hq Hscoped Hrow. unfold rows_of in Hrow.
  apply in_map_iff in Hrow as (d & <- & Hd).
  pose proof (Hbe q s Hq d Hd) as Hall.
  rewrite forallb_forall in Hall. specialize (Hall _ Hscoped). simpl in Hall.
  apply bool_decide_eq_true in Hall.
  unfold with_id. by apply lookup_union_Some_l.
Qed.

Lemma serving_honours store : honours_filters (serving store).
Proof.
  intros q s [= <-] d Hd. by apply filter_In in Hd as [_ Hd].
Qed.

Ltac run_scoped be :=
  rewrite role_query_partner;
  destruct (Js.nonempty _); [|intros []];
  unfold mbind, M_bind, mret, M_ret, try_catch, getDocs, await; simpl;
  match goal with
  | |- context [answer_getDocs be ?q] =>
      destruct (answer_getDocs be q) as [s|e] eqn:E; simpl; [|intros []];
      intros Hrow; apply (scoped_rows be q s); [done | done | by left |]
  end.

Lemma partners_shows_scoped : shows_scoped Partners.renderPartnersPage.
Proof.
  intros be pid row Hbe.
  unfold Partners.renderPartnersPage, Partners.partnersQuery.
  run_scoped be. exact Hrow.
Qed.

Lemma documents_shows_scoped : shows_scoped Documents.renderDocumentsPage.
Proof.
  intros be pid row Hbe.
  unfold Documents.renderDocumentsPage, Documents.documentsQuery.
  run_scoped be. exact Hrow.
Qed.

Lemma templates_shows_scoped : shows_scoped Templates.renderTemplatesPage.
Proof.
  intros be pid row Hbe.
  unfold Templates.renderTemplatesPage, Templates.templatesQuery.
  run_scoped be. exact Hrow.
Qed.

Lemma library_shows_scoped folderName :
  shows_scoped (fun userRole partnerId =>
                  DocumentsLibrary.renderPage userRole partnerId folderName).
Proof.
  intros be pid row Hbe.
  unfold DocumentsLibrary.renderPage, DocumentsLibrary.loadDocuments,
    DocumentsLibrary.loadFolders.
  pose proof (library_documentsQuery_scoped folderName "partner" (Some pid))
    as (_ & Hpartner & _). simpl in Hpartner.
  destruct (DocumentsLibrary.documentsQuery "partner" (Some pid) folderName)
    as [q|] eqn:Hq.
  - destruct (Hpartner pid q eq_refl eq_refl eq_refl) as [_ Hscoped].
    unfold mbind, M_bind, mret, M_ret, getDocs, await; simpl.
    destruct (answer_getDocs be q) as [s|e] eqn:E; simpl; [|intros []].
    destruct (answer_getDocs be DocumentsLibrary.foldersCol); simpl;
      [|intros []].
    intros Hrow. by apply (scoped_rows be q s).
  - unfold mbind, M_bind, mret, M_ret, getDocs, await; simpl.
    destruct (answer_getDocs be DocumentsLibrary.foldersCol); simpl;
      intros [].
Qed.

(** C1, the claim as stated fails on the folder page: rendering it for a
    partner with scope [acme] also reads the whole [folders] collection,
    a query without the [partnerId] filter, and the partner is shown a
    folder row that carries no [partnerId] at all. *)
Lemma partner_reads_all_folders_counterexample :
  let p := (DocumentsLibrary.renderDocumentsPage "partner" (Some "acme")
              (serving sample_store) blank).2 in
  issued p
  = [GetDocs (mkQuery "documents"
                [where_eq "partnerId" "acme"; orderBy "createdAt" "desc"]);
     GetDocs (mkQuery "folders" [])]
  /\ ~ scoped_to "acme" (mkQuery "folders" [])
  /\ exists documents folder,
       shown p = Library documents [folder]
       /\ folder !! "name" = Some (Js.VStr "Globex launch")
       /\ folder !! "partnerId" = None.
Proof.
  split; [reflexivity|]. split; [intros []|].
  eexists _, _. split; [reflexivity|]. split; reflexivity.
Qed.

(** C1, as the code builds its queries.  For [renderPartnersPage], both
    revisions of [renderDocumentsPage] and [renderTemplatesPage]: every
    read is a query; for admin and transferz no query carries a
    [partnerId] filter; for a partner with a non-null [partnerId] every
    query on the renderer's own collection (partners, documents,
    templates) carries [where("partnerId", "==", partnerId)], and such a
    query is sent whenever the id is not empty; so, on a backend that
    honours filters, the rows of that collection shown to the partner all
    have the partner's [partnerId].  The folder revision of the documents
    page reads, besides that, the [folders] collection without any
    constraint for every role. *)
Theorem role_scoped_query_construction (folderName : option string) :
  (sends_scoped Partners.renderPartnersPage "partners" ["partners"]
   /\ shows_scoped Partners.renderPartnersPage) /\
  (sends_scoped Documents.renderDocumentsPage "documents" ["documents"]
   /\ shows_scoped Documents.renderDocumentsPage) /\
  (sends_scoped Templates.renderTemplatesPage "templates" ["templates"]
   /\ shows_scoped Templates.renderTemplatesPage) /\
  (sends_scoped
     (fun userRole partnerId =>
        DocumentsLibrary.renderPage userRole partnerId folderName)
     "documents" ["documents"; "folders"]
   /\ shows_scoped
        (fun userRole partnerId =>
           DocumentsLibrary.renderPage userRole partnerId folderName)) /\
  (forall userRole partnerId be q,
     In (GetDocs q)
        (reads (DocumentsLibrary.renderPage userRole partnerId folderName) be) ->
     q_collection q = "folders" -> q_constraints q = []).
Proof.
  split; [|split; [|split; [|split]]].
  - split; [|apply partners_shows_scoped].
    apply (sends_scoped_single _ Partners.partnersQuery);
      [apply reads_partners | apply partnersQuery_scoped].
  - split; [|apply documents_shows_scoped].
    apply (sends_scoped_single _ Documents.documentsQuery);
      [apply reads_documents | apply documentsQuery_scoped].
  - split; [|apply templates_shows_scoped].
    apply (sends_scoped_single _ Templates.templatesQuery);
      [apply reads_templates | apply templatesQuery_scoped].
  - split; [apply sends_scoped_library | apply library_shows_scoped].
  - intros userRole partnerId be q Hq Hc.
    rewrite reads_library in Hq.
    pose proof (fun q0 => role_scoped_collection _ _ userRole partnerId q0
                  (library_documentsQuery_scoped folderName)) as Hcol.
    simpl in Hcol.
    destruct (DocumentsLibrary.documentsQuery userRole partnerId folderName)
      as [dq|] eqn:E.
    + specialize (Hcol dq eq_refl).
      destruct (answer_getDocs be dq); simpl in Hq.
      * destruct Hq as [[= ->]|[[= <-]|[]]]; [congruence | reflexivity].
      * destruct Hq as [[= ->]|[]]. congruence.
    + destruct Hq as [[= <-]|[]]. reflexivity.
Qed.

(** A partner's folder query is scoped, an admin's partner query is not
    filtered, and of the two sample documents partner [acme] is shown
    its own. *)
Lemma role_scoped_query_construction_witness :
  scoped_to "acme"
    (mkQuery "documents"
       [where_eq "partnerId" "acme"; where_eq "folder" "Videos";
        orderBy "createdAt" "desc"])
  /\ unfiltered (mkQuery "partners" []) = true
  /\ (with_id "d1" {[ "name" := Js.VStr "guide.pdf";
                      "partnerId" := Js.VStr "acme" ]} : document)
       !! "partnerId" = Some (Js.VStr "acme").
Proof.
  destruct (role_scoped_query_construction (Some "Videos"))
    as (_ & _ & _ & [Hlibrary _] & _).
  destruct (role_scoped_query_construction None)
    as ([Hpartners _] & [_ Hdocuments] & _).
  split; [|split].
  - destruct (Hlibrary "partner" (Some "acme") empty_backend)
      as (_ & _ & Hscoped & _).
    apply Hscoped; [left|..]; reflexivity.
  - destruct (Hpartners "admin" None empty_backend) as (_ & Hstaff & _).
    apply Hstaff; left; reflexivity.
  - apply (Hdocuments (serving sample_store) "acme").
    + apply serving_honours.
    + left. reflexivity.
Defined.

End PagesFacts.

(** ** The cached stage list *)

Module OnboardingStagesFacts.
Import Firestore OnboardingStages.

(** *** Request coalescing *)

Lemma coalesced_initial : coalesced initial.
Proof. by left. Qed.

Lemma finish_coalesced p v w ph :
  suspended w = {[p := ph]} -> coalesced (finish p v w).
Proof.
  intros Hs. left. simpl. rewrite Hs. split; [apply delete_singleton_eq | done].
Qed.

Lemma load_coalesced w :
  coalesced w -> coalesced (loadOnboardingStages w).2.
Proof.
  intros Hw. unfold loadOnboardingStages.
  destruct (cachedStages w) as [stages|] eqn:Hc; [exact Hw|].
  destruct (stagesPromise w) as [p|] eqn:Hp; [exact Hw|].
  destruct Hw as [[Hs _] | (p & ph & _ & Hp' & _)]; [|congruence].
  right. exists (next_promise w), AwaitingGetDoc. simpl.
  rewrite Hs, insert_empty. done.
Qed.

Lemma getDoc_settled_coalesced p answer w :
  coalesced w -> coalesced (getDoc_settled p answer w).
Proof.
  intros Hw. unfold getDoc_settled.
  destruct (suspended w !! p) as [[|]|] eqn:Hl; try exact Hw.
  destruct Hw as [[Hs _] | (p' & ph & Hs & Hp & Hc)].
  { rewrite Hs, lookup_empty in Hl. discriminate. }
  rewrite Hs in Hl. apply lookup_singleton_Some in Hl as [-> ->].
  destruct answer as [snap|error].
  - destruct (usable_stages snap) as [stages|].
    + by apply (finish_coalesced _ _ _ AwaitingGetDoc).
    + right. exists p, AwaitingSetDoc. simpl.
      rewrite Hs, insert_singleton_eq. done.
  - by apply (finish_coalesced _ _ _ AwaitingGetDoc).
Qed.

Lemma setDoc_settled_coalesced p answer w :
  coalesced w -> coalesced (setDoc_settled p answer w).
Proof.
  intros Hw. unfold setDoc_settled.
  destruct (suspended w !! p) as [[|]|] eqn:Hl; try exact Hw.
  destruct Hw as [[Hs _] | (p' & ph & Hs & Hp & Hc)].
  { rewrite Hs, lookup_empty in Hl. discriminate. }
  rewrite Hs in Hl. apply lookup_singleton_Some in Hl as [-> ->].
  destruct answer as [u|error];
    by apply (finish_coalesced _ _ _ AwaitingSetDoc).
Qed.

Lemma step_coalesced w e : coalesced w -> coalesced (step w e).
Proof.
  destruct e; simpl;
    [apply load_coalesced | apply getDoc_settled_coalesced
    | apply setDoc_settled_coalesced].
Qed.

Lemma run_coalesced es w : coalesced w -> coalesced (run es w).
Proof.
  revert w. induction es as [|e es IH]; intros w Hw; [exact Hw|].
  apply IH, step_coalesced, Hw.
Qed.

Lemma coalesced_in_flight w : coalesced w -> fetches_in_flight w <= 1.
Proof.
  unfold fetches_in_flight. intros [[-> _] | (p & ph & -> & _)].
  - rewrite map_filter_empty, map_size_empty. lia.
  - etrans; [apply map_subseteq_size, map_filter_subseteq|].
    by rewrite map_size_singleton.
Qed.

(** C3.  A call of [loadOnboardingStages] with the cache set returns the
    cached array and leaves everything as it was, so no read is sent; a
    call while [stagesPromise] is set returns that promise and sends no
    read either; only a call with neither sends one [getDoc] and records
    its promise.  Over every sequence of loads and backend answers from
    the module's initial state at most one fetch of the stages document
    is in flight. *)
Theorem load_coalescing :
  (forall w stages,
     cachedStages w = Some stages ->
     loadOnboardingStages w = (Cached stages, w)) /\
  (forall w p,
     cachedStages w = None -> stagesPromise w = Some p ->
     loadOnboardingStages w = (Following p, w)) /\
  (forall w,
     cachedStages w = None -> stagesPromise w = None ->
     exists w', loadOnboardingStages w = (Following (next_promise w), w')
                /\ calls w' = calls w ++ [CallGetDoc]
                /\ stagesPromise w' = Some (next_promise w)
                /\ suspended w' !! next_promise w = Some AwaitingGetDoc) /\
  (forall es, fetches_in_flight (run es initial) <= 1).
Proof.
  repeat split.
  - intros w stages Hc. unfold loadOnboardingStages. by rewrite Hc.
  - intros w p Hc Hp. unfold loadOnboardingStages. by rewrite Hc, Hp.
  - intros w Hc Hp. unfold loadOnboardingStages. rewrite Hc, Hp.
    eexists. split; [reflexivity|]. simpl.
    by rewrite lookup_insert_eq.
  - intros es. apply coalesced_in_flight, run_coalesced, coalesced_initial.
Qed.

(** Two loads in the same turn, the answer, then a third load: one read. *)
Lemma load_coalescing_witness :
  let w1 := (loadOnboardingStages initial).2 in
  loadOnboardingStages w1 = (Following 0, w1)
  /\ calls (run [Load; Load;
                 GetDocSettled 0 (Resolved (Some (stages_data ["Kickoff"])));
                 Load] initial) = [CallGetDoc]
  /\ loadOnboardingStages
       (run [Load; GetDocSettled 0 (Resolved (Some (stages_data ["Kickoff"])))]
            initial)
     = (Cached ["Kickoff"],
        run [Load; GetDocSettled 0 (Resolved (Some (stages_data ["Kickoff"])))]
            initial).
Proof.
  split; [|split].
  - apply (proj1 (proj2 load_coalescing)); reflexivity.
  - reflexivity.
  - apply (proj1 load_coalescing). reflexivity.
Defined.


(** Coalescing is a property of loads alone: clearing the cache while a
    load is running forgets its promise, and the next load sends a second
    read while the first is still unanswered. *)
Remark clear_during_load_starts_second_fetch :
  let w := snd (loadOnboardingStages
                  (clearStagesCache (snd (loadOnboardingStages initial)))) in
  calls w = [CallGetDoc; CallGetDoc] /\ fetches_in_flight w = 2.
Proof. split; [reflexivity | by vm_compute]. Qed.

(** *** Saving *)

Lemma save_rejected_input stages answer w :
  Js.nonempty_array stages = None ->
  saveOnboardingStages stages answer w
  = (Threw "Stages must be a non-empty array", w).
Proof. intros H. unfold saveOnboardingStages. by rewrite H. Qed.

Lemma save_resolved l u w :
  l <> [] ->
  saveOnboardingStages (Js.VArr l) (Resolved u) w
  = (Done,
     mkWorld (Some l) (stagesPromise w) (suspended w) (fulfilled w)
             (next_promise w) (calls w ++ [CallSetDoc (stages_data l) false])
             (console w) (Some (stages_data l))).
Proof. destruct l; [done | reflexivity]. Qed.

Lemma save_rejected l error w :
  l <> [] ->
  saveOnboardingStages (Js.VArr l) (Rejected error) w
  = (Threw error,
     mkWorld (cachedStages w) (stagesPromise w) (suspended w) (fulfilled w)
             (next_promise w) (calls w ++ [CallSetDoc (stages_data l) false])
             (console w ++ [("Error saving onboarding stages:", error)])
             (settingsDoc w)).
Proof. destruct l; [done | reflexivity]. Qed.

(** C9.  [saveOnboardingStages] on a non-empty array sends one [setDoc];
    when the backend accepts it the cache holds the saved array and the
    stored document is the saved one; when the backend rejects it the
    error is thrown on to the caller after being logged, and the cache
    (like the stored document) is what it was before the call. *)
Theorem save_caches_after_write (l : list string) (w : world) :
  l <> [] ->
  (forall u, exists w',
     saveOnboardingStages (Js.VArr l) (Resolved u) w = (Done, w')
     /\ cachedStages w' = Some l
     /\ settingsDoc w' = Some (stages_data l)
     /\ calls w' = calls w ++ [CallSetDoc (stages_data l) false]) /\
  (forall error, exists w',
     saveOnboardingStages (Js.VArr l) (Rejected error) w = (Threw error, w')
     /\ cachedStages w' = cachedStages w
     /\ settingsDoc w' = settingsDoc w
     /\ calls w' = calls w ++ [CallSetDoc (stages_data l) false]
     /\ console w' = console w ++ [("Error saving onboarding stages:", error)]).
Proof.
  intros Hl. split.
  - intros u. rewrite save_resolved by done. eexists. by repeat split.
  - intros error. rewrite save_rejected by done. eexists. by repeat split.
Qed.

Lemma save_caches_after_write_witness :
  let w := set_cachedStages (Some ["Intake"; "Complete"]) initial in
  (exists w',
     saveOnboardingStages (Js.VArr ["Kickoff"]) (Rejected "unavailable") w
     = (Threw "unavailable", w')
     /\ cachedStages w' = Some ["Intake"; "Complete"])
  /\ (exists w',
        saveOnboardingStages (Js.VArr ["Kickoff"]) (Resolved tt) w = (Done, w')
        /\ cachedStages w' = Some ["Kickoff"]).
Proof.
  intros w.
  destruct (save_caches_after_write ["Kickoff"] w ltac:(discriminate))
    as [Hok Hfail].
  split.
  - destruct (Hfail "unavailable") as (w' & E & Hc & _).
    exists w'. split; [exact E | exact Hc].
  - destruct (Hok tt) as (w' & E & Hc & _).
    exists w'. split; [exact E | exact Hc].
Defined.

(** *** The next stage *)

Lemma indexOf_ge x l : (-1 <= indexOf x l)%Z.
Proof.
  induction l as [|y r IH]; simpl; [lia|].
  destruct (String.eqb y x); [lia|].
  destruct (Z.eqb_spec (indexOf x r) (-1)); lia.
Qed.

Lemma indexOf_absent x l : indexOf x l = (-1)%Z <-> ~ In x l.
Proof.
  induction l as [|y r IH]; simpl; [tauto|].
  destruct (String.eqb_spec y x) as [->|Hne].
  - split; [discriminate | tauto].
  - pose proof (indexOf_ge x r).
    destruct (Z.eqb_spec (indexOf x r) (-1)) as [E|E].
    + split; [|done]. intros _ [?|?]; [done|]. by apply IH.
    + split; [lia|]. intros Hn. exfalso. apply E, IH. tauto.
Qed.

Lemma indexOf_first x l pre post :
  first_occurrence x l pre post -> indexOf x l = Z.of_nat (length pre).
Proof.
  intros [-> Hpre]. induction pre as [|y pre IH]; simpl.
  - by rewrite String.eqb_refl.
  - destruct (String.eqb_spec y x) as [->|Hne]; [exfalso; apply Hpre; by left|].
    rewrite IH by (intros ?; apply Hpre; by right).
    destruct (Z.eqb_spec (Z.of_nat (length pre)) (-1)); lia.
Qed.

Lemma first_occurrence_exists x l :
  In x l -> exists pre post, first_occurrence x l pre post.
Proof.
  induction l as [|y r IH]; [intros []|]. intros Hin.
  destruct (String.eqb_spec y x) as [->|Hne].
  - exists [], r. split; [reflexivity | intros []].
  - destruct IH as (pre & post & -> & Hpre); [by destruct Hin|].
    exists (y :: pre), post. split; [reflexivity|].
    intros [?|?]; [done | by apply Hpre].
Qed.

Lemma first_occurrence_unique x l pre post pre' post' :
  first_occurrence x l pre post -> first_occurrence x l pre' post' ->
  pre = pre' /\ post = post'.
Proof.
  intros [-> Hpre] [E Hpre']. revert pre' E Hpre'.
  induction pre as [|y pre IH]; intros [|y' pre'] E Hpre'; simpl in E.
  - injection E as <-. done.
  - injection E as <- _. exfalso. apply Hpre'. by left.
  - injection E as -> _. exfalso. apply Hpre. by left.
  - injection E as <- E.
    destruct (IH (fun H => Hpre (or_intror H)) pre' E
                 (fun H => Hpre' (or_intror H))) as [-> ->]. done.
Qed.

Lemma getNextStage_found w cur stages pre post :
  cur <> "" ->
  first_occurrence cur (stagesToUse w stages) pre post ->
  getNextStage w (Some cur) stages = head post.
Proof.
  intros Hcur Hfirst. unfold getNextStage.
  apply JsFacts.nonempty_true in Hcur. rewrite Hcur. simpl.
  rewrite (indexOf_first _ _ _ _ Hfirst).
  destruct Hfirst as [-> _].
  destruct (Z.eqb_spec (Z.of_nat (length pre)) (-1)); [lia|].
  rewrite length_app. simpl.
  destruct post as [|y post]; simpl.
  - destruct (Z.geb_spec (Z.of_nat (length pre))
                (Z.of_nat (length pre + 1) - 1)); [done | lia].
  - destruct (Z.geb_spec (Z.of_nat (length pre))
                (Z.of_nat (length pre + S (S (length post))) - 1)); [lia|].
    replace (Z.to_nat (Z.of_nat (length pre) + 1)) with (length pre + 1) by lia.
    rewrite lookup_app_r by lia.
    by replace (length pre + 1 - length pre) with 1 by lia.
Qed.

Lemma getNextStage_absent w cur stages :
  ~ In cur (stagesToUse w stages) ->
  getNextStage w (Some cur) stages = first_or_null (stagesToUse w stages).
Proof.
  intros Hin. unfold getNextStage.
  destruct (Js.nonempty cur); simpl; [|reflexivity].
  apply indexOf_absent in Hin. by rewrite Hin.
Qed.

Lemma first_or_null_None l :
  first_or_null l = None <-> l = [] \/ head l = Some "".
Proof.
  destruct l as [|x l]; simpl; [tauto|].
  destruct (Js.nonempty x) eqn:E.
  - apply JsFacts.nonempty_true in E. split; [discriminate|].
    intros [?|[= ?]]; done.
  - apply JsFacts.nonempty_false in E. subst. tauto.
Qed.

(** C10, the claim as stated fails when the list starts with an empty
    name: [Testing] does not occur in the list, the list is not empty,
    and yet the result is [null], not the first element. *)
Lemma getNextStage_empty_first_counterexample :
  getNextStage initial (Some "Testing") (Some [""; "Intake"]) = None
  /\ head [""; "Intake"] = Some ""
  /\ ~ In "Testing" [""; "Intake"].
Proof.
  split; [reflexivity|]. split; [reflexivity|].
  intros [H|[H|[]]]; discriminate H.
Qed.

(** C10, as the code computes it, on the list in effect (the argument,
    else the cache, else the defaults).  When [currentStage] is falsy or
    does not occur in the list, the result is the first element, or [null]
    when the list is empty or its first element is the empty string.
    Otherwise the result is the element right after the first occurrence
    of [currentStage], or [null] when that occurrence is the last element.
    So the result is [null] exactly in these cases: the first occurrence
    is last; or [currentStage] is falsy or absent and the list is empty or
    starts with the empty string. *)
Theorem getNextStage_spec (w : world) (currentStage : option string)
    (stages : option (list string)) :
  let l := stagesToUse w stages in
  let falsy_or_absent :=
    currentStage = None \/ currentStage = Some ""
    \/ exists cur, currentStage = Some cur /\ ~ In cur l in
  (falsy_or_absent ->
     getNextStage w currentStage stages
     = match l with
       | x :: _ => if decide (x = "") then None else Some x
       | [] => None
       end) /\
  (forall cur pre post,
     currentStage = Some cur -> cur <> "" -> first_occurrence cur l pre post ->
     getNextStage w currentStage stages = head post) /\
  (getNextStage w currentStage stages = None <->
     (exists cur pre, currentStage = Some cur /\ cur <> ""
                      /\ first_occurrence cur l pre [])
     \/ (falsy_or_absent /\ (l = [] \/ head l = Some ""))).
Proof.
  intros l falsy_or_absent.
  assert (falsy_or_absent ->
          getNextStage w currentStage stages = first_or_null l) as Hfalsy.
  { intros [-> | [-> | (cur & -> & Hin)]]; [reflexivity..|].
    by apply getNextStage_absent. }
  assert (first_or_null l
          = match l with
            | x :: _ => if decide (x = "") then None else Some x
            | [] => None
            end) as Hfirst.
  { destruct l as [|x r]; [reflexivity|]. simpl.
    destruct (decide (x = "")) as [->|Hx]; [reflexivity|].
    apply JsFacts.nonempty_true in Hx. by rewrite Hx. }
  split; [|split].
  - intros H. by rewrite Hfalsy, Hfirst.
  - intros cur pre post -> Hcur Hocc. by apply (getNextStage_found _ _ _ pre).
  - split.
    + intros Hnull.
      destruct currentStage as [cur|];
        [|right; split; [by left|];
          apply first_or_null_None; rewrite <- Hfalsy; [done | by left]].
      destruct (decide (cur = "")) as [->|Hcur].
      { right. split; [right; by left|].
        apply first_or_null_None. rewrite <- Hfalsy; [done | right; by left]. }
      destruct (in_dec string_dec cur l) as [Hin|Hin].
      * left. destruct (first_occurrence_exists _ _ Hin) as (pre & post & Hocc).
        exists cur, pre. split; [done|]. split; [done|].
        rewrite (getNextStage_found _ _ _ pre post Hcur Hocc) in Hnull.
        destruct post; [exact Hocc | discriminate].
      * right. assert falsy_or_absent as Hf by (right; right; eauto).
        split; [exact Hf|].
        apply first_or_null_None. by rewrite <- Hfalsy.
    + intros [(cur & pre & -> & Hcur & Hocc) | [Hf Hl]].
      * by rewrite (getNextStage_found _ _ _ pre [] Hcur Hocc).
      * rewrite Hfalsy by done. by apply first_or_null_None.
Qed.

Lemma getNextStage_spec_witness :
  getNextStage initial (Some "Testing") None = Some "Integration"
  /\ getNextStage initial (Some "Complete") None = None
  /\ getNextStage initial (Some "Paused") (Some ["Intake"; "Testing"])
     = Some "Intake".
Proof.
  split; [|split].
  - apply (proj1 (proj2 (getNextStage_spec initial (Some "Testing") None))
             "Testing" ["Intake"] ["Integration"; "Go Live"; "Complete"]).
    + reflexivity.
    + discriminate.
    + split; [reflexivity|]. intros [H|[]]. discriminate H.
  - apply (proj1 (proj2 (getNextStage_spec initial (Some "Complete") None))
             "Complete" ["Intake"; "Testing"; "Integration"; "Go Live"] []).
    + reflexivity.
    + discriminate.
    + split; [reflexivity|].
      intros H. repeat (destruct H as [H|H]; [discriminate H|]). exact H.
  - apply (proj1 (getNextStage_spec initial (Some "Paused")
                    (Some ["Intake"; "Testing"]))).
    right. right. exists "Paused". split; [reflexivity|].
    intros H. repeat (destruct H as [H|H]; [discriminate H|]). exact H.
Defined.

End OnboardingStagesFacts.

(** ** The stage editor *)

Module SettingsFacts.
Import Firestore OnboardingStages Settings.

(** *** Arrays of names *)

Lemma aget_names (l : list string) i :
  aget i (Name <$> l) = from_option Name Undefined (l !! i).
Proof.
  unfold aget. rewrite list_lookup_fmap. by destruct (l !! i).
Qed.

Lemma aset_names (l : list string) i s :
  i < length l -> aset i (Name s) (Name <$> l) = Name <$> <[i := s]> l.
Proof.
  intros Hi. unfold aset. rewrite length_fmap.
  destruct (decide (i < length l)); [|lia]. by rewrite list_fmap_insert.
Qed.

(** Past the end a write grows the array: the handlers are only safe
    because every index comes from a rendered button. *)
Example moveUp_past_the_end :
  moveUp 3 [Name "Intake"; Name "Testing"]
  = [Name "Intake"; Name "Testing"; Undefined; Undefined].
Proof. reflexivity. Qed.

Example rename_past_the_end :
  blurInput ascii_trim 3 " Review " [Name "Intake"]
  = [Name "Intake"; Hole; Hole; Name "Review"].
Proof. reflexivity. Qed.

Lemma aset_length i v a : length a <= length (aset i v a).
Proof.
  unfold aset. destruct (decide (i < length a)).
  - by rewrite length_insert.
  - rewrite length_app. lia.
Qed.

Lemma insert_adjacent {A} (pre post : list A) x y a b :
  <[length pre := b]> (<[S (length pre) := a]> (pre ++ x :: y :: post))
  = pre ++ b :: a :: post.
Proof. induction pre as [|z pre IH]; simpl; [done | by rewrite IH]. Qed.

Lemma insert_adjacent' {A} (pre post : list A) x y a b :
  <[S (length pre) := a]> (<[length pre := b]> (pre ++ x :: y :: post))
  = pre ++ b :: a :: post.
Proof. induction pre as [|z pre IH]; simpl; [done | by rewrite IH]. Qed.

Lemma split_adjacent {A} (l : list A) i :
  S i < length l ->
  exists pre x y post, l = pre ++ x :: y :: post /\ length pre = i.
Proof.
  revert i. induction l as [|z l IH]; intros i Hi; simpl in Hi; [lia|].
  destruct i as [|i].
  - destruct l as [|y l]; simpl in Hi; [lia|]. by exists [], z, y, l.
  - destruct (IH i) as (pre & x & y & post & -> & <-); [lia|].
    by exists (z :: pre), x, y, post.
Qed.

Lemma lookup_adjacent {A} (pre post : list A) x y :
  (pre ++ x :: y :: post) !! length pre = Some x
  /\ (pre ++ x :: y :: post) !! S (length pre) = Some y.
Proof. induction pre as [|z pre IH]; simpl; [done | exact IH]. Qed.

(** Moving up at the position after [pre] exchanges the two neighbours. *)
Lemma moveUp_adjacent (pre post : list string) x y :
  moveUp (S (length pre)) (Name <$> (pre ++ x :: y :: post))
  = Name <$> (pre ++ y :: x :: post).
Proof.
  destruct (lookup_adjacent pre post x y) as [Hx Hy].
  unfold moveUp. simpl. rewrite Nat.sub_0_r, !aget_names, Hx, Hy. simpl.
  rewrite aset_names by (rewrite length_app; simpl; lia).
  rewrite aset_names by (rewrite length_insert, length_app; simpl; lia).
  by rewrite insert_adjacent.
Qed.

Lemma moveDown_adjacent (pre post : list string) x y :
  moveDown (length pre) (Name <$> (pre ++ x :: y :: post))
  = Name <$> (pre ++ y :: x :: post).
Proof.
  destruct (lookup_adjacent pre post x y) as [Hx Hy].
  unfold moveDown. rewrite length_fmap, length_app. simpl.
  destruct (Nat.ltb_spec (length pre) (length pre + S (S (length post)) - 1));
    [|lia].
  replace (length pre + 1) with (S (length pre)) by lia.
  rewrite !aget_names, Hx, Hy. simpl.
  rewrite aset_names by (rewrite length_app; simpl; lia).
  rewrite aset_names by (rewrite length_insert, length_app; simpl; lia).
  by rewrite insert_adjacent'.
Qed.

(** What exchanging two neighbours means for the positions. *)
Lemma exchanged_positions {A} (pre post : list A) x y :
  let l := pre ++ x :: y :: post in
  let l' := pre ++ y :: x :: post in
  l' !! length pre = l !! S (length pre)
  /\ l' !! S (length pre) = l !! length pre
  /\ (forall j, j <> length pre -> j <> S (length pre) -> l' !! j = l !! j)
  /\ length l' = length l
  /\ l' ≡ₚ l.
Proof.
  simpl.
  destruct (lookup_adjacent pre post x y) as [Hx Hy].
  destruct (lookup_adjacent pre post y x) as [Hy' Hx'].
  split; [congruence|]. split; [congruence|]. split; [|split].
  - intros j H1 H2. destruct (decide (j < length pre)).
    + by rewrite !lookup_app_l by lia.
    + rewrite !lookup_app_r by lia.
      destruct (j - length pre) as [|[|k]] eqn:E; [lia | lia | done].
  - by rewrite !length_app.
  - apply Permutation_app_head, perm_swap.
Qed.

(** C5.  On every list of stage names: the move-up handler at an index
    [i] with [0 < i < length] exchanges the names at positions [i - 1] and
    [i], and the move-down handler at an index [i] with
    [i < length - 1] exchanges the names at positions [i] and [i + 1];
    either leaves every other position as it was, keeps the length and
    yields a permutation of the list. *)
Theorem move_exchanges_neighbours (stages : list string) (i : nat) :
  (0 < i < length stages ->
   exists stages',
     moveUp i (Name <$> stages) = Name <$> stages'
     /\ stages' !! (i - 1) = stages !! i
     /\ stages' !! i = stages !! (i - 1)
     /\ (forall j, j <> i - 1 -> j <> i -> stages' !! j = stages !! j)
     /\ length stages' = length stages
     /\ stages' ≡ₚ stages) /\
  (i < length stages - 1 ->
   exists stages',
     moveDown i (Name <$> stages) = Name <$> stages'
     /\ stages' !! i = stages !! (i + 1)
     /\ stages' !! (i + 1) = stages !! i
     /\ (forall j, j <> i -> j <> i + 1 -> stages' !! j = stages !! j)
     /\ length stages' = length stages
     /\ stages' ≡ₚ stages).
Proof.
  split.
  - intros Hi.
    destruct (split_adjacent stages (i - 1)) as (pre & x & y & post & -> & Hp);
      [lia|].
    replace i with (S (length pre)) by lia.
    exists (pre ++ y :: x :: post).
    split; [apply moveUp_adjacent|].
    replace (S (length pre) - 1) with (length pre) by lia.
    apply exchanged_positions.
  - intros Hi.
    destruct (split_adjacent stages i) as (pre & x & y & post & -> & Hp);
      [lia|].
    subst i. exists (pre ++ y :: x :: post).
    split; [apply moveDown_adjacent|].
    replace (length pre + 1) with (S (length pre)) by lia.
    apply exchanged_positions.
Qed.

Lemma move_exchanges_neighbours_witness :
  (exists stages',
     moveUp 2 (Name <$> ["Intake"; "Testing"; "Go Live"; "Complete"])
     = Name <$> stages'
     /\ stages' !! 1 = Some "Go Live" /\ stages' !! 2 = Some "Testing"
     /\ stages' ≡ₚ ["Intake"; "Testing"; "Go Live"; "Complete"])
  /\ (exists stages',
        moveDown 0 (Name <$> ["Intake"; "Testing"; "Go Live"])
        = Name <$> stages'
        /\ stages' !! 0 = Some "Testing" /\ stages' !! 1 = Some "Intake").
Proof.
  split.
  - destruct (proj1 (move_exchanges_neighbours
                       ["Intake"; "Testing"; "Go Live"; "Complete"] 2))
      as (stages' & E & H1 & H2 & _ & _ & Hp); [simpl; lia|].
    exists stages'. split; [exact E|]. split; [exact H1|].
    split; [exact H2 | exact Hp].
  - destruct (proj2 (move_exchanges_neighbours
                       ["Intake"; "Testing"; "Go Live"] 0))
      as (stages' & E & H1 & H2 & _); [simpl; lia|].
    exists stages'. split; [exact E|]. split; [exact H1 | exact H2].
Defined.

(** *** The local list never becomes empty *)

Lemma moveUp_length i a : length a <= length (moveUp i a).
Proof.
  unfold moveUp. destruct (0 <? i); [|done].
  etrans; [|apply aset_length]. apply aset_length.
Qed.

Lemma moveDown_length i a : length a <= length (moveDown i a).
Proof.
  unfold moveDown. destruct (i <? length a - 1); [|done].
  etrans; [|apply aset_length]. apply aset_length.
Qed.

Lemma blurInput_length trim i value a :
  length a <= length (blurInput trim i value a).
Proof.
  unfold blurInput.
  destruct (Js.nonempty (trim value)
            && negb (bool_decide (Name (trim value) = aget i a))); [|done].
  apply aset_length.
Qed.

Lemma addStage_length trim prompted a :
  length a <= length (addStage trim prompted a).
Proof.
  unfold addStage. destruct prompted as [s|]; [|done].
  destruct (Js.nonempty s && Js.nonempty (trim s)); [|done].
  rewrite length_app. lia.
Qed.

Lemma delete_past_end {A} (l : list A) i : length l <= i -> delete i l = l.
Proof.
  revert i. induction l as [|x l IH]; intros [|i] Hi; simpl in *;
    [done | done | lia |].
  by rewrite IH by lia.
Qed.

Lemma deleteStage_length i confirmed a :
  1 <= length a -> 1 <= length (deleteStage i confirmed a).
Proof.
  intros Ha. unfold deleteStage, splice1.
  destruct (Nat.ltb_spec 1 (length a)); [|done].
  destruct confirmed; [|done].
  destruct (decide (i < length a)) as [Hi|Hi].
  - rewrite length_delete by (by apply lookup_lt_is_Some). lia.
  - rewrite delete_past_end by lia. done.
Qed.

Lemma apply_length trim a op :
  1 <= length a -> 1 <= length (apply trim a op).
Proof.
  intros Ha. destruct op as [i|i|i c|i v|p]; simpl.
  - etrans; [exact Ha | apply moveUp_length].
  - etrans; [exact Ha | apply moveDown_length].
  - by apply deleteStage_length.
  - etrans; [exact Ha | apply blurInput_length].
  - etrans; [exact Ha | apply addStage_length].
Qed.

Lemma rendered_item a it :
  it ∈ renderStagesList a ->
  data_index it < length a
  /\ move_up_disabled it = bool_decide (data_index it = 0)
  /\ move_down_disabled it = bool_decide (data_index it = length a - 1)
  /\ delete_disabled it = bool_decide (length a <= 1).
Proof.
  unfold renderStagesList. intros Hit.
  apply list_elem_of_omap in Hit as (o & Ho & Hid). simpl in Hid. subst o.
  apply elem_of_lookup_imap in Ho as (i & e & Hit & Hi).
  apply lookup_lt_Some in Hi as Hlt.
  assert (it = mkItem i (i =? 0) (i =? length a - 1) (length a <=? 1)) as ->
    by (destruct e; [discriminate | by injection Hit | by injection Hit]).
  simpl. split; [exact Hlt|].
  split; [by destruct (Nat.eqb_spec i 0);
            [rewrite bool_decide_eq_true_2 | rewrite bool_decide_eq_false_2]|].
  split; [by destruct (Nat.eqb_spec i (length a - 1));
            [rewrite bool_decide_eq_true_2 | rewrite bool_decide_eq_false_2]|].
  by destruct (Nat.leb_spec (length a) 1);
    [rewrite bool_decide_eq_true_2 | rewrite bool_decide_eq_false_2 by lia].
Qed.

(** C8.  The delete handler on a list of more than one entry, once
    confirmed, removes exactly the entry at its index; on a list of at
    most one entry, or when not confirmed, it changes nothing, and every
    delete button is rendered disabled exactly when the list has at most
    one entry.  Add, rename, move-up and move-down never shorten the list.
    So every operation, and every sequence of operations, takes a
    non-empty list to a non-empty list. *)
Theorem editor_list_stays_nonempty (trim : string -> string) :
  (forall pre x post,
     1 < length (pre ++ x :: post) ->
     deleteStage (length pre) true (pre ++ x :: post) = pre ++ post) /\
  (forall i confirmed stages,
     length stages <= 1 -> deleteStage i confirmed stages = stages) /\
  (forall i stages, deleteStage i false stages = stages) /\
  (forall stages it,
     it ∈ renderStagesList stages ->
     data_index it < length stages
     /\ delete_disabled it = bool_decide (length stages <= 1)) /\
  (forall stages op,
     (forall i confirmed, op <> Delete i confirmed) ->
     length stages <= length (apply trim stages op)) /\
  (forall stages op,
     1 <= length stages -> 1 <= length (apply trim stages op)) /\
  (forall ops stages,
     1 <= length stages -> 1 <= length (foldl (apply trim) stages ops)).
Proof.
  split; [|split; [|split; [|split; [|split; [|split]]]]].
  - intros pre x post Hl. unfold deleteStage, splice1.
    destruct (Nat.ltb_spec 1 (length (pre ++ x :: post))); [|lia].
    apply delete_middle.
  - intros i confirmed stages Hl. unfold deleteStage.
    by destruct (Nat.ltb_spec 1 (length stages)); [lia|].
  - intros i stages. unfold deleteStage. by destruct (1 <? length stages).
  - intros stages it Hit.
    destruct (rendered_item _ _ Hit) as (H1 & _ & _ & H2). done.
  - intros stages [i|i|i c|i v|p] Hop; simpl.
    + apply moveUp_length.
    + apply moveDown_length.
    + by destruct (Hop i c).
    + apply blurInput_length.
    + apply addStage_length.
  - intros stages op. apply apply_length.
  - intros ops. induction ops as [|op ops IH]; intros stages Hl; [exact Hl|].
    simpl. by apply IH, apply_length.
Qed.

Lemma editor_list_stays_nonempty_witness :
  deleteStage 1 true [Name "Intake"; Name "Testing"; Name "Complete"]
  = [Name "Intake"; Name "Complete"]
  /\ 1 <= length (foldl (apply ascii_trim) [Name "Intake"; Name "Testing"]
                    [Delete 0 true; Delete 0 true; MoveUp 0;
                     Rename 0 " Kickoff "; Add (Some "")]).
Proof.
  split.
  - apply (proj1 (editor_list_stays_nonempty ascii_trim)
             [Name "Intake"] (Name "Testing") [Name "Complete"]).
    simpl. lia.
  - apply (proj2 (proj2 (proj2 (proj2 (proj2 (proj2
             (editor_list_stays_nonempty ascii_trim))))))).
    simpl. lia.
Defined.

(** *** De-duplication on save *)

Lemma first_occurrences_cons x l :
  first_occurrences (x :: l)
  = x :: filter (fun y => y <> x) (first_occurrences l).
Proof. reflexivity. Qed.

Lemma first_occurrences_elem x l : x ∈ first_occurrences l <-> x ∈ l.
Proof.
  induction l as [|y l IH]; [done|].
  rewrite first_occurrences_cons, !elem_of_cons, list_elem_of_filter, IH.
  destruct (decide (x = y)); intuition congruence.
Qed.

Lemma first_occurrences_NoDup l : NoDup (first_occurrences l).
Proof.
  induction l as [|y l IH]; [constructor|].
  rewrite first_occurrences_cons. apply NoDup_cons. split.
  - rewrite list_elem_of_filter. intros [Hy _]. by apply Hy.
  - by apply NoDup_filter.
Qed.

Lemma first_occurrences_sublist l : first_occurrences l `sublist_of` l.
Proof.
  induction l as [|y l IH]; [constructor|].
  rewrite first_occurrences_cons. constructor.
  etrans; [apply sublist_filter | exact IH].
Qed.

Lemma first_occurrences_head l : head (first_occurrences l) = head l.
Proof. by destruct l. Qed.

Lemma filter_all_length {A} (P : A -> Prop) `{!forall x, Decision (P x)} l :
  length (filter P l) = length l -> Forall P l.
Proof.
  induction l as [|x l IH]; [constructor|]. rewrite filter_cons.
  pose proof (length_filter P l). destruct (decide (P x)); simpl; [|lia].
  intros ?. constructor; [done | apply IH; lia].
Qed.

Lemma filter_all {A} (P : A -> Prop) `{!forall x, Decision (P x)} l :
  Forall P l -> filter P l = l.
Proof.
  induction 1 as [|x l Hx Hl IH]; [done|].
  by rewrite filter_cons_True, IH.
Qed.

(** Nothing is dropped exactly when the list has no duplicates. *)
Lemma first_occurrences_length l :
  length (first_occurrences l) = length l -> first_occurrences l = l /\ NoDup l.
Proof.
  induction l as [|y l IH]; [by split; [|constructor]|].
  rewrite first_occurrences_cons. simpl. intros Hlen.
  pose proof (length_filter (fun z => z <> y) (first_occurrences l)).
  pose proof (sublist_length _ _ (first_occurrences_sublist l)).
  destruct IH as [Heq Hnd]; [lia|].
  assert (Forall (fun z => z <> y) (first_occurrences l)) as Hall
    by (apply (filter_all_length (fun z => z <> y)); lia).
  rewrite filter_all, Heq by done. split; [done|].
  apply NoDup_cons. split; [|done].
  rewrite Heq in Hall. rewrite Forall_forall in Hall. intros Hy.
  by apply (Hall y).
Qed.

Section WithTrim.
Variable trim : string -> string.

Lemma dedupe_loop names seen u :
  (forall x, x ∈ seen <-> x ∈ u) ->
  (foldl (dedupe_step trim) (seen, u) names).2
  = u ++ filter (fun y => y ∉ u) (first_occurrences (trimmed_names trim names)).
Proof.
  revert seen u. induction names as [|s names IH]; intros seen u Hseen.
  { simpl. by rewrite app_nil_r. }
  simpl. unfold dedupe_step at 2. simpl.
  unfold trimmed_names. rewrite fmap_cons, filter_cons.
  fold (trimmed_names trim names).
  destruct (Js.nonempty (trim s)) eqn:Hne; simpl.
  - apply JsFacts.nonempty_true in Hne.
    rewrite decide_True by done. rewrite first_occurrences_cons, filter_cons.
    destruct (decide (trim s ∈ seen)) as [Hin|Hin].
    + rewrite bool_decide_eq_true_2 by done. simpl.
      rewrite decide_False by (apply Hseen in Hin; tauto).
      rewrite (IH seen u Hseen). f_equal.
      symmetry. apply list_filter_filter_l. intros y Hy ->. by apply Hy, Hseen.
    + rewrite bool_decide_eq_false_2 by done. simpl.
      rewrite decide_True by (by rewrite <- Hseen).
      rewrite (IH ({[trim s]} ∪ seen) (u ++ [trim s])).
      * rewrite <- app_assoc. simpl. do 2 f_equal.
        rewrite list_filter_filter. apply list_filter_iff.
        intros y. rewrite elem_of_app, list_elem_of_singleton. tauto.
      * intros x. rewrite elem_of_union, elem_of_singleton, elem_of_app,
          list_elem_of_singleton, Hseen. tauto.
  - apply JsFacts.nonempty_false in Hne.
    rewrite decide_False by (intros Hc; by apply Hc). by apply IH.
Qed.

(** The loop computes the de-duplication of the specification. *)
Lemma uniqueStagesOf_first_occurrences names :
  uniqueStagesOf trim names = first_occurrences (trimmed_names trim names).
Proof.
  unfold uniqueStagesOf. rewrite (dedupe_loop names ∅ []) by set_solver.
  simpl. apply filter_all, Forall_forall. intros x _. apply not_elem_of_nil.
Qed.

Lemma names_of_array stages names :
  mapM name_of stages = Some names -> stages = Name <$> names.
Proof.
  intros H. apply mapM_Some_1 in H.
  induction H as [|e s stages names He _ IH]; [done|].
  destruct e; try discriminate. injection He as ->. by rewrite IH.
Qed.

Lemma named_array names :
  existsb (unnamed trim) (Name <$> names) = false ->
  Forall (fun s => s <> "" /\ trim s <> "") names.
Proof.
  induction names as [|s names IH]; [constructor|]. simpl.
  intros [Hs Hr]%orb_false_elim. apply orb_false_elim in Hs as [H1 H2].
  apply negb_false_iff, JsFacts.nonempty_true in H1, H2.
  constructor; [done | by apply IH].
Qed.

Lemma trimmed_names_all names :
  Forall (fun s => s <> "" /\ trim s <> "") names ->
  trimmed_names trim names = trim <$> names.
Proof.
  intros H. apply filter_all, Forall_fmap.
  eapply Forall_impl; [exact H|]. by intros s [_ ?].
Qed.

(** C2.  [saveOnboardingStages] throws, sending nothing and changing
    nothing, whenever its argument is not a non-empty array.  The save
    handler of the Settings page either leaves the stored document as it
    was, or reports success and has stored a list that is non-empty and
    free of duplicates: the edited names themselves when no two of them
    are equal after trimming, and otherwise, once the user confirmed, the
    first occurrences of the trimmed names in their order. *)
Theorem save_keeps_stages_nonempty_and_unique :
  (forall stages answer w,
     ~ (exists l, stages = Js.VArr l /\ l <> []) ->
     saveOnboardingStages stages answer w
     = (Threw "Stages must be a non-empty array", w)) /\
  (forall confirmed answer stages w,
     let '(outcome, _, w') := saveStagesClick trim confirmed answer stages w in
     (outcome <> Saved /\ settingsDoc w' = settingsDoc w) \/
     (outcome = Saved /\
      exists names saved,
        stages = Name <$> names
        /\ settingsDoc w' = Some (stages_data saved)
        /\ saved <> [] /\ NoDup saved
        /\ ((saved = names /\ NoDup (trim <$> names))
            \/ (confirmed = true
                /\ saved = first_occurrences (trim <$> names)
                /\ saved `sublist_of` (trim <$> names))))).
Proof.
  split.
  { intros stages answer w Hn. apply OnboardingStagesFacts.save_rejected_input.
    by apply JsFacts.nonempty_array_None. }
  intros confirmed answer stages w. unfold saveStagesClick.
  destruct (existsb (unnamed trim) stages) eqn:Hunnamed;
    [left; by split|].
  destruct (mapM name_of stages) as [names|] eqn:Hnames;
    [|left; by split].
  apply names_of_array in Hnames. subst stages.
  pose proof (named_array _ Hunnamed) as Hall.
  rewrite uniqueStagesOf_first_occurrences, (trimmed_names_all _ Hall).
  rewrite length_fmap.
  assert (forall saved,
    saved <> [] -> NoDup saved ->
    (saved = names /\ NoDup (trim <$> names))
    \/ (confirmed = true /\ saved = first_occurrences (trim <$> names)
        /\ saved `sublist_of` (trim <$> names)) ->
    let '(outcome, _, w') :=
      match saveOnboardingStages (Js.VArr saved) answer w with
      | (Done, w') => (Saved, Name <$> saved, clearStagesCache w')
      | (Threw error, w') =>
          (SaveFailed, Name <$> saved,
           console_error "Error saving stages:" error w')
      end in
    (outcome <> Saved /\ settingsDoc w' = settingsDoc w) \/
    (outcome = Saved /\
     exists names0 saved0,
       Name <$> names = Name <$> names0
       /\ settingsDoc w' = Some (stages_data saved0)
       /\ saved0 <> [] /\ NoDup saved0
       /\ ((saved0 = names0 /\ NoDup (trim <$> names0))
           \/ (confirmed = true
               /\ saved0 = first_occurrences (trim <$> names0)
               /\ saved0 `sublist_of` (trim <$> names0))))) as Hsave.
  { intros saved Hne Hnd Hrel. destruct answer as [u|error].
    - rewrite OnboardingStagesFacts.save_resolved by done. right. split; [done|].
      exists names, saved. done.
    - rewrite OnboardingStagesFacts.save_rejected by done. left. by split. }
  destruct (Nat.eqb_spec (length (first_occurrences (trim <$> names)))
              (length names)) as [Hlen|Hlen]; simpl.
  - rewrite <- (length_fmap trim names) in Hlen.
    apply first_occurrences_length in Hlen as [_ Hnd].
    destruct names as [|s names]; [left; by split|].
    apply Hsave; [done | by apply NoDup_fmap_1 in Hnd | by left].
  - destruct confirmed; [|left; by split].
    destruct names as [|s names]; [done|].
    apply Hsave.
    + by rewrite fmap_cons, first_occurrences_cons.
    + apply first_occurrences_NoDup.
    + right. split; [done|]. split; [done|]. apply first_occurrences_sublist.
Qed.

End WithTrim.

Lemma save_keeps_stages_nonempty_and_unique_witness :
  saveOnboardingStages Js.VNull (Resolved tt) initial
  = (Threw "Stages must be a non-empty array", initial)
  /\ saveOnboardingStages (Js.VArr []) (Resolved tt) initial
     = (Threw "Stages must be a non-empty array", initial).
Proof.
  split.
  - apply (proj1 (save_keeps_stages_nonempty_and_unique ascii_trim)).
    intros (l & H & _). discriminate H.
  - apply (proj1 (save_keeps_stages_nonempty_and_unique ascii_trim)).
    intros (l & H & Hl). injection H as <-. by apply Hl.
Defined.

(** The save handler on a list with a duplicate up to white space. *)
Example save_click_deduplicates :
  let '(outcome, stages', w') :=
    saveStagesClick ascii_trim true (Resolved tt)
      [Name "Intake"; Name " Testing"; Name "Testing "; Name "Complete"]
      initial in
  outcome = Saved
  /\ stages' = [Name "Intake"; Name "Testing"; Name "Complete"]
  /\ settingsDoc w' = Some (stages_data ["Intake"; "Testing"; "Complete"]).
Proof. by vm_compute. Qed.

(** *** Reset *)

(** C7.  The reset handler saves the array literal
    [Intake, Testing, Integration, Go Live, Complete], which is the
    loader's [DEFAULT_STAGES]: once confirmed and accepted by the backend
    the stored document holds exactly that list whatever it held before
    (the write does not merge), and the cache is cleared.  A declined
    confirmation or a rejected write leaves the stored document alone.
    The loader falls back to the same list when its read fails. *)
Theorem reset_saves_defaults (w : world) :
  defaultStages = ["Intake"; "Testing"; "Integration"; "Go Live"; "Complete"] /\
  defaultStages = DEFAULT_STAGES /\
  (forall u, exists w',
     resetStagesClick true (Resolved u) w = (ResetDone, w')
     /\ settingsDoc w' = Some (stages_data DEFAULT_STAGES)
     /\ cachedStages w' = None) /\
  stages_data DEFAULT_STAGES !! "stages" = Some (Js.VArr DEFAULT_STAGES) /\
  (forall error, exists w',
     resetStagesClick true (Rejected error) w = (ResetFailed, w')
     /\ settingsDoc w' = settingsDoc w) /\
  (forall answer, resetStagesClick false answer w = (ResetDeclined, w)) /\
  (forall error answer,
     (load_all (Rejected error) answer initial).1 = Some DEFAULT_STAGES).
Proof.
  split; [reflexivity|]. split; [reflexivity|].
  split; [|split; [|split; [|split]]].
  - intros u. eexists. split; [reflexivity|]. by split.
  - reflexivity.
  - intros error. eexists. split; [reflexivity|]. reflexivity.
  - reflexivity.
  - reflexivity.
Qed.

End SettingsFacts.

(** ** Failing backend calls *)

Module FailureFacts.
Import Firestore Pages OnboardingStages Effects.

Ltac run_failed Hq Hrej :=
  rewrite Hq; unfold mbind, M_bind, Pages.try_catch, getDocs, getDoc, Pages.await; simpl;
  rewrite Hrej; reflexivity.

Lemma partners_page_failed be userRole partnerId q error :
  Partners.partnersQuery userRole partnerId = Some q ->
  answer_getDocs be q = Rejected error ->
  Partners.renderPartnersPage userRole partnerId be blank
  = (Returned tt,
     mkPage [GetDocs q] [("Error fetching partners:", error)] LoadError).
Proof. intros Hq Hrej. unfold Partners.renderPartnersPage. run_failed Hq Hrej. Qed.

Lemma documents_page_failed be userRole partnerId q error :
  Documents.documentsQuery userRole partnerId = Some q ->
  answer_getDocs be q = Rejected error ->
  Documents.renderDocumentsPage userRole partnerId be blank
  = (Returned tt,
     mkPage [GetDocs q] [("Error loading documents:", error)] LoadError).
Proof. intros Hq Hrej. unfold Documents.renderDocumentsPage. run_failed Hq Hrej. Qed.

Lemma templates_page_failed be userRole partnerId q error :
  Templates.templatesQuery userRole partnerId = Some q ->
  answer_getDocs be q = Rejected error ->
  Templates.renderTemplatesPage userRole partnerId be blank
  = (Returned tt,
     mkPage [GetDocs q] [("Error loading templates:", error)] LoadError).
Proof. intros Hq Hrej. unfold Templates.renderTemplatesPage. run_failed Hq Hrej. Qed.

Lemma partner_detail_failed be partnerDocId userRole error :
  answer_getDoc be "partners" partnerDocId = Rejected error ->
  Partners.renderPartnerDetailPage partnerDocId userRole be blank
  = (Returned tt,
     mkPage [GetDoc "partners" partnerDocId]
            [("Error fetching partner details:", error)] LoadError).
Proof.
  intros Hrej. unfold Partners.renderPartnerDetailPage.
  unfold mbind, M_bind, Pages.try_catch, getDoc, Pages.await; simpl.
  rewrite Hrej. reflexivity.
Qed.

(** A load whose read is rejected: one call, the error on the console,
    and the defaults both cached and returned. *)
Lemma load_read_failed error answer w :
  cachedStages w = None -> stagesPromise w = None ->
  exists w',
    load_all (Rejected error) answer w = (Some DEFAULT_STAGES, w')
    /\ calls w' = calls w ++ [CallGetDoc]
    /\ console w' = console w ++ [("Error loading onboarding stages:", error)]
    /\ cachedStages w' = Some DEFAULT_STAGES
    /\ stagesPromise w' = None.
Proof.
  intros Hc Hp. unfold load_all, loadOnboardingStages. rewrite Hc, Hp.
  unfold getDoc_settled. simpl. rewrite lookup_insert_eq.
  unfold setDoc_settled, load_failed. simpl. rewrite lookup_delete_eq.
  eexists. split; [simpl; by rewrite lookup_insert_eq|]. by repeat split.
Qed.

(** A load that finds no usable list and whose initialising write is
    rejected: the read, the write, then the same fallback. *)
Lemma load_write_failed snap error w :
  cachedStages w = None -> stagesPromise w = None ->
  usable_stages snap = None ->
  exists w',
    load_all (Resolved snap) (Rejected error) w = (Some DEFAULT_STAGES, w')
    /\ calls w' = calls w ++ [CallGetDoc;
                              CallSetDoc (stages_data DEFAULT_STAGES) true]
    /\ console w' = console w ++ [("Error loading onboarding stages:", error)]
    /\ cachedStages w' = Some DEFAULT_STAGES
    /\ settingsDoc w' = settingsDoc w.
Proof.
  intros Hc Hp Hu. unfold load_all, loadOnboardingStages. rewrite Hc, Hp.
  unfold getDoc_settled. simpl. rewrite lookup_insert_eq, Hu.
  unfold setDoc_settled, load_failed. simpl. rewrite lookup_insert_eq.
  eexists. split; [simpl; by rewrite lookup_insert_eq|].
  simpl. by rewrite <- app_assoc.
Qed.

(** C6, the claim as stated fails on the stage loader: when the backend
    rejects its read, the load does more than surface the error; it
    recovers by caching the default stages and resolving with them, so
    the caller is never told. *)
Lemma load_falls_back_counterexample :
  (load_all (Rejected "unavailable") (Resolved tt) initial).1
  = Some ["Intake"; "Testing"; "Integration"; "Go Live"; "Complete"]
  /\ cachedStages (load_all (Rejected "unavailable") (Resolved tt) initial).2
     = Some ["Intake"; "Testing"; "Integration"; "Go Live"; "Complete"]
  /\ console (load_all (Rejected "unavailable") (Resolved tt) initial).2
     = [("Error loading onboarding stages:", "unavailable")].
Proof. by repeat split. Qed.

(** *** The event handlers *)

Ltac unfold_handlers :=
  unfold execute,
    Handlers.authStateChanged, Handlers.logoutClick, Handlers.loginSubmit,
    Handlers.signupClick, Handlers.renderSettingsPage,
    Handlers.saveDisplayNameClick, Handlers.saveStagesClick,
    Handlers.resetStagesClick, Handlers.addPartnerSubmit,
    Handlers.editPartnerSubmit, Handlers.checklistChange,
    Handlers.renderDocumentsPage, Handlers.uploadSubmit,
    Handlers.folderSubmit, Handlers.favoriteClick, Handlers.deleteClick,
    Handlers.renderPage, Handlers.loadOnboardingStages,
    Handlers.saveOnboardingStages;
  unfold mbind, H_bind, mret, H_ret, Effects.try_catch, throw, emit,
    Effects.await.

Ltac reduce := cbn -[Markup.loginFailed Markup.errorWords String.append].

(** Case analysis on the answer to every call the run sends. *)
Ltac answer_all o :=
  repeat (reduce;
          match goal with
          | |- context [match o ?n with _ => _ end] =>
              let E := fresh "E" in destruct (o n) eqn:E
          end);
  reduce.

Ltac below :=
  let n := fresh "n" in let Hn := fresh "Hn" in
  intros n Hn;
  repeat (destruct n as [|n];
          [ match goal with E : _ = Resolved _ |- _ => by rewrite E end |]);
  simpl in Hn; lia.

Ltac all_resolved := left; below.

Ltac first_rejected :=
  match goal with
  | E : ?o ?n = Rejected ?e |- _ =>
      right; exists n, e; eexists;
      split; [exact E|];
      split; [below|];
      split;
        [ match goal with
          | |- (_, ?t) = (_, ?p ++ ?rep) =>
              let k := eval lazy in (length t - length rep) in
              let pre := eval cbv [firstn] in (firstn k t) in
              unify p pre
          end; reflexivity |];
      split; [reflexivity|];
      split; [by repeat constructor | reflexivity]
  end.

Ltac excluded Hk :=
  match goal with
  | E : ?o ?n = Rejected _ |- _ =>
      let H := fresh in
      assert (is_resolved (o n) = true) as H by (apply Hk; lia);
      rewrite E in H; discriminate H
  end.

Ltac settle :=
  let o := fresh "o" in let Hk := fresh "Hk" in
  intros o Hk; unfold_handlers; answer_all o;
  first [ excluded Hk | all_resolved | first_rejected ].

Ltac settle_swallowed pre :=
  let o := fresh "o" in let error := fresh "error" in let E0 := fresh "E" in
  intros o error E0; unfold_handlers; reduce; rewrite E0;
  answer_all o; exists pre; eexists; by repeat split.

Lemma login_surfaces :
  surfaces Handlers.loginSubmit
    (fun error => [ConsoleError "Login Failed:" error;
                   Message (Markup.loginFailed error)]).
Proof. settle. Qed.

Lemma signup_surfaces :
  surfaces Handlers.signupClick
    (fun error => [ConsoleError "Sign Up Failed:" error;
                   Message ("Sign up failed: " +:+ Markup.errorWords error)]).
Proof. settle. Qed.

Lemma logout_surfaces :
  surfaces Handlers.logoutClick (fun error => [ConsoleError "" error]).
Proof. settle. Qed.

Lemma display_name_surfaces named :
  surfaces (Handlers.saveDisplayNameClick named)
    (fun error => [ConsoleError "Error saving display name:" error;
                   Message "Error saving display name. Please try again."]).
Proof. destruct named; settle. Qed.

Lemma save_click_surfaces named proceed valid :
  surfaces (Handlers.saveStagesClick named proceed valid)
    (fun error => [ConsoleError "Error saving onboarding stages:" error;
                   ConsoleError "Error saving stages:" error;
                   Message "Error saving stages. Please try again."]).
Proof. destruct named, proceed, valid; settle. Qed.

Lemma reset_click_surfaces confirmed :
  surfaces (Handlers.resetStagesClick confirmed)
    (fun error => [ConsoleError "Error saving onboarding stages:" error;
                   ConsoleError "Error resetting stages:" error;
                   Message "Error resetting stages. Please try again."]).
Proof. destruct confirmed; settle. Qed.

Lemma add_partner_surfaces complete :
  surfaces (Handlers.addPartnerSubmit complete)
    (fun error => [ConsoleError "Error adding partner:" error;
                   Alert "Could not save partner. Please try again."]).
Proof. destruct complete; settle. Qed.

Lemma edit_partner_surfaces complete :
  surfaces (Handlers.editPartnerSubmit complete)
    (fun error => [ConsoleError "Error updating partner:" error;
                   Alert "Could not update partner. Please try again."]).
Proof. destruct complete; settle. Qed.

Lemma checklist_surfaces :
  surfaces Handlers.checklistChange
    (fun error => [ConsoleError "Error updating CS guide status:" error;
                   Alert "Could not update status. Please try again."]).
Proof. settle. Qed.

Lemma upload_surfaces chosen queried :
  surfaces (Handlers.uploadSubmit chosen queried)
    (fun error => [ConsoleError "Error uploading file:" error;
                   Alert "Failed to upload file. Please try again."]).
Proof. destruct chosen, queried; settle. Qed.

Lemma folder_surfaces named folderExists queried :
  surfaces (Handlers.folderSubmit named folderExists queried)
    (fun error => [ConsoleError "Error creating folder:" error;
                   Alert "Failed to create folder. Please try again."]).
Proof. destruct named, folderExists, queried; settle. Qed.

Lemma favorite_surfaces known queried :
  surfaces (Handlers.favoriteClick known queried)
    (fun error => [ConsoleError "Error updating favorite:" error;
                   Alert "Failed to update favorite status."]).
Proof. destruct known, queried; settle. Qed.

Lemma delete_surfaces known confirmed queried :
  surfaces (Handlers.deleteClick known confirmed false queried)
    (fun error => [ConsoleError "Error deleting document:" error;
                   Alert "Failed to delete document."]).
Proof. destruct known, confirmed, queried; settle. Qed.

Lemma delete_surfaces_after_blob known confirmed queried :
  on_rejection_after 1 (Handlers.deleteClick known confirmed true queried)
    (fun error => (Returned tt,
                   [ConsoleError "Error deleting document:" error;
                    Alert "Failed to delete document."])).
Proof. destruct known, confirmed, queried; settle. Qed.

Lemma delete_swallows_blob queried :
  swallows (Handlers.deleteClick true true true queried) DeleteObject
    "Error deleting file from storage:".
Proof. destruct queried; settle_swallowed (@nil effect). Qed.

Lemma settings_swallows_user f :
  swallows (Handlers.renderSettingsPage true f) GetUser
    "Could not load user display name:".
Proof. destruct f as [|[|]]; settle_swallowed [Page LoadingSettings]. Qed.

Lemma settings_renders_after_load_failure usable :
  on_rejection_after 1 (Handlers.renderSettingsPage true (Handlers.Fresh usable))
    (fun error => (Returned tt,
                   [ConsoleError "Error loading onboarding stages:" error;
                    Page SettingsEditor])).
Proof. destruct usable; settle. Qed.

Lemma auth_callback_lets_through : lets_through Handlers.authStateChanged.
Proof. settle. Qed.

Lemma renderPage_lets_through queried :
  lets_through (Handlers.renderPage queried).
Proof. destruct queried; settle. Qed.

Lemma library_page_lets_through queried :
  lets_through (Handlers.renderDocumentsPage queried).
Proof. destruct queried; settle. Qed.

(** The other places where a rejected call is not only surfaced, each
    on a run: the read of the user document in [renderSettingsPage],
    the auth-state callback, and the first render of the folder revision
    of the documents page. *)
Example settings_page_goes_on_without_the_user_document :
  execute (Handlers.renderSettingsPage true Handlers.Served)
    (fun _ => Rejected "permission-denied")
  = (Returned tt,
     [Page LoadingSettings; Sent GetUser;
      ConsoleWarn "Could not load user display name:" "permission-denied";
      Page SettingsEditor]).
Proof. reflexivity. Qed.

Example auth_callback_has_no_catch :
  execute Handlers.authStateChanged (fun _ => Rejected "unavailable")
  = (Thrown "unavailable", [Sent GetUser]).
Proof. reflexivity. Qed.

Example library_page_has_no_catch :
  execute (Handlers.renderDocumentsPage true)
    (fun n => match n with
              | 0 => Resolved tt
              | _ => Rejected "permission-denied"
              end)
  = (Thrown "permission-denied",
     [Page LoadingDocuments; Sent GetDocuments; Sent GetFolders]).
Proof. reflexivity. Qed.

(** *** The two views of the stage module agree *)

(** A save as [OnboardingStages] has it and as its callers see it: the
    same number of calls, the same console entries, the same outcome. *)
Lemma save_views_agree l answer w :
  l <> [] ->
  let '(r, w') := saveOnboardingStages (Js.VArr l) answer w in
  let '(r', t) :=
    execute (Handlers.saveOnboardingStages true)
            (fun _ => match answer with
                      | Resolved _ => Resolved tt
                      | Rejected error => Rejected error
                      end) in
  length (calls w') = length (calls w) + length (sent t)
  /\ console w' = console w ++ errors_logged t
  /\ match r, r' with
     | Done, Returned _ => True
     | Threw error, Thrown error' => error = error'
     | _, _ => False
     end.
Proof.
  intros Hl. destruct l as [|x l]; [done|]. destruct answer as [u|error].
  - rewrite OnboardingStagesFacts.save_resolved by done.
    unfold_handlers. simpl. rewrite length_app, app_nil_r. by repeat split.
  - rewrite OnboardingStagesFacts.save_rejected by done.
    unfold_handlers. simpl. rewrite length_app. by repeat split.
Qed.

(** A whole load likewise: the caller is never told of a failure. *)
Lemma load_views_agree snap getDoc_answer setDoc_answer w :
  cachedStages w = None -> stagesPromise w = None ->
  getDoc_answer = Resolved snap \/ (exists e, getDoc_answer = Rejected e) ->
  let usable := bool_decide (is_Some (usable_stages snap)) in
  let o : answers := fun n =>
    match n with
    | 0 => match getDoc_answer with
           | Resolved _ => Resolved tt
           | Rejected error => Rejected error
           end
    | _ => setDoc_answer
    end in
  let loaded := load_all getDoc_answer setDoc_answer w in
  let seen := execute (Handlers.loadOnboardingStages (Handlers.Fresh usable)) o in
  length (calls loaded.2) = length (calls w) + length (sent seen.2)
  /\ console loaded.2 = console w ++ errors_logged seen.2
  /\ is_Some loaded.1 /\ seen.1 = Returned tt.
Proof.
  intros Hc Hp Hanswer usable o loaded seen. subst usable o loaded seen.
  unfold load_all, loadOnboardingStages. rewrite Hc, Hp.
  unfold getDoc_settled. simpl. rewrite lookup_insert_eq.
  destruct Hanswer as [-> | [e ->]].
  - destruct (usable_stages snap) as [l|] eqn:Hu.
    + unfold setDoc_settled. simpl. rewrite lookup_delete_eq. unfold_handlers.
      simpl. rewrite lookup_insert_eq, length_app, app_nil_r.
      by repeat split.
    + unfold setDoc_settled, load_failed. simpl. rewrite lookup_insert_eq.
      unfold_handlers.
      destruct setDoc_answer as [u|error]; simpl;
        rewrite lookup_insert_eq, !length_app, ?app_nil_r; simpl;
        (repeat split; [lia | done..]).
  - unfold setDoc_settled, load_failed. simpl. rewrite lookup_delete_eq.
    unfold_handlers. simpl. rewrite lookup_insert_eq, length_app.
    by repeat split.
Qed.

(** C6, as the code handles a rejected backend call.  No operation sends
    a call again, and all but the ones named below stop at the rejected
    call, log the backend's error and show a fixed message, alert or
    error view: the four page renderers with a role branch, the login
    and sign-up handlers (which show the error's code), the handlers
    that save the display name, save and reset the stages, add and edit
    a partner, tick the checklist, upload a file, create a folder, mark
    a favourite and delete a document; the logout handler only logs.
    [saveOnboardingStages] logs the error and throws it on to the save
    and reset handlers.  The others: [loadOnboardingStages] logs the
    error and then falls back, caching [DEFAULT_STAGES] and resolving
    with them, also when it is the initialising write that was rejected,
    so [renderSettingsPage] renders the editor all the same;
    [renderSettingsPage] logs a rejected read of the user document as a
    warning and goes on; the delete handler logs a rejected
    [deleteObject] as a warning and goes on to delete the document; and
    the auth-state callback and [renderPage] of the folder revision of
    the documents page, run outside a handler, have no [catch]: the
    rejection leaves them, nothing logged or shown.  The last part lists
    the calls each handler sends when the backend accepts them all. *)
Theorem backend_failure_handling :
  (forall be userRole partnerId q error,
     Partners.partnersQuery userRole partnerId = Some q ->
     answer_getDocs be q = Rejected error ->
     Partners.renderPartnersPage userRole partnerId be blank
     = (Returned tt,
        mkPage [GetDocs q] [("Error fetching partners:", error)] LoadError)) /\
  (forall be partnerDocId userRole error,
     answer_getDoc be "partners" partnerDocId = Rejected error ->
     Partners.renderPartnerDetailPage partnerDocId userRole be blank
     = (Returned tt,
        mkPage [GetDoc "partners" partnerDocId]
               [("Error fetching partner details:", error)] LoadError)) /\
  (forall be userRole partnerId q error,
     Documents.documentsQuery userRole partnerId = Some q ->
     answer_getDocs be q = Rejected error ->
     Documents.renderDocumentsPage userRole partnerId be blank
     = (Returned tt,
        mkPage [GetDocs q] [("Error loading documents:", error)] LoadError)) /\
  (forall be userRole partnerId q error,
     Templates.templatesQuery userRole partnerId = Some q ->
     answer_getDocs be q = Rejected error ->
     Templates.renderTemplatesPage userRole partnerId be blank
     = (Returned tt,
        mkPage [GetDocs q] [("Error loading templates:", error)] LoadError)) /\
  (forall l error w,
     l <> [] ->
     exists w',
       saveOnboardingStages (Js.VArr l) (Rejected error) w = (Threw error, w')
       /\ calls w' = calls w ++ [CallSetDoc (stages_data l) false]
       /\ console w' = console w ++ [("Error saving onboarding stages:", error)]
       /\ cachedStages w' = cachedStages w) /\
  (forall error answer w,
     cachedStages w = None -> stagesPromise w = None ->
     exists w',
       load_all (Rejected error) answer w = (Some DEFAULT_STAGES, w')
       /\ calls w' = calls w ++ [CallGetDoc]
       /\ console w' = console w ++ [("Error loading onboarding stages:", error)]
       /\ cachedStages w' = Some DEFAULT_STAGES) /\
  (forall snap error w,
     cachedStages w = None -> stagesPromise w = None ->
     usable_stages snap = None ->
     exists w',
       load_all (Resolved snap) (Rejected error) w = (Some DEFAULT_STAGES, w')
       /\ calls w' = calls w ++ [CallGetDoc;
                                 CallSetDoc (stages_data DEFAULT_STAGES) true]
       /\ console w' = console w ++ [("Error loading onboarding stages:", error)]
       /\ cachedStages w' = Some DEFAULT_STAGES) /\
  surfaces Handlers.loginSubmit
    (fun error => [ConsoleError "Login Failed:" error;
                   Message (Markup.loginFailed error)]) /\
  surfaces Handlers.signupClick
    (fun error => [ConsoleError "Sign Up Failed:" error;
                   Message ("Sign up failed: " +:+ Markup.errorWords error)]) /\
  surfaces Handlers.logoutClick (fun error => [ConsoleError "" error]) /\
  (forall named,
     surfaces (Handlers.saveDisplayNameClick named)
       (fun error => [ConsoleError "Error saving display name:" error;
                      Message "Error saving display name. Please try again."])) /\
  (forall named proceed valid,
     surfaces (Handlers.saveStagesClick named proceed valid)
       (fun error => [ConsoleError "Error saving onboarding stages:" error;
                      ConsoleError "Error saving stages:" error;
                      Message "Error saving stages. Please try again."])) /\
  (forall confirmed,
     surfaces (Handlers.resetStagesClick confirmed)
       (fun error => [ConsoleError "Error saving onboarding stages:" error;
                      ConsoleError "Error resetting stages:" error;
                      Message "Error resetting stages. Please try again."])) /\
  (forall complete,
     surfaces (Handlers.addPartnerSubmit complete)
       (fun error => [ConsoleError "Error adding partner:" error;
                      Alert "Could not save partner. Please try again."])) /\
  (forall complete,
     surfaces (Handlers.editPartnerSubmit complete)
       (fun error => [ConsoleError "Error updating partner:" error;
                      Alert "Could not update partner. Please try again."])) /\
  surfaces Handlers.checklistChange
    (fun error => [ConsoleError "Error updating CS guide status:" error;
                   Alert "Could not update status. Please try again."]) /\
  (forall chosen queried,
     surfaces (Handlers.uploadSubmit chosen queried)
       (fun error => [ConsoleError "Error uploading file:" error;
                      Alert "Failed to upload file. Please try again."])) /\
  (forall named folderExists queried,
     surfaces (Handlers.folderSubmit named folderExists queried)
       (fun error => [ConsoleError "Error creating folder:" error;
                      Alert "Failed to create folder. Please try again."])) /\
  (forall known queried,
     surfaces (Handlers.favoriteClick known queried)
       (fun error => [ConsoleError "Error updating favorite:" error;
                      Alert "Failed to update favorite status."])) /\
  (forall known confirmed queried,
     surfaces (Handlers.deleteClick known confirmed false queried)
       (fun error => [ConsoleError "Error deleting document:" error;
                      Alert "Failed to delete document."])) /\
  (forall known confirmed queried,
     on_rejection_after 1
       (Handlers.deleteClick known confirmed true queried)
       (fun error => (Returned tt,
                      [ConsoleError "Error deleting document:" error;
                       Alert "Failed to delete document."]))) /\
  (forall queried,
     swallows (Handlers.deleteClick true true true queried) DeleteObject
       "Error deleting file from storage:") /\
  (forall f,
     swallows (Handlers.renderSettingsPage true f) GetUser
       "Could not load user display name:") /\
  (forall usable,
     on_rejection_after 1
       (Handlers.renderSettingsPage true (Handlers.Fresh usable))
       (fun error => (Returned tt,
                      [ConsoleError "Error loading onboarding stages:" error;
                       Page SettingsEditor]))) /\
  lets_through Handlers.authStateChanged /\
  (forall queried, lets_through (Handlers.renderPage queried)) /\
  (forall queried, lets_through (Handlers.renderDocumentsPage queried)) /\
  Forall (fun operation : H unit * list request =>
            sent (execute operation.1 accepted).2 = operation.2)
    [(Handlers.loginSubmit, [SignIn]);
     (Handlers.signupClick, [SignUp]);
     (Handlers.logoutClick, [SignOut]);
     (Handlers.saveDisplayNameClick true, [UpdateUser]);
     (Handlers.saveStagesClick true true true, [SetSettings false]);
     (Handlers.resetStagesClick true, [SetSettings false]);
     (Handlers.addPartnerSubmit true, [AddPartner]);
     (Handlers.editPartnerSubmit true, [UpdatePartner]);
     (Handlers.checklistChange, [UpdateChecklist]);
     (Handlers.uploadSubmit true true,
      [UploadBytes; GetDownloadURL; AddDocument; GetDocuments; GetFolders]);
     (Handlers.folderSubmit true false true,
      [GetFolders; AddFolder; GetDocuments; GetFolders]);
     (Handlers.favoriteClick true true,
      [UpdateFavorite; GetDocuments; GetFolders]);
     (Handlers.deleteClick true true true true,
      [DeleteObject; DeleteDocument; GetDocuments; GetFolders]);
     (Handlers.renderSettingsPage true (Handlers.Fresh false),
      [GetUser; GetSettings; SetSettings true]);
     (Handlers.authStateChanged, [GetUser]);
     (Handlers.renderDocumentsPage true, [GetDocuments; GetFolders])].
Proof.
  split; [exact partners_page_failed|].
  split; [exact partner_detail_failed|].
  split; [exact documents_page_failed|].
  split; [exact templates_page_failed|].
  split.
  { intros l error w Hl.
    rewrite OnboardingStagesFacts.save_rejected by done.
    eexists. by repeat split. }
  split.
  { intros error answer w Hc Hp.
    destruct (load_read_failed error answer w Hc Hp) as (w' & E & H1 & H2 & H3 & _).
    by exists w'. }
  split.
  { intros snap error w Hc Hp Hu.
    destruct (load_write_failed snap error w Hc Hp Hu)
      as (w' & E & H1 & H2 & H3 & _).
    by exists w'. }
  split; [exact login_surfaces|].
  split; [exact signup_surfaces|].
  split; [exact logout_surfaces|].
  split; [exact display_name_surfaces|].
  split; [exact save_click_surfaces|].
  split; [exact reset_click_surfaces|].
  split; [exact add_partner_surfaces|].
  split; [exact edit_partner_surfaces|].
  split; [exact checklist_surfaces|].
  split; [exact upload_surfaces|].
  split; [exact folder_surfaces|].
  split; [exact favorite_surfaces|].
  split; [exact delete_surfaces|].
  split; [exact delete_surfaces_after_blob|].
  split; [exact delete_swallows_blob|].
  split; [exact settings_swallows_user|].
  split; [exact settings_renders_after_load_failure|].
  split; [exact auth_callback_lets_through|].
  split; [exact renderPage_lets_through|].
  split; [exact library_page_lets_through|].
  by repeat constructor.
Qed.

Lemma backend_failure_handling_witness :
  Partners.renderPartnersPage "partner" (Some "acme")
    (failing_backend "permission-denied") blank
  = (Returned tt,
     mkPage [GetDocs (mkQuery "partners" [where_eq "partnerId" "acme"])]
            [("Error fetching partners:", "permission-denied")] LoadError)
  /\ execute (Handlers.uploadSubmit true true)
       (fun n => match n with
                 | 1 => Rejected "storage/unauthorized"
                 | _ => Resolved tt
                 end)
     = (Returned tt,
        [Sent UploadBytes; Sent GetDownloadURL;
         ConsoleError "Error uploading file:" "storage/unauthorized";
         Alert "Failed to upload file. Please try again."])
  /\ execute (Handlers.deleteClick true true true false)
       (fun n => match n with
                 | 0 => Rejected "storage/object-not-found"
                 | _ => Resolved tt
                 end)
     = (Returned tt,
        [Sent DeleteObject;
         ConsoleWarn "Error deleting file from storage:"
           "storage/object-not-found";
         Sent DeleteDocument; Sent GetFolders; Page DocumentsLibrary]).
Proof.
  pose proof backend_failure_handling as H.
  split; [apply (proj1 H); reflexivity|].
  split; reflexivity.
Defined.

End FailureFacts.

(** ** The stage module over its whole life *)

Module StagesLifecycleFacts.
Import Firestore OnboardingStages.

Lemma usable_stages_nonempty snap l : usable_stages snap = Some l -> l <> [].
Proof.
  unfold usable_stages. destruct snap as [data|]; [|discriminate].
  destruct (Js.value_truthy _); [|discriminate].
  intros H. by apply JsFacts.nonempty_array_Some in H as [_ ?].
Qed.

Lemma usable_stages_data l :
  l <> [] -> usable_stages (Some (stages_data l)) = Some l.
Proof. destruct l; [done | reflexivity]. Qed.




(** X3.  The two writes differ in what they do to the rest of the stored
    settings document: the write by which a load initialises the stages
    merges, so every other stored field survives, while a save replaces
    the document, so every other field is gone. *)
Theorem initialising_merges_saving_replaces (w : world) (f : string) :
  f <> "stages" -> f <> "updatedAt" ->
  (forall snap u,
     cachedStages w = None -> stagesPromise w = None ->
     usable_stages snap = None ->
     exists w' d,
       load_all (Resolved snap) (Resolved u) w = (Some DEFAULT_STAGES, w')
       /\ settingsDoc w' = Some d
       /\ d !! "stages" = Some (Js.VArr DEFAULT_STAGES)
       /\ d !! f = default ∅ (settingsDoc w) !! f) /\
  (forall l u,
     l <> [] ->
     exists w' d,
       saveOnboardingStages (Js.VArr l) (Resolved u) w = (Done, w')
       /\ settingsDoc w' = Some d
       /\ d !! "stages" = Some (Js.VArr l)
       /\ d !! f = None).
Proof.
  intros Hf1 Hf2.
  assert (forall l, stages_data l !! f = None) as Hnone.
  { intros l. unfold stages_data.
    rewrite lookup_insert_ne by done. by rewrite lookup_singleton_ne. }
  split.
  - intros snap u Hc Hp Hu. unfold load_all, loadOnboardingStages.
    rewrite Hc, Hp. unfold getDoc_settled. simpl.
    rewrite lookup_insert_eq, Hu. unfold setDoc_settled. simpl.
    rewrite lookup_insert_eq. simpl.
    eexists _, _. split; [by rewrite lookup_insert_eq|].
    split; [reflexivity|]. split.
    + apply lookup_union_Some_l. reflexivity.
    + rewrite lookup_union_r by apply Hnone. reflexivity.
  - intros l u Hl. rewrite OnboardingStagesFacts.save_resolved by done.
    eexists _, _. split; [reflexivity|]. split; [reflexivity|].
    split; [reflexivity | apply Hnone].
Qed.

Lemma initialising_merges_saving_replaces_witness :
  let w := set_settingsDoc (Some {[ "theme" := Js.VStr "dark" ]}) initial in
  (exists w' d,
     load_all (Resolved (Some {[ "theme" := Js.VStr "dark" ]})) (Resolved tt) w
     = (Some DEFAULT_STAGES, w')
     /\ settingsDoc w' = Some d /\ d !! "theme" = Some (Js.VStr "dark"))
  /\ (exists w' d,
        saveOnboardingStages (Js.VArr ["Kickoff"]) (Resolved tt) w = (Done, w')
        /\ settingsDoc w' = Some d /\ d !! "theme" = None).
Proof.
  intros w.
  destruct (initialising_merges_saving_replaces w "theme")
    as [Hload Hsave]; [discriminate | discriminate |].
  split.
  - destruct (Hload (Some {[ "theme" := Js.VStr "dark" ]}) tt)
      as (w' & d & E & Hd & _ & Hf); [reflexivity..|].
    exists w', d. split; [exact E|]. split; [exact Hd | exact Hf].
  - destruct (Hsave ["Kickoff"] tt) as (w' & d & E & Hd & _ & Hf);
      [discriminate|].
    exists w', d. split; [exact E|]. split; [exact Hd | exact Hf].
Defined.

(** X4.  On a list without duplicates, [getNextStage] walks the list: the
    stage after the one at position [i] is the one at position [i + 1],
    and [null] after the last.  (The stage must not be the empty string,
    which counts as no stage.) *)
Theorem next_stage_walks_the_list (w : world) (l : list string) (i : nat)
    (s : string) :
  NoDup l -> l !! i = Some s -> s <> "" ->
  getNextStage w (Some s) (Some l) = l !! S i.
Proof.
  intros Hnd Hi Hs.
  rewrite (OnboardingStagesFacts.getNextStage_found w s (Some l)
             (take i l) (drop (S i) l)); [|done|].
  - rewrite head_lookup, lookup_drop. f_equal. lia.
  - split; [symmetry; by apply take_drop_middle|].
    intros Hin. apply list_elem_of_In in Hin.
    rewrite <- (take_drop_middle l i s Hi) in Hnd.
    apply NoDup_app in Hnd as (_ & Hdisj & _).
    apply (Hdisj s Hin). by left.
Qed.

Lemma next_stage_walks_the_list_witness :
  getNextStage initial (Some "Testing") (Some ["Intake"; "Testing"; "Go Live"])
  = Some "Go Live".
Proof.
  apply (next_stage_walks_the_list initial ["Intake"; "Testing"; "Go Live"] 1).
  - apply (bool_decide_unpack (NoDup ["Intake"; "Testing"; "Go Live"])).
    by vm_compute.
  - reflexivity.
  - discriminate.
Defined.

(** With a duplicate the walk is stuck: the stage after the second
    [Review] is looked up from the first one. *)
Example next_stage_with_duplicate :
  getNextStage initial (Some "Review") (Some ["Review"; "Build"; "Review"; "Ship"])
  = Some "Build".
Proof. reflexivity. Qed.

End StagesLifecycleFacts.

(** ** The stage module and the arrays it shares *)

Module SharedArraysFacts.
Import Firestore OnboardingStages StagesLifecycle.

Lemma contents_kept st l r :
  contents st r <> [] -> default [] ((arrays st ++ [l]) !! r) = contents st r.
Proof.
  unfold contents. intros H.
  destruct (arrays st !! r) as [x|] eqn:E; [|done].
  by rewrite (lookup_app_l_Some _ _ _ _ E).
Qed.

Lemma contents_changed st r l r' :
  l <> [] -> contents st r' <> [] ->
  default [] (<[r := l]> (arrays st) !! r') <> [].
Proof.
  unfold contents. intros Hl H.
  destruct (decide (r = r')) as [->|Hne].
  - destruct (arrays st !! r') as [x|] eqn:E; [|done].
    rewrite list_lookup_insert_eq; [done|]. by eapply lookup_lt_Some.
  - by rewrite list_lookup_insert_ne.
Qed.

Lemma stocked_start : stocked start.
Proof. repeat split; intros *; simpl; [done | done | |]; by rewrite lookup_empty. Qed.

(** The module's own steps never change what an array holds, and keep
    only arrays that are not empty when they take them. *)
Lemma stocked_arrays_kept st st' :
  arrays st' = arrays st ->
  (forall r, cached st' = Some r ->
             r = DEFAULT \/ cached st = Some r
             \/ (exists p, resolved_loads st' !! p = Some r)
             \/ exists k data, saving st !! k = Some (r, data)) ->
  (forall p r, resolved_loads st' !! p = Some r ->
               r = DEFAULT \/ exists q, resolved_loads st !! q = Some r) ->
  (forall k r data, saving st' !! k = Some (r, data) ->
                    contents st r <> []) ->
  stocked st -> stocked st'.
Proof.
  intros Ha Hc Hr Hs (Hd & Hc0 & Hr0 & Hs0).
  assert (forall r, contents st' r = contents st r) as Hsame
    by (intros r; unfold contents; by rewrite Ha).
  assert (forall p r, resolved_loads st' !! p = Some r -> contents st r <> [])
    as Hr'.
  { intros p r H. destruct (Hr p r H) as [->|[q Hq]]; [done | by eapply Hr0]. }
  split; [by rewrite Hsame|]. split; [|split].
  - intros r H. rewrite Hsame.
    destruct (Hc r H) as [->|[H0|[[p Hp]|(k & data & Hk)]]];
      [done | by apply Hc0 | by eapply Hr' | by eapply Hs0].
  - intros p r H. rewrite Hsame. by eapply Hr'.
  - intros k r data H. rewrite Hsame. by eapply Hs.
Qed.

Ltac keep_cached := simpl; intros r0 H0; right; by left.
Ltac keep_resolved := simpl; intros q0 r0 H0; right; by exists q0.
Ltac default_resolved p :=
  simpl; intros q0 r0; destruct (decide (p = q0)) as [->|Hne];
  [ rewrite lookup_insert_eq; intros [= <-]; by left
  | rewrite lookup_insert_ne by done; intros H0; right; by exists q0 ].

Lemma perform_stocked st op :
  (forall r l, op = Mutate r l -> l <> []) ->
  stocked st -> stocked (perform st op).
Proof.
  intros Hop Hst. pose proof Hst as (Hd & Hc & Hr & Hs).
  destruct op as [|p answer|p answer|stages|k answer| |l|r l]; simpl.
  - unfold load_called. destruct (cached st) eqn:E; [done|].
    destruct (loading st); [done|]. simpl.
    apply (stocked_arrays_kept st);
      [done | simpl; by intros | keep_resolved | exact Hs | exact Hst].
  - unfold getDoc_settled.
    destruct (parked_loads st !! p) as [[|data]|]; try done.
    destruct answer as [snap|error].
    + destruct (usable_stages snap) as [l|] eqn:Hu.
      * apply StagesLifecycleFacts.usable_stages_nonempty in Hu.
        unfold finish. repeat split; simpl; unfold contents; simpl.
        -- by rewrite contents_kept.
        -- intros r [= <-]. by rewrite lookup_app_r, Nat.sub_diag by lia.
        -- intros q r. destruct (decide (p = q)) as [->|Hne].
           ++ rewrite lookup_insert_eq. intros [= <-].
              by rewrite lookup_app_r, Nat.sub_diag by lia.
           ++ rewrite lookup_insert_ne by done. intros H.
              rewrite contents_kept; by eapply Hr.
        -- intros k r data H. rewrite contents_kept; by eapply Hs.
      * apply (stocked_arrays_kept st);
          [done | keep_cached | keep_resolved | exact Hs | exact Hst].
    + unfold load_failed, finish.
      apply (stocked_arrays_kept st);
        [done | simpl; intros r [= <-]; by left | default_resolved p
        | exact Hs | exact Hst].
  - unfold setDoc_settled.
    destruct (parked_loads st !! p) as [[|data]|]; try done.
    destruct answer as [u|error]; unfold load_failed, finish;
      (apply (stocked_arrays_kept st);
        [done | simpl; intros r [= <-]; by left | default_resolved p
        | exact Hs | exact Hst]).
  - unfold save_called. destruct stages as [r|]; [|done].
    destruct (arrays st !! r) as [[|x l]|] eqn:E; try done. simpl.
    apply (stocked_arrays_kept st);
      [done | keep_cached | keep_resolved | | exact Hst].
    simpl. intros k r' data. destruct (decide (next_save st = k)) as [->|Hne].
    + rewrite lookup_insert_eq. intros [= <- <-].
      unfold contents. by rewrite E.
    + rewrite lookup_insert_ne by done. apply Hs.
  - unfold save_settled.
    destruct (saving st !! k) as [[r data]|] eqn:E; [|done].
    assert (forall k' r' data',
              delete k (saving st) !! k' = Some (r', data') ->
              contents st r' <> []) as Hs'.
    { intros k' r' data'. destruct (decide (k = k')) as [->|Hne].
      - by rewrite lookup_delete_eq.
      - rewrite lookup_delete_ne by done. apply Hs. }
    destruct answer as [u|error].
    + apply (stocked_arrays_kept st);
        [done | | keep_resolved | exact Hs' | exact Hst].
      simpl. intros r' [= <-]. right. right. right. by exists k, data.
    + apply (stocked_arrays_kept st);
        [done | keep_cached | keep_resolved | exact Hs' | exact Hst].
  - apply (stocked_arrays_kept st);
      [done | simpl; by intros | keep_resolved | exact Hs | exact Hst].
  - repeat split; simpl; unfold contents; simpl.
    + by rewrite contents_kept.
    + intros r H. rewrite contents_kept; by apply Hc.
    + intros q r H. rewrite contents_kept; by eapply Hr.
    + intros k r data H. rewrite contents_kept; by eapply Hs.
  - pose proof (Hop r l eq_refl) as Hl.
    repeat split; simpl; unfold contents; simpl.
    + by apply contents_changed.
    + intros r' H. apply contents_changed; [done | by apply Hc].
    + intros q r' H. apply contents_changed; [done | by eapply Hr].
    + intros k r' data H. apply contents_changed; [done | by eapply Hs].
Qed.

(** X1.  The module keeps and hands out the arrays themselves, so their
    holders can change what it has cached.  Whatever the order of loads,
    saves, clears, backend answers and changes that callers make to
    arrays since the module was loaded: as long as no caller empties an
    array, no array the module holds is empty, neither
    [DEFAULT_STAGES], nor the cached array, nor an array a load was
    resolved with, nor one a pending save is about to cache; so the array
    that [getStages] returns is not empty. *)
Theorem stages_emptied_only_by_callers (ops : list operation) :
  (forall r l, Mutate r l ∈ ops -> l <> []) ->
  stocked (history ops)
  /\ contents (history ops) (getStages (history ops)) <> [].
Proof.
  intros Hops.
  assert (stocked (history ops)) as Hst.
  { unfold history. revert Hops. generalize stocked_start. generalize start.
    induction ops as [|op ops IH]; intros st Hst Hops; [exact Hst|].
    simpl. apply IH.
    - apply perform_stocked; [|done].
      intros r l ->. apply (Hops r l), list_elem_of_here.
    - intros r l H. apply (Hops r l), list_elem_of_further, H. }
  split; [exact Hst|].
  destruct Hst as (Hd & Hc & _).
  unfold getStages. destruct (cached _) as [r|] eqn:E; simpl;
    [by apply Hc | exact Hd].
Qed.

Lemma stages_emptied_only_by_callers_witness :
  contents
    (history [NewArray ["Intake"]; CallSave (Array 1); Mutate 1 ["Kickoff"];
              AnswerSave 0 (Resolved tt)])
    (getStages
       (history [NewArray ["Intake"]; CallSave (Array 1);
                 Mutate 1 ["Kickoff"]; AnswerSave 0 (Resolved tt)]))
  <> [].
Proof.
  apply (stages_emptied_only_by_callers
           [NewArray ["Intake"]; CallSave (Array 1); Mutate 1 ["Kickoff"];
            AnswerSave 0 (Resolved tt)]).
  intros r l H.
  repeat (apply elem_of_cons in H as [H|H]; [by simplify_eq|]).
  by apply not_elem_of_nil in H.
Defined.

(** The sharing is real: a caller that empties the array it has saved
    empties the cache, and one that empties the array it got from
    [getStages] empties [DEFAULT_STAGES] for everyone. *)
Example emptied_by_the_caller :
  let saved := history [NewArray ["Intake"]; CallSave (Array 1);
                        AnswerSave 0 (Resolved tt); Mutate 1 []] in
  let received := history [Mutate (getStages start) []; CallClear] in
  cached saved = Some 1
  /\ contents saved (getStages saved) = []
  /\ contents received (getStages received) = [].
Proof. by repeat split. Qed.

(** *** Agreement with the by-value machine *)

Lemma contents_extended st l (refs : gmap nat nat) :
  (forall p r, refs !! p = Some r -> r < length (arrays st)) ->
  (fun r => default [] ((arrays st ++ [l]) !! r)) <$> refs
  = contents st <$> refs.
Proof.
  intros Hv. apply map_fmap_ext. intros p r H. unfold contents.
  by rewrite lookup_app_l by (by eapply Hv).
Qed.

(** As long as no array the module holds has been changed, each of its
    steps is the step of the by-value machine of [OnboardingStages] on
    what the arrays hold; a save is its call followed at once by its
    answer. *)
Lemma module_steps_by_value st :
  untouched st ->
  by_value (load_called st).2
    = (OnboardingStages.loadOnboardingStages (by_value st)).2 /\
  (forall p answer,
     by_value (getDoc_settled p answer st)
     = OnboardingStages.getDoc_settled p answer (by_value st)) /\
  (forall p answer,
     by_value (setDoc_settled p answer st)
     = OnboardingStages.setDoc_settled p answer (by_value st)) /\
  (forall r l answer,
     arrays st !! r = Some l -> l <> [] ->
     by_value (save_settled (next_save st) answer (save_called (Array r) st).2)
     = (saveOnboardingStages (Js.VArr l) answer (by_value st)).2) /\
  by_value (cleared st) = clearStagesCache (by_value st).
Proof.
  intros (Hd & Hc & Hr & _ & Hp).
  assert (contents st DEFAULT = DEFAULT_STAGES) as Hdc
    by (unfold contents; by rewrite Hd).
  pose proof (fun l => contents_extended st l (resolved_loads st) Hr) as Hext.
  destruct st as [a c lo pl rl nl sv ns se lg sd].
  unfold by_value, contents in *. simpl in *.
  split; [|split; [|split; [|split]]].
  - unfold load_called, OnboardingStages.loadOnboardingStages. simpl.
    destruct c; simpl; [done|]. destruct lo; simpl; [done|].
    by rewrite fmap_insert.
  - intros p answer.
    unfold getDoc_settled, OnboardingStages.getDoc_settled. simpl.
    rewrite lookup_fmap.
    destruct (pl !! p) as [[|data]|]; simpl; try done.
    destruct answer as [snap|error].
    + destruct (usable_stages snap) as [l|]; simpl.
      * unfold OnboardingStages.finish. simpl.
        rewrite lookup_app_r, Nat.sub_diag by lia. simpl.
        rewrite fmap_delete, fmap_insert.
        rewrite lookup_app_r, Nat.sub_diag by lia. simpl.
        by rewrite Hext.
      * unfold send, set_suspended, contents. simpl.
        by rewrite fmap_insert, Hdc.
    + unfold OnboardingStages.load_failed, OnboardingStages.finish, contents.
      simpl. by rewrite fmap_delete, fmap_insert, Hdc.
  - intros p answer.
    unfold setDoc_settled, OnboardingStages.setDoc_settled. simpl.
    rewrite lookup_fmap.
    destruct (pl !! p) as [[|data]|] eqn:E; simpl; try done.
    rewrite (Hp p data E).
    destruct answer as [u|error];
      unfold OnboardingStages.load_failed, OnboardingStages.finish, contents;
      simpl; by rewrite fmap_delete, fmap_insert, Hdc.
  - intros r l answer E Hl.
    unfold save_called, save_settled, saveOnboardingStages. simpl. rewrite E.
    destruct l as [|x l]; [done|]. simpl. rewrite lookup_insert_eq.
    destruct answer as [u|error]; simpl; by rewrite ?E.
  - done.
Qed.

(** Without a change by a caller, the arrays the module holds stay
    untouched through every history. *)
Lemma untouched_history ops :
  (forall r l, Mutate r l ∉ ops) -> untouched (history ops).
Proof.
  assert (untouched start) as Hstart.
  { repeat split; intros *; simpl; try done; by rewrite lookup_empty. }
  unfold history. revert Hstart. generalize start.
  induction ops as [|op ops IH]; intros st Hst Hops; [exact Hst|].
  simpl. apply IH; [|intros r l H; apply (Hops r l), list_elem_of_further, H].
  assert (forall r l, op <> Mutate r l) as Hop
    by (intros r l ->; apply (Hops r l), list_elem_of_here).
  clear IH Hops. destruct Hst as (Hd & Hc & Hr & Hs & Hp).
  destruct st as [a c lo pl rl nl sv ns se lg sd]. simpl in *.
  assert (0 < length a) as Hlen by (by eapply lookup_lt_Some).
  assert (forall p (r : nat) q r',
            r < length a ->
            <[p := r]> rl !! q = Some r' -> r' < length a) as Hins.
  { intros p r q r' Hlt. destruct (decide (p = q)) as [->|Hne].
    - rewrite lookup_insert_eq. by intros [= <-].
    - rewrite lookup_insert_ne by done. apply Hr. }
  assert (forall p q data,
            delete p pl !! q = Some (ForSetDoc data) ->
            data = stages_data DEFAULT_STAGES) as Hdel.
  { intros p q data. destruct (decide (p = q)) as [->|Hne].
    - by rewrite lookup_delete_eq.
    - rewrite lookup_delete_ne by done. apply Hp. }
  assert (forall k k' r data,
            delete k sv !! k' = Some (r, data) -> r < length a) as Hsdel.
  { intros k k' r data. destruct (decide (k = k')) as [->|Hne].
    - by rewrite lookup_delete_eq.
    - rewrite lookup_delete_ne by done. apply Hs. }
  destruct op as [|p answer|p answer|stages|k answer| |l|r l]; simpl.
  - unfold load_called. simpl.
    destruct c; [by repeat split|]. destruct lo; [by repeat split|].
    simpl. repeat split; simpl; try done.
    intros q data. destruct (decide (nl = q)) as [->|Hne].
    + by rewrite lookup_insert_eq.
    + rewrite lookup_insert_ne by done. apply Hp.
  - unfold getDoc_settled. simpl.
    destruct (pl !! p) as [[|data]|] eqn:E; try (by repeat split).
    destruct answer as [snap|error].
    + destruct (usable_stages snap) as [l|]; simpl.
      * repeat split; simpl.
        -- by rewrite lookup_app_l.
        -- intros r [= <-]. rewrite length_app. simpl. lia.
        -- intros q r' H. rewrite length_app. simpl.
           destruct (decide (p = q)) as [->|Hne].
           ++ rewrite lookup_insert_eq in H. injection H as <-. lia.
           ++ rewrite lookup_insert_ne in H by done.
              pose proof (Hr q r' H). lia.
        -- intros k r data H. rewrite length_app. pose proof (Hs k r data H).
           lia.
        -- apply Hdel.
      * repeat split; simpl; try done.
        intros q data. destruct (decide (p = q)) as [->|Hne].
        -- rewrite lookup_insert_eq. intros [= <-].
           unfold contents. simpl. by rewrite Hd.
        -- rewrite lookup_insert_ne by done. apply Hp.
    + repeat split; simpl; try done.
      * by intros r [= <-].
      * intros q r'. by apply Hins.
      * apply Hdel.
  - unfold setDoc_settled. simpl.
    destruct (pl !! p) as [[|data]|] eqn:E; try (by repeat split).
    destruct answer as [u|error]; repeat split; simpl; try done;
      try (by intros r [= <-]); try (intros q r'; by apply Hins);
      apply Hdel.
  - unfold save_called. destruct stages as [r|]; [|by repeat split]. simpl.
    destruct (a !! r) as [[|x l]|] eqn:E; try (by repeat split).
    simpl. repeat split; simpl; try done.
    intros k r' data. destruct (decide (ns = k)) as [->|Hne].
    + rewrite lookup_insert_eq. intros [= <- <-]. by eapply lookup_lt_Some.
    + rewrite lookup_insert_ne by done. apply Hs.
  - unfold save_settled. simpl.
    destruct (sv !! k) as [[r data]|] eqn:E; [|by repeat split].
    destruct answer as [u|error]; repeat split; simpl; try done;
      try apply Hsdel.
    intros r' [= <-]. by eapply Hs.
  - by repeat split.
  - repeat split; simpl.
    + by rewrite lookup_app_l.
    + intros r H. rewrite length_app. pose proof (Hc r H). lia.
    + intros q r H. rewrite length_app. pose proof (Hr q r H). lia.
    + intros k r data H. rewrite length_app. pose proof (Hs k r data H). lia.
    + exact Hp.
  - by destruct (Hop r l).
Qed.

End SharedArraysFacts.

(** ** Markup helpers *)

Module MarkupFacts.
Import Markup.

Lemma append_cons a s t : String a s +:+ t = String a (s +:+ t).
Proof. reflexivity. Qed.

Lemma append_nil_l t : "" +:+ t = t.
Proof. reflexivity. Qed.

Lemma append_assoc s t u : (s +:+ t) +:+ u = s +:+ (t +:+ u).
Proof.
  induction s as [|a s IH]; [reflexivity|].
  rewrite !append_cons. by rewrite IH.
Qed.

Lemma replace_all_app c b s t :
  replace_all c b (s +:+ t) = replace_all c b s +:+ replace_all c b t.
Proof.
  induction s as [|a s IH]; [reflexivity|].
  rewrite append_cons. simpl. rewrite IH.
  destruct (Ascii.eqb a c); [|reflexivity].
  symmetry. apply append_assoc.
Qed.

Lemma occurs_app c s t : occurs c (s +:+ t) = occurs c s || occurs c t.
Proof.
  induction s as [|a s IH]; [reflexivity|].
  rewrite append_cons. simpl. rewrite IH. by rewrite orb_assoc.
Qed.

Lemma replace_all_absent c b s : occurs c s = false -> replace_all c b s = s.
Proof.
  induction s as [|a s IH]; [reflexivity|]. simpl.
  intros [Ha Hs]%orb_false_elim. rewrite Ha. by rewrite IH.
Qed.

(** The five passes of [escapeHtml] amount to escaping each character on
    its own: the ampersands that the later passes write are not escaped
    again, because [&] is handled first. *)
Lemma escapeHtml_each s : escapeHtml (Some s) = escape_each s.
Proof.
  unfold escapeHtml. induction s as [|a s IH]; [reflexivity|].
  simpl. unfold entity.
  destruct (Ascii.eqb a amp) eqn:E1.
  { rewrite !replace_all_app, IH. reflexivity. }
  simpl.
  destruct (Ascii.eqb a quot) eqn:E2.
  { rewrite !replace_all_app, IH. reflexivity. }
  simpl.
  destruct (Ascii.eqb a apos) eqn:E3.
  { rewrite !replace_all_app, IH. reflexivity. }
  simpl.
  destruct (Ascii.eqb a lt) eqn:E4.
  { rewrite !replace_all_app, IH. reflexivity. }
  simpl.
  destruct (Ascii.eqb a gt) eqn:E5.
  { rewrite IH. reflexivity. }
  rewrite IH. reflexivity.
Qed.

Lemma entity_clean c a : markup_char c -> occurs c (entity a) = false.
Proof.
  intros Hc. unfold entity.
  destruct (Ascii.eqb_spec a amp);
    [by destruct Hc as [->|[->|[->| ->]]]|].
  destruct (Ascii.eqb_spec a quot);
    [by destruct Hc as [->|[->|[->| ->]]]|].
  destruct (Ascii.eqb_spec a apos);
    [by destruct Hc as [->|[->|[->| ->]]]|].
  destruct (Ascii.eqb_spec a lt);
    [by destruct Hc as [->|[->|[->| ->]]]|].
  destruct (Ascii.eqb_spec a gt);
    [by destruct Hc as [->|[->|[->| ->]]]|].
  simpl. rewrite orb_false_r. apply Ascii.eqb_neq.
  by destruct Hc as [->|[->|[->| ->]]].
Qed.

Lemma escape_each_clean c s : markup_char c -> occurs c (escape_each s) = false.
Proof.
  intros Hc. induction s as [|a s IH]; [reflexivity|].
  simpl. by rewrite occurs_app, entity_clean, IH.
Qed.

Lemma entity_inj a b r1 r2 :
  entity a +:+ r1 = entity b +:+ r2 -> a = b /\ r1 = r2.
Proof.
  unfold entity.
  destruct (Ascii.eqb_spec a amp) as [->|Ha1];
  [|destruct (Ascii.eqb_spec a quot) as [->|Ha2];
  [|destruct (Ascii.eqb_spec a apos) as [->|Ha3];
  [|destruct (Ascii.eqb_spec a lt) as [->|Ha4];
  [|destruct (Ascii.eqb_spec a gt) as [->|Ha5]]]]];
  (destruct (Ascii.eqb_spec b amp) as [->|Hb1];
  [|destruct (Ascii.eqb_spec b quot) as [->|Hb2];
  [|destruct (Ascii.eqb_spec b apos) as [->|Hb3];
  [|destruct (Ascii.eqb_spec b lt) as [->|Hb4];
  [|destruct (Ascii.eqb_spec b gt) as [->|Hb5]]]]]);
  cbv [append]; intros H; try discriminate H;
  try (injection H as ?; subst; done);
  try (injection H as ? ?; subst; done).
Qed.

Lemma escape_each_inj s1 s2 : escape_each s1 = escape_each s2 -> s1 = s2.
Proof.
  revert s2. induction s1 as [|a s1 IH]; intros [|b s2]; simpl.
  - done.
  - unfold entity. repeat (destruct (Ascii.eqb b _)); discriminate.
  - unfold entity. repeat (destruct (Ascii.eqb a _)); discriminate.
  - intros [-> H]%entity_inj. by rewrite (IH s2 H).
Qed.

(** X5.  [escapeHtml] returns the empty string for [null], and for a
    string the text in which each of the five characters [&], double
    quote, apostrophe, [<] and [>] is replaced by its entity and nothing
    else is changed (no entity is escaped twice).  Its output never
    contains a double quote, an apostrophe, [<] or [>], so it cannot close
    the attribute or the element it is written into, and different
    strings are escaped to different texts. *)
Theorem escapeHtml_safe (value : option string) :
  escapeHtml None = "" /\
  (forall s, escapeHtml (Some s) = escape_each s) /\
  (forall c, markup_char c -> occurs c (escapeHtml value) = false) /\
  (forall s, occurs amp s = false -> occurs quot s = false ->
             occurs apos s = false -> occurs lt s = false ->
             occurs gt s = false -> escapeHtml (Some s) = s) /\
  (forall s1 s2, escapeHtml (Some s1) = escapeHtml (Some s2) -> s1 = s2).
Proof.
  split; [reflexivity|]. split; [apply escapeHtml_each|].
  split; [|split].
  - intros c Hc. destruct value as [s|]; [|reflexivity].
    rewrite escapeHtml_each. by apply escape_each_clean.
  - intros s H1 H2 H3 H4 H5. unfold escapeHtml.
    by rewrite (replace_all_absent amp), (replace_all_absent quot),
      (replace_all_absent apos), (replace_all_absent lt),
      (replace_all_absent gt).
  - intros s1 s2. rewrite !escapeHtml_each. apply escape_each_inj.
Qed.

Lemma escapeHtml_safe_witness :
  occurs lt (escapeHtml (Some "<b>R&D</b>")) = false
  /\ escapeHtml (Some "Go Live") = "Go Live".
Proof.
  split.
  - apply (escapeHtml_safe (Some "<b>R&D</b>")). right. right. by left.
  - by apply (escapeHtml_safe None).
Defined.

Example escapeHtml_no_double_escape :
  escapeHtml (Some "<b>R&D</b>") = "&lt;b&gt;R&amp;D&lt;/b&gt;".
Proof. reflexivity. Qed.

End MarkupFacts.

(** ** The session and the navigation bar *)

Module ShellFacts.
Import Firestore Pages Shell.

Lemma or_else_truthy a b :
  Js.truthy b = true \/ b = None ->
  Js.truthy (or_else a b) = true \/ or_else a b = None.
Proof. unfold or_else. destruct (Js.truthy a) eqn:E; [by left | done]. Qed.

Lemma denied_partners userRole partnerId be :
  Partners.partnersQuery userRole partnerId = None ->
  Partners.renderPartnersPage userRole partnerId be blank
  = (Returned tt, mkPage [] [] AccessDenied).
Proof. intros H. unfold Partners.renderPartnersPage. by rewrite H. Qed.

Lemma denied_documents userRole partnerId be :
  Documents.documentsQuery userRole partnerId = None ->
  Documents.renderDocumentsPage userRole partnerId be blank
  = (Returned tt, mkPage [] [] AccessDenied).
Proof. intros H. unfold Documents.renderDocumentsPage. by rewrite H. Qed.

Lemma denied_templates userRole partnerId be :
  Templates.templatesQuery userRole partnerId = None ->
  Templates.renderTemplatesPage userRole partnerId be blank
  = (Returned tt, mkPage [] [] AccessDenied).
Proof. intros H. unfold Templates.renderTemplatesPage. by rewrite H. Qed.

Lemma default_library userRole partnerId be :
  DocumentsLibrary.documentsQuery userRole partnerId None = None ->
  DocumentsLibrary.renderDocumentsPage userRole partnerId be blank
  = match answer_getDocs be DocumentsLibrary.foldersCol with
    | Resolved folders =>
        (Returned tt,
         mkPage [GetDocs DocumentsLibrary.foldersCol] []
                (Library [] (rows_of folders)))
    | Rejected error =>
        (Thrown error, mkPage [GetDocs DocumentsLibrary.foldersCol] [] Loading)
    end.
Proof.
  intros H.
  unfold DocumentsLibrary.renderDocumentsPage, DocumentsLibrary.renderPage,
    DocumentsLibrary.loadDocuments, DocumentsLibrary.loadFolders.
  rewrite H. unfold mbind, M_bind, mret, M_ret, show, getDocs, await. simpl.
  by destruct (answer_getDocs be DocumentsLibrary.foldersCol).
Qed.

(** X6.  How the auth-state callback ends for a signed-in user.  It
    throws before anything is rendered when the read of the user
    document is rejected, and throws at [displayName.split], before the
    router is started, when neither the auth profile nor the user
    document has a name and the e-mail is [null].  Otherwise the session
    it hands to the router never has an empty role or an empty-string
    scope (a missing or empty [partnerId] becomes [null]).  A user whose
    user document is missing, or has no role, gets the role [default]:
    for it the partners page, the templates page and the flat revision of
    the documents page show the access-denied message and send no read,
    while the folder revision of the documents page denies nothing: it
    reads the folders collection and shows the library, with the folders
    and no documents. *)
Theorem default_session_access (authDisplayName authEmail : option string)
    (answer : response (option userData)) (be : backend) :
  match resolveSession authDisplayName authEmail answer with
  | Routed s =>
      userRole s <> "" /\
      (scope s = None \/ exists pid, scope s = Some pid /\ pid <> "") /\
      ((answer = Resolved None \/
        exists d, answer = Resolved (Some d) /\ Js.truthy (role d) = false) ->
       userRole s = "default"
       /\ Partners.renderPartnersPage (userRole s) (scope s) be blank
          = (Returned tt, mkPage [] [] AccessDenied)
       /\ Documents.renderDocumentsPage (userRole s) (scope s) be blank
          = (Returned tt, mkPage [] [] AccessDenied)
       /\ Templates.renderTemplatesPage (userRole s) (scope s) be blank
          = (Returned tt, mkPage [] [] AccessDenied)
       /\ DocumentsLibrary.renderDocumentsPage (userRole s) (scope s) be blank
          = match answer_getDocs be DocumentsLibrary.foldersCol with
            | Resolved folders =>
                (Returned tt,
                 mkPage [GetDocs DocumentsLibrary.foldersCol] []
                        (Library [] (rows_of folders)))
            | Rejected error =>
                (Thrown error,
                 mkPage [GetDocs DocumentsLibrary.foldersCol] [] Loading)
            end)
  | ReadRejected error => answer = Rejected error
  | SplitOfNull =>
      Js.truthy authDisplayName = false /\ authEmail = None /\
      exists userDocSnap,
        answer = Resolved userDocSnap
        /\ forall d, userDocSnap = Some d -> Js.truthy (displayName d) = false
  end /\
  (forall userDocSnap,
     Js.truthy authDisplayName = false -> authEmail = None ->
     answer = Resolved userDocSnap ->
     (forall d, userDocSnap = Some d -> Js.truthy (displayName d) = false) ->
     resolveSession authDisplayName authEmail answer = SplitOfNull).
Proof.
  split; cycle 1.
  { intros userDocSnap H1 -> -> Hd. unfold resolveSession, or_else.
    rewrite H1. destruct userDocSnap as [d|]; [|done].
    by rewrite (Hd d eq_refl). }
  unfold resolveSession. destruct answer as [userDocSnap|error]; [|done].
  set (displayName0 := or_else authDisplayName authEmail).
  assert (displayName0 = None ->
          Js.truthy authDisplayName = false /\ authEmail = None) as Hnone.
  { subst displayName0. unfold or_else.
    destruct (Js.truthy authDisplayName) eqn:E; [|done].
    intros ->. discriminate. }
  assert (forall userRole partnerId,
            userRole = "default" ->
            Partners.renderPartnersPage userRole partnerId be blank
            = (Returned tt, mkPage [] [] AccessDenied)
            /\ Documents.renderDocumentsPage userRole partnerId be blank
               = (Returned tt, mkPage [] [] AccessDenied)
            /\ Templates.renderTemplatesPage userRole partnerId be blank
               = (Returned tt, mkPage [] [] AccessDenied)
            /\ DocumentsLibrary.renderDocumentsPage userRole partnerId be blank
               = match answer_getDocs be DocumentsLibrary.foldersCol with
                 | Resolved folders =>
                     (Returned tt,
                      mkPage [GetDocs DocumentsLibrary.foldersCol] []
                             (Library [] (rows_of folders)))
                 | Rejected error =>
                     (Thrown error,
                      mkPage [GetDocs DocumentsLibrary.foldersCol] [] Loading)
                 end) as Hdenied.
  { intros userRole partnerId ->.
    split; [|split; [|split]];
      [apply denied_partners | apply denied_documents
       | apply denied_templates | apply default_library];
      unfold Partners.partnersQuery, Documents.documentsQuery,
        Templates.templatesQuery, DocumentsLibrary.documentsQuery, role_query;
      simpl; by destruct partnerId. }
  destruct userDocSnap as [d|].
  - destruct (or_else (displayName d) displayName0) as [name|] eqn:Hname.
    + split; [|split].
      * simpl. unfold or_else. destruct (role d) as [r|]; simpl; [|done].
        destruct (Js.nonempty r) eqn:E; simpl; [|done].
        by apply JsFacts.nonempty_true.
      * simpl. unfold or_else.
        destruct (partnerId d) as [pid|]; simpl; [|by left].
        destruct (Js.nonempty pid) eqn:E; [|by left].
        right. exists pid. split; [done | by apply JsFacts.nonempty_true].
      * intros [[=] | (d' & [= <-] & Hd)]. simpl.
        assert (default "default" (or_else (role d) (Some "default"))
                = "default") as ->
          by (unfold or_else; by rewrite Hd).
        split; [done|]. by apply Hdenied.
    + unfold or_else in Hname.
      destruct (Js.truthy (displayName d)) eqn:E.
      * destruct (displayName d); discriminate.
      * destruct (Hnone Hname) as [H1 H2]. split; [done|]. split; [done|].
        exists (Some d). split; [done|]. by intros ? [= <-].
  - destruct displayName0 as [name|] eqn:Hname.
    + split; [done|]. split; [by left|]. intros _. simpl.
      split; [done|]. by apply Hdenied.
    + destruct (Hnone eq_refl) as [H1 H2]. split; [done|]. split; [done|].
      exists None. split; [done|]. intros ? [=].
Qed.

Lemma default_session_access_witness :
  DocumentsLibrary.renderDocumentsPage "default" None (serving sample_store)
    blank
  = (Returned tt,
     mkPage [GetDocs DocumentsLibrary.foldersCol] []
            (Library [] (rows_of (sample_store "folders"))))
  /\ Partners.renderPartnersPage "default" None (serving sample_store) blank
     = (Returned tt, mkPage [] [] AccessDenied).
Proof.
  pose proof (default_session_access (Some "Ada Lovelace")
                (Some "ada@example.org") (Resolved None)
                (serving sample_store)) as H.
  destruct H as [(_ & _ & H) _]. destruct H as (_ & Hp & _ & _ & Hl); [by left|].
  split; [exact Hl | exact Hp].
Defined.

(** A signed-in user without a name or an e-mail: the callback throws
    before the router is started. *)
Example nameless_user_is_not_routed :
  resolveSession None None (Resolved (Some (mkUserData (Some "admin") None None)))
  = SplitOfNull.
Proof. reflexivity. Qed.

Lemma detail_path_not_listed path id :
  Main.partnerDetailMatch path = Some id ->
  Main.normalizePath path = path
  /\ path <> "/partners" /\ path <> "/documents" /\ path <> "/templates".
Proof.
  intros (-> & Hid & _)%MainFacts.partnerDetailMatch_Some.
  destruct id as [|c id]; [done|].
  repeat split; try discriminate.
Qed.

Lemma active_links_cases path :
  active_links path
  = let n := Main.normalizePath path in
    if String.eqb n "/partners" then ["/partners"]
    else if String.eqb n "/documents" then ["/documents"]
    else if String.eqb n "/templates" then ["/templates"]
    else [].
Proof.
  unfold active_links, highlightActiveNav, main_nav.
  rewrite !fmap_cons, fmap_nil.
  change (Main.normalizePath "/partners") with "/partners".
  change (Main.normalizePath "/documents") with "/documents".
  change (Main.normalizePath "/templates") with "/templates".
  generalize (Main.normalizePath path). intros n. cbv zeta.
  rewrite !(String.eqb_sym n).
  destruct (String.eqb_spec "/partners" n) as [E1|E1],
           (String.eqb_spec "/documents" n) as [E2|E2],
           (String.eqb_spec "/templates" n) as [E3|E3];
    try congruence; reflexivity.
Qed.

(** X7.  The highlighted navigation link agrees with the dispatch: after
    [renderRoute(path)] the Partners, Documents or Templates link is the
    only highlighted one exactly when the path is dispatched to that
    page's renderer, and no link is highlighted otherwise (partner
    detail, settings, 404). *)
Theorem highlight_follows_dispatch (path userRole : string)
    (partnerId : option string) :
  active_links path
  = match Main.renderRoute path userRole partnerId with
    | Main.RenderPartnersPage _ _ => ["/partners"]
    | Main.RenderDocumentsPage _ _ => ["/documents"]
    | Main.RenderTemplatesPage _ _ => ["/templates"]
    | _ => []
    end.
Proof.
  rewrite active_links_cases. unfold Main.renderRoute. cbv zeta.
  destruct (Main.partnerDetailMatch path) as [id|] eqn:Hd.
  - destruct (detail_path_not_listed _ _ Hd) as (-> & H1 & H2 & H3).
    apply String.eqb_neq in H1, H2, H3. by rewrite H1, H2, H3.
  - destruct (String.eqb (Main.normalizePath path) "/partners"); [done|].
    destruct (String.eqb (Main.normalizePath path) "/documents"); [done|].
    destruct (String.eqb (Main.normalizePath path) "/templates"); [done|].
    by destruct (String.eqb (Main.normalizePath path) "/settings").
Qed.

End ShellFacts.

(** ** The roster's filters, forms and checklist *)

Module RosterFacts.
Import Firestore Roster.

Lemma set_add_loop l u :
  foldl set_add u l
  = u ++ filter (fun y => y ∉ u) (Settings.first_occurrences l).
Proof.
  revert u. induction l as [|x l IH]; intros u.
  { simpl. by rewrite app_nil_r. }
  change (foldl set_add u (x :: l)) with (foldl set_add (set_add u x) l).
  rewrite SettingsFacts.first_occurrences_cons, filter_cons.
  unfold set_add. destruct (decide (x ∈ u)) as [Hin|Hin].
  - rewrite bool_decide_eq_true_2 by done.
    rewrite decide_False by tauto. rewrite IH. f_equal.
    symmetry. apply list_filter_filter_l. by intros y Hy ->.
  - rewrite bool_decide_eq_false_2 by done.
    rewrite decide_True by done. rewrite IH, <- app_assoc. simpl.
    do 2 f_equal. rewrite list_filter_filter. apply list_filter_iff.
    intros y. rewrite elem_of_app, list_elem_of_singleton. tauto.
Qed.

(** A [Set] built from a list keeps the first occurrence of every entry. *)
Lemma distinct_first_occurrences l : distinct l = Settings.first_occurrences l.
Proof.
  unfold distinct. rewrite set_add_loop. simpl.
  apply SettingsFacts.filter_all, Forall_forall. intros x _.
  apply not_elem_of_nil.
Qed.

Lemma truthy_values_elem l x :
  x ∈ truthy_values l <-> x <> "" /\ Some x ∈ l.
Proof.
  unfold truthy_values. rewrite list_elem_of_omap. split.
  - intros (o & Ho & H). destruct o as [s|]; simpl in H; [|done].
    destruct (Js.nonempty s) eqn:E; [|done]. injection H as <-.
    by apply JsFacts.nonempty_true in E.
  - intros [Hx Hin]. exists (Some x). split; [done|]. simpl.
    apply JsFacts.nonempty_true in Hx. by rewrite Hx.
Qed.

Lemma distinct_values_elem (field : partner -> option string) partners x :
  x ∈ distinct_values field partners <->
  x <> "" /\ exists p, p ∈ partners /\ field p = Some x.
Proof.
  unfold distinct_values.
  rewrite distinct_first_occurrences, SettingsFacts.first_occurrences_elem.
  rewrite truthy_values_elem, list_elem_of_fmap. split.
  - intros [Hx (p & Hp & Hin)]. eauto.
  - intros [Hx (p & Hin & Hp)]. split; [done|]. eauto.
Qed.

Lemma distinct_values_spec (field : partner -> option string) partners :
  NoDup (distinct_values field partners) /\
  (forall x, x ∈ distinct_values field partners <->
             x <> "" /\ exists p, p ∈ partners /\ field p = Some x) /\
  distinct_values field partners
  = Settings.first_occurrences (truthy_values (field <$> partners)).
Proof.
  split; [|split; [apply distinct_values_elem|]].
  - unfold distinct_values. rewrite distinct_first_occurrences.
    apply SettingsFacts.first_occurrences_NoDup.
  - unfold distinct_values. apply distinct_first_occurrences.
Qed.

(** X8.  The arrays [stages], [psms] and [integrations] from which the
    partners page writes its three filter drop-downs hold exactly the
    non-empty values of the field among the loaded partners, each once,
    in the order in which they first occur.  (This is about the arrays:
    the entries are written unescaped into the markup, and what the
    browser offers is its reading of that markup.) *)
Theorem filter_arrays_hold_the_distinct_values (partners : list partner) :
  let holds_the_values_of (field : partner -> option string)
        (array : list string) :=
    NoDup array /\
    (forall x, x ∈ array <->
               x <> "" /\ exists p, p ∈ partners /\ field p = Some x) /\
    array = Settings.first_occurrences (truthy_values (field <$> partners)) in
  holds_the_values_of onboardingStatus (stages partners) /\
  holds_the_values_of psm (psms partners) /\
  holds_the_values_of integrationType (integrations partners).
Proof.
  intros holds_the_values_of.
  split; [|split]; apply distinct_values_spec.
Qed.

Section Text.
Variable toLowerCase : string -> string.
Variable trim : string -> string.

Lemma select_matches_true filter_ field :
  select_matches filter_ field = true <->
  (filter_ <> "" -> field = Some filter_).
Proof.
  unfold select_matches. destruct (Js.nonempty filter_) eqn:E.
  - apply JsFacts.nonempty_true in E. rewrite bool_decide_eq_true. tauto.
  - apply JsFacts.nonempty_false in E. tauto.
Qed.

Lemma shown_true c p :
  shown toLowerCase trim c p = true <->
  (searchTerm toLowerCase trim c <> "" ->
     field_includes toLowerCase (name p) (searchTerm toLowerCase trim c) = true
     \/ field_includes toLowerCase (partnerId p)
          (searchTerm toLowerCase trim c) = true)
  /\ (stageFilter c <> "" -> onboardingStatus p = Some (stageFilter c))
  /\ (psmFilter c <> "" -> psm p = Some (psmFilter c))
  /\ (integrationFilter c <> "" ->
        integrationType p = Some (integrationFilter c)).
Proof.
  unfold shown. rewrite !andb_true_iff, !orb_true_iff, !select_matches_true.
  rewrite negb_true_iff, JsFacts.nonempty_false.
  destruct (decide (searchTerm toLowerCase trim c = "")); tauto.
Qed.

(** X9.  [applyFilters] lists a sub-list of the partners in their order;
    every listed partner has exactly the selected stage, PSM and
    integration type, and matches the search term in its name or partner
    id when there is one.  With an empty search term and nothing selected
    every partner is listed.  With only a stage selected, exactly the
    partners whose stage is the selected value are listed: at least one
    when the value is an entry of the [stages] array, none when it is a
    non-empty value that is not an entry (as the browser may offer for an
    entry that was written unescaped into the markup). *)
Theorem applyFilters_spec (c : criteria) (partners : list partner) :
  let term := searchTerm toLowerCase trim c in
  let listed := applyFilters toLowerCase trim c partners in
  listed `sublist_of` partners /\
  (forall p, p ∈ listed <->
     p ∈ partners
     /\ (term <> "" ->
           field_includes toLowerCase (name p) term = true
           \/ field_includes toLowerCase (partnerId p) term = true)
     /\ (stageFilter c <> "" -> onboardingStatus p = Some (stageFilter c))
     /\ (psmFilter c <> "" -> psm p = Some (psmFilter c))
     /\ (integrationFilter c <> "" ->
           integrationType p = Some (integrationFilter c))) /\
  (term = "" -> stageFilter c = "" -> psmFilter c = "" ->
   integrationFilter c = "" -> listed = partners) /\
  (term = "" -> psmFilter c = "" -> integrationFilter c = "" ->
   stageFilter c <> "" ->
   listed = filter (fun p => onboardingStatus p = Some (stageFilter c))
                   partners
   /\ (listed <> [] <-> stageFilter c ∈ stages partners)).
Proof.
  intros term listed. subst listed. unfold applyFilters.
  split; [apply sublist_filter|]. split; [|split].
  - intros p. rewrite list_elem_of_filter, shown_true. tauto.
  - intros Ht Hs Hp Hi. apply SettingsFacts.filter_all, Forall_forall.
    intros p _. apply shown_true. fold term. rewrite Ht, Hs, Hp, Hi. tauto.
  - intros Ht Hp Hi Hs.
    assert (filter (fun p => shown toLowerCase trim c p = true) partners
            = filter (fun p => onboardingStatus p = Some (stageFilter c))
                     partners) as ->.
    { apply list_filter_iff. intros q. rewrite shown_true. fold term.
      rewrite Ht, Hp, Hi. tauto. }
    split; [done|]. unfold stages. rewrite distinct_values_elem. split.
    + intros Hne. split; [done|].
      destruct (filter _ partners) as [|p l] eqn:E; [done|].
      assert (p ∈ filter (fun p => onboardingStatus p = Some (stageFilter c))
                         partners) as Hin
        by (rewrite E; apply list_elem_of_here).
      apply list_elem_of_filter in Hin as [Hst Hin]. by exists p.
    + intros [_ (p & Hin & Hst)] Hnil.
      assert (p ∈ filter (fun p => onboardingStatus p = Some (stageFilter c))
                         partners) as Hp'
        by (by apply list_elem_of_filter).
      rewrite Hnil in Hp'. by apply not_elem_of_nil in Hp'.
Qed.

(** X10.  The add and edit forms send one write or none.  None is sent
    when the name, the partner id or the onboarding stage is missing or
    blank.  What is written has these three fields trimmed and not empty,
    and never holds an empty string as PSM, integration type or contact
    e-mail: a blank optional field is written as [null]. *)
Theorem submitted_partner_is_complete (f : partnerForm)
    (answer : response unit) :
  let required o := exists s, o = Some (trim s) /\ trim s <> "" in
  match submitForm trim f answer with
  | (Incomplete, sent) =>
      sent = 0
      /\ (Js.truthy (trim <$> f_partnerName f) = false
          \/ Js.truthy (trim <$> f_partnerId f) = false
          \/ Js.truthy (trim <$> f_onboardingStatus f) = false)
  | (Written d, sent) | (NotWritten d _, sent) =>
      sent = 1
      /\ d = readForm trim f
      /\ (exists s, f_partnerName f = Some s /\ required (w_name d))
      /\ required (w_partnerId d) /\ required (w_onboardingStatus d)
      /\ w_psm d <> Some "" /\ w_integrationType d <> Some ""
      /\ w_contactEmail d <> Some ""
  end.
Proof.
  intros required. unfold submitForm.
  assert (forall o, Js.truthy (trimmed trim o) = true ->
            exists s, o = Some s /\ trimmed trim o = Some (trim s)
                      /\ trim s <> "") as Hreq.
  { intros [s|] H; [|done]. exists s. repeat split.
    by apply JsFacts.nonempty_true. }
  assert (forall o, or_null o <> Some "") as Hopt.
  { intros [s|]; unfold or_null; simpl; [|done].
    destruct (Js.nonempty s) eqn:E; [|done].
    apply JsFacts.nonempty_true in E. congruence. }
  simpl.
  destruct (Js.truthy (trimmed trim (f_partnerName f))) eqn:E1; simpl;
    [|split; [done | by left]].
  destruct (Js.truthy (trimmed trim (f_partnerId f))) eqn:E2; simpl;
    [|split; [done | right; by left]].
  destruct (Js.truthy (trimmed trim (f_onboardingStatus f))) eqn:E3; simpl;
    [|split; [done | right; by right]].
  destruct (Hreq _ E1) as (s1 & H1 & H1' & H1'').
  destruct (Hreq _ E2) as (s2 & H2 & H2' & H2'').
  destruct (Hreq _ E3) as (s3 & H3 & H3' & H3'').
  destruct answer; simpl; (split; [done|]); (split; [done|]);
    (split; [exists s1; split; [done|]; exists s1; by split|]);
    (split; [exists s2; by split|]);
    (split; [exists s3; by split|]);
    repeat split; apply Hopt.
Qed.

End Text.




Lemma applyFilters_spec_witness :
  applyFilters Library.ascii_lower Settings.ascii_trim
    (mkCriteria "" "Testing" "" "")
    [mkPartner "p1" (Some "Acme") (Some "acme") (Some "Intake") None None;
     mkPartner "p2" (Some "Bolt") (Some "bolt") (Some "Testing") None None]
  = [mkPartner "p2" (Some "Bolt") (Some "bolt") (Some "Testing") None None].
Proof.
  destruct (applyFilters_spec Library.ascii_lower Settings.ascii_trim
              (mkCriteria "" "Testing" "" "")
              [mkPartner "p1" (Some "Acme") (Some "acme") (Some "Intake")
                 None None;
               mkPartner "p2" (Some "Bolt") (Some "bolt") (Some "Testing")
                 None None])
    as (_ & _ & _ & H).
  destruct H as [H _]; [reflexivity | reflexivity | reflexivity | discriminate |].
  rewrite H. reflexivity.
Defined.

(** An entry with a double quote: the [stages] array holds it whole,
    while a select whose value is the text before the quote lists no
    partner. *)
Example cut_value_lists_no_partner :
  let stage := "Go " +:+ String Markup.quot ("Live" +:+ String Markup.quot "") in
  let partners :=
    [mkPartner "p1" (Some "Acme") (Some "acme") (Some stage) None None] in
  stages partners = [stage]
  /\ applyFilters Library.ascii_lower Settings.ascii_trim
       (mkCriteria "" "Go " "" "") partners = [].
Proof. split; reflexivity. Qed.

End RosterFacts.

(** ** Uploads, folders and deletion *)

Module LibraryFacts.
Import Firestore Pages Library.

Lemma or_null_nonempty o : or_null o <> Some "".
Proof.
  unfold or_null. destruct o as [s|]; simpl; [|done].
  destruct (Js.nonempty s) eqn:E; [|done].
  apply JsFacts.nonempty_true in E. congruence.
Qed.

Lemma or_null_truthy o : or_null o = None \/ Js.truthy (or_null o) = true.
Proof.
  unfold or_null. destruct (Js.truthy o) eqn:E; [by right | by left].
Qed.

Section Text.
Variable toLowerCase : string -> string.
Variable trim : string -> string.

(** X12.  The upload handler stores a document only after the file is
    in the blob store and has a download URL.  The stored document names
    the blob, is not a favourite, has a folder that is [null] or a
    non-empty name, and carries the uploader's [partnerId] when the
    uploader is a partner and [null] otherwise.  When a later step fails
    after the file was stored, the file stays in the blob store without
    any document. *)
Theorem upload_outcomes (userRole : string) (partnerId : option string)
    (f : option file) (folder : option string) (now newId : string)
    (uploadAnswer : response unit) (urlAnswer : response string)
    (addAnswer : response unit) (c : cloud) :
  let '(outcome, c') :=
    uploadSubmitted toLowerCase userRole partnerId f folder now newId
      uploadAnswer urlAnswer addAnswer c in
  match outcome with
  | NoFile =>
      c' = c /\ (f = None \/ exists f0, f = Some f0 /\ file_name f0 = "")
  | Stored id d =>
      id = newId
      /\ documents c' = <[newId := d]> (documents c)
      /\ d_storagePath d ∈ blobs c'
      /\ (exists f0 u, f = Some f0 /\ d_name d = file_name f0
                       /\ file_name f0 <> "" /\ urlAnswer = Resolved u
                       /\ d_url d = u)
      /\ d_isFavorite d = false
      /\ d_folder d <> Some ""
      /\ d_partnerId d = (if String.eqb userRole "partner" then partnerId
                          else None)
  | UploadFailed error =>
      documents c' = documents c
      /\ (uploadAnswer = Rejected error /\ blobs c' = blobs c
          \/ exists f0 u,
               f = Some f0 /\ uploadAnswer = Resolved u
               /\ blobs c' = {[ "documents/" +:+ now +:+ "_" +:+ file_name f0 ]}
                             ∪ blobs c)
  end.
Proof.
  unfold uploadSubmitted. destruct f as [f0|]; [|split; [done | by left]].
  destruct (Js.nonempty (file_name f0)) eqn:E; simpl;
    [|split; [done|]; right; exists f0; split; [done|];
      by apply JsFacts.nonempty_false].
  apply JsFacts.nonempty_true in E.
  destruct uploadAnswer as [u|error]; [|split; [done | by left]].
  destruct urlAnswer as [url|error];
    [|split; [done|]; right; by exists f0, u].
  destruct addAnswer as [u'|error];
    [|split; [done|]; right; by exists f0, u].
  split; [done|]. split; [done|]. split; [simpl; set_solver|].
  split; [by exists f0, url|]. split; [done|].
  split; [apply or_null_nonempty | done].
Qed.

Lemma sees_partner_root pid d :
  sees (query DocumentsLibrary.documentsCol
          [where_eq "partnerId" pid; orderBy "createdAt" "desc"]) d
  = bool_decide (d_partnerId d = Some pid).
Proof. unfold sees. simpl. by rewrite andb_true_r. Qed.

Lemma sees_partner_folder pid folderName d :
  sees (query DocumentsLibrary.documentsCol
          [where_eq "partnerId" pid; where_eq "folder" folderName;
           orderBy "createdAt" "desc"]) d
  = bool_decide (d_partnerId d = Some pid)
    && bool_decide (d_folder d = Some folderName).
Proof. unfold sees. simpl. by rewrite andb_true_r. Qed.

(** The query of a partner with a non-empty scope, by view. *)
Lemma partner_library_query pid view :
  pid <> "" ->
  DocumentsLibrary.documentsQuery "partner" (Some pid) view
  = Some (if Js.truthy view
          then query DocumentsLibrary.documentsCol
                 [where_eq "partnerId" pid;
                  where_eq "folder" (default "" view);
                  orderBy "createdAt" "desc"]
          else query DocumentsLibrary.documentsCol
                 [where_eq "partnerId" pid; orderBy "createdAt" "desc"]).
Proof.
  intros Hpid. unfold DocumentsLibrary.documentsQuery.
  rewrite PagesFacts.role_query_partner.
  apply JsFacts.nonempty_true in Hpid. rewrite Hpid.
  destruct view as [v|]; simpl; [|done]. by destruct (Js.nonempty v).
Qed.

(** X13.  Who is shown an uploaded document.  A document uploaded by a
    partner is returned to that partner's query of the root view and of
    the folder it was uploaded into, and to no query of a partner with
    another scope.  A document uploaded by anyone who is not a partner
    carries no [partnerId] and is returned to no partner's query at
    all. *)
Theorem upload_visibility (userRole : string) (partnerId : option string)
    (f : file) (folder : option string) (downloadURL fullPath : string)
    (pid : string) (view : option string) (q : Query) :
  let d := docDataOf toLowerCase userRole partnerId f folder
             downloadURL fullPath in
  pid <> "" ->
  DocumentsLibrary.documentsQuery "partner" (Some pid) view = Some q ->
  (userRole = "partner" -> partnerId = Some pid ->
     (sees q d = true <-> Js.truthy view = false \/ view = or_null folder)) /\
  (userRole = "partner" -> partnerId <> Some pid -> sees q d = false) /\
  (userRole <> "partner" -> sees q d = false).
Proof.
  intros d Hpid Hq. rewrite partner_library_query in Hq by done.
  injection Hq as <-. subst d.
  assert (forall pd : docData, d_partnerId pd <> Some pid ->
            sees (if Js.truthy view
                  then query DocumentsLibrary.documentsCol
                         [where_eq "partnerId" pid;
                          where_eq "folder" (default "" view);
                          orderBy "createdAt" "desc"]
                  else query DocumentsLibrary.documentsCol
                         [where_eq "partnerId" pid; orderBy "createdAt" "desc"])
                 pd = false) as Hother.
  { intros pd Hpd. destruct (Js.truthy view).
    - rewrite sees_partner_folder, bool_decide_eq_false_2 by done. done.
    - rewrite sees_partner_root. by apply bool_decide_eq_false_2. }
  split; [|split].
  - intros -> ->. destruct (Js.truthy view) eqn:Hv.
    + rewrite sees_partner_folder. simpl.
      rewrite bool_decide_eq_true_2 by done. simpl.
      rewrite bool_decide_eq_true.
      destruct view as [v|]; [|done]. simpl.
      split; [intros ->; by right | intros [?|?]; done].
    + rewrite sees_partner_root. simpl.
      rewrite bool_decide_eq_true_2 by done. split; [by left | done].
  - intros -> Hp. apply Hother. simpl. done.
  - intros Hr. apply Hother. simpl.
    apply String.eqb_neq in Hr. by rewrite Hr.
Qed.

(** X14.  Creating a folder changes the stored folder names only by
    appending one new name, trimmed and not empty, and never when the
    name is among those the database reports: as long as that report is
    the stored list, a list of distinct names stays a list of distinct
    names. *)
Theorem folder_names_stay_distinct (input : option string)
    (existing : response (list string)) (addAnswer : response unit)
    (store : list string) :
  let '(outcome, store') :=
    folderSubmitted trim input existing addAnswer store in
  (match outcome with
   | Created folderName =>
       store' = store ++ [folderName] /\ folderName <> ""
       /\ (exists s, input = Some s /\ folderName = trim s)
       /\ (forall names, existing = Resolved names -> folderName ∉ names)
   | _ => store' = store
   end) /\
  (existing = Resolved store -> NoDup store -> NoDup store').
Proof.
  unfold folderSubmitted. destruct input as [s|]; simpl; [|done].
  destruct (Js.nonempty (trim s)) eqn:E; simpl; [|done].
  apply JsFacts.nonempty_true in E.
  destruct existing as [names|error]; [|done].
  destruct (existsb (String.eqb (trim s)) names) eqn:Hex; [done|].
  assert (trim s ∉ names) as Hnot.
  { intros Hin. apply list_elem_of_In in Hin.
    assert (existsb (String.eqb (trim s)) names = true) as Ht
      by (apply existsb_exists; exists (trim s);
          split; [done | apply String.eqb_refl]).
    congruence. }
  destruct addAnswer as [u|error]; [|done].
  split.
  - split; [done|]. split; [done|]. split; [by exists s|].
    by intros names' [= <-].
  - intros [= ->] Hnd. apply NoDup_app. split; [done|].
    split; [|apply NoDup_singleton].
    intros x Hx ->%list_elem_of_singleton. done.
Qed.

End Text.

Lemma filter_none {A} (P : A -> Prop) `{!forall x, Decision (P x)} l :
  Forall (fun x => ~ P x) l -> filter P l = [].
Proof.
  induction 1 as [|x l Hx Hl IH]; [done|]. by rewrite filter_cons_False.
Qed.

Lemma count_once (names : list string) (x : option string) :
  NoDup names ->
  length (filter (fun n => x = Some n) names) <= 1.
Proof.
  induction 1 as [|n names Hn Hnd IH]; [simpl; lia|].
  rewrite filter_cons. destruct (decide (x = Some n)) as [->|Hne]; [|done].
  simpl. replace (filter (fun n0 => Some n = Some n0) names) with (@nil string);
    [simpl; lia|].
  symmetry. apply filter_none, Forall_forall.
  intros m Hm [= ->]. done.
Qed.

Lemma counts_bounded (names : list string) (docs : list docData) :
  NoDup names ->
  sum_list ((fun n => length (filter (fun d => d_folder d = Some n) docs))
              <$> names)
  <= length docs.
Proof.
  intros Hnd. induction docs as [|d docs IH]; simpl.
  { induction names as [|n names IHn]; [done|].
    simpl. apply NoDup_cons in Hnd as [_ Hnd]. by apply IHn. }
  pose proof (count_once names (d_folder d) Hnd) as Hone.
  assert (sum_list
            ((fun n => length (filter (fun d0 => d_folder d0 = Some n)
                                      (d :: docs))) <$> names)
          = length (filter (fun n => d_folder d = Some n) names)
            + sum_list
                ((fun n => length (filter (fun d0 => d_folder d0 = Some n) docs))
                   <$> names)) as ->; [|lia].
  clear. induction names as [|n names IHn]; [done|].
  rewrite !fmap_cons. simpl sum_list. rewrite IHn, !filter_cons.
  destruct (decide (d_folder d = Some n)); simpl; lia.
Qed.

(** X15.  At the root of the document library the folder cards start
    with Presentations and Videos, whether stored or not, show every
    stored folder, and show no name twice; the number on a card is the
    number of documents filed under that name, so no document is counted
    on two cards.  Inside a folder no card is shown. *)
Theorem folder_cards_spec (currentFolder : option string)
    (docs : list docData) (folders : list string) :
  let cards := folderCards currentFolder docs folders in
  (Js.truthy currentFolder = true -> cards = []) /\
  (Js.truthy currentFolder = false ->
   NoDup cards.*1
   /\ take 2 cards.*1 = ["Presentations"; "Videos"]
   /\ (forall n, n ∈ folders -> n ∈ cards.*1)
   /\ (forall n k, (n, k) ∈ cards ->
         k = length (filter (fun d => d_folder d = Some n) docs))
   /\ sum_list cards.*2 <= length docs).
Proof.
  intros cards. subst cards. unfold folderCards.
  split; [by intros ->|]. intros ->.
  rewrite RosterFacts.distinct_first_occurrences.
  set (names := Settings.first_occurrences (defaultFolders ++ folders)).
  assert (NoDup names) as Hnd
    by apply SettingsFacts.first_occurrences_NoDup.
  rewrite <- !list_fmap_compose.
  assert ((fst ∘ (fun folderName : string =>
             (folderName,
              length (filter (fun d => d_folder d = Some folderName) docs))))
          <$> names = names) as ->.
  { rewrite <- (list_fmap_id names) at 2. by apply list_fmap_ext. }
  split; [exact Hnd|]. split; [|split; [|split]].
  - subst names. unfold defaultFolders. simpl app.
    rewrite !SettingsFacts.first_occurrences_cons.
    rewrite filter_cons_True by discriminate. reflexivity.
  - intros n Hn. subst names.
    apply SettingsFacts.first_occurrences_elem, elem_of_app. by right.
  - intros n k Hin. apply list_elem_of_fmap in Hin as (m & [= -> ->] & _). done.
  - by apply counts_bounded.
Qed.

(** X16.  Deleting a document.  Nothing changes unless the document is
    known to the page and the user confirms.  Then the document is
    removed exactly when the database accepts the deletion, whatever
    became of the file: a rejected blob deletion is only logged and the
    document is removed all the same, leaving the blob behind; and a
    rejected document deletion leaves the document in place even though
    its blob may already be gone.  The blob store is asked only when the
    document has a storage path. *)
Theorem delete_outcomes (docs : gmap string docData) (docId : string)
    (confirmed : bool) (storageAnswer databaseAnswer : response unit)
    (c : cloud) :
  let '(outcome, c') :=
    deleteClicked docs docId confirmed storageAnswer databaseAnswer c in
  (docs !! docId = None \/ confirmed = false -> c' = c) /\
  (forall docItem,
     docs !! docId = Some docItem -> confirmed = true ->
     match databaseAnswer with
     | Resolved _ => outcome = Removed /\ documents c' = delete docId (documents c)
     | Rejected error =>
         outcome = DeleteFailed error /\ documents c' = documents c
     end
     /\ blobs c' =
        match storageAnswer with
        | Resolved _ =>
            if Js.nonempty (d_storagePath docItem)
            then blobs c ∖ {[ d_storagePath docItem ]} else blobs c
        | Rejected _ => blobs c
        end).
Proof.
  unfold deleteClicked. destruct (docs !! docId) as [docItem|] eqn:E.
  - destruct confirmed; simpl.
    + destruct databaseAnswer, storageAnswer;
        (split; [intros [?|?]; done|]); intros ? [= <-] _; simpl;
        destruct (Js.nonempty (d_storagePath docItem)); by repeat split.
    + split; [done|]. intros ? _ ?. done.
  - split; [done|]. intros ? ?. done.
Qed.

Lemma upload_visibility_witness :
  exists q,
    DocumentsLibrary.documentsQuery "partner" (Some "acme") None = Some q
    /\ sees q (docDataOf ascii_lower "partner" (Some "acme")
                 (mkFile "deck.pdf" "application/pdf") (Some "Presentations")
                 "https://files/deck" "documents/1_deck.pdf") = true.
Proof.
  assert (exists q,
            DocumentsLibrary.documentsQuery "partner" (Some "acme") None
            = Some q) as [q Hq] by (eexists; reflexivity).
  exists q. split; [exact Hq|].
  assert ("acme" <> "") as Hpid by discriminate.
  destruct (upload_visibility ascii_lower "partner" (Some "acme")
              (mkFile "deck.pdf" "application/pdf") (Some "Presentations")
              "https://files/deck" "documents/1_deck.pdf"
              "acme" None q Hpid Hq) as [H _].
  apply H; [reflexivity | reflexivity | by left].
Defined.

Lemma folder_names_stay_distinct_witness :
  NoDup (folderSubmitted Settings.ascii_trim (Some " Contracts ")
           (Resolved ["Presentations"]) (Resolved tt) ["Presentations"]).2.
Proof.
  pose proof (folder_names_stay_distinct Settings.ascii_trim
                (Some " Contracts ") (Resolved ["Presentations"])
                (Resolved tt) ["Presentations"]) as H.
  destruct (folderSubmitted Settings.ascii_trim (Some " Contracts ")
              (Resolved ["Presentations"]) (Resolved tt) ["Presentations"])
    as [outcome store'].
  destruct H as [_ H]. apply H; [reflexivity|].
  apply (bool_decide_unpack (NoDup ["Presentations"])). by vm_compute.
Defined.

Lemma folder_cards_spec_witness :
  take 2 (folderCards None
            [mkDocData "deck.pdf" "document" "u" "p" (Some "Videos") false None]
            ["Videos"; "Contracts"]).*1
  = ["Presentations"; "Videos"].
Proof.
  destruct (folder_cards_spec None
              [mkDocData "deck.pdf" "document" "u" "p" (Some "Videos") false
                 None]
              ["Videos"; "Contracts"]) as [_ H].
  destruct H as (_ & H & _); [reflexivity | exact H].
Defined.

Lemma delete_outcomes_witness :
  documents
    (deleteClicked
       {[ "d1" := mkDocData "deck.pdf" "document" "u" "documents/1_deck.pdf"
                    None false None ]}
       "d1" true (Rejected "storage/unauthorized") (Resolved tt)
       (mkCloud {[ "documents/1_deck.pdf" ]}
          {[ "d1" := mkDocData "deck.pdf" "document" "u"
                       "documents/1_deck.pdf" None false None ]})).2
  = delete "d1"
      ({[ "d1" := mkDocData "deck.pdf" "document" "u" "documents/1_deck.pdf"
                    None false None ]} : gmap string docData).
Proof.
  pose proof (delete_outcomes
                {[ "d1" := mkDocData "deck.pdf" "document" "u"
                             "documents/1_deck.pdf" None false None ]}
                "d1" true (Rejected "storage/unauthorized") (Resolved tt)
                (mkCloud {[ "documents/1_deck.pdf" ]}
                   {[ "d1" := mkDocData "deck.pdf" "document" "u"
                                "documents/1_deck.pdf" None false None ]}))
    as H.
  destruct (deleteClicked _ _ _ _ _ _) as [outcome c'].
  destruct H as [_ H].
  destruct (H _ (lookup_singleton_eq _ _) eq_refl) as [[_ Hd] _]. exact Hd.
Defined.

End LibraryFacts.

(** ** An editing session *)

Module EditorSessionFacts.
Import Firestore OnboardingStages Settings EditorSession.

(** *** The ASCII trim *)

Lemma trim_start_idempotent s : trim_start (trim_start s) = trim_start s.
Proof.
  induction s as [|c r IH]; [done|]. simpl.
  destruct (is_space c) eqn:E; [exact IH|]. simpl. by rewrite E.
Qed.

Lemma trim_end_idempotent s : trim_end (trim_end s) = trim_end s.
Proof.
  induction s as [|c r IH]; [done|]. simpl.
  destruct (trim_end r) as [|c' r'] eqn:E.
  - destruct (is_space c) eqn:Hc; simpl; [done|]. by rewrite Hc.
  - simpl in *. by rewrite IH.
Qed.

Lemma trim_start_end s : trim_start (trim_end s) = trim_end (trim_start s).
Proof.
  induction s as [|c r IH]; [done|]. simpl.
  destruct (is_space c) eqn:Hc.
  - destruct (trim_end r) as [|c' r'] eqn:E.
    + by rewrite <- IH.
    + simpl. rewrite Hc. by rewrite <- IH.
  - simpl. destruct (trim_end r); simpl; by rewrite Hc.
Qed.

Lemma ascii_trim_idempotent s : ascii_trim (ascii_trim s) = ascii_trim s.
Proof.
  unfold ascii_trim.
  rewrite <- (trim_start_end (trim_end (trim_start s))).
  rewrite trim_end_idempotent, trim_start_end.
  by rewrite trim_start_idempotent.
Qed.

(** *** Buttons and guards *)

(** X17.  The disabled buttons of the stage list and the guards of the
    handlers agree: for every rendered item, a move-up, move-down or
    delete button that is rendered disabled belongs to a handler that
    would leave the list as it is, and a button that is rendered enabled
    passes the guard of its handler. *)
Theorem disabled_buttons_do_nothing (stages : list slot) (it : item) :
  it ∈ renderStagesList stages ->
  (move_up_disabled it = true -> moveUp (data_index it) stages = stages) /\
  (move_down_disabled it = true -> moveDown (data_index it) stages = stages) /\
  (delete_disabled it = true ->
     forall confirmed, deleteStage (data_index it) confirmed stages = stages) /\
  (move_up_disabled it = false -> 0 < data_index it < length stages) /\
  (move_down_disabled it = false -> data_index it < length stages - 1) /\
  (delete_disabled it = false -> 1 < length stages).
Proof.
  intros Hit.
  destruct (SettingsFacts.rendered_item _ _ Hit) as (Hlt & Hup & Hdown & Hdel).
  rewrite Hup, Hdown, Hdel. repeat split.
  - intros ->%bool_decide_eq_true. reflexivity.
  - intros E%bool_decide_eq_true. unfold moveDown. rewrite E.
    by rewrite Nat.ltb_irrefl.
  - intros E%bool_decide_eq_true confirmed. unfold deleteStage.
    by destruct (Nat.ltb_spec 1 (length stages)); [lia|].
  - apply bool_decide_eq_false in H. lia.
  - exact Hlt.
  - intros E%bool_decide_eq_false. lia.
  - intros E%bool_decide_eq_false. lia.
Qed.

Lemma disabled_buttons_do_nothing_witness :
  moveUp 0 [Name "Intake"; Name "Testing"] = [Name "Intake"; Name "Testing"]
  /\ deleteStage 0 true [Name "Intake"] = [Name "Intake"].
Proof.
  split.
  - apply (disabled_buttons_do_nothing [Name "Intake"; Name "Testing"]
             (mkItem 0 true false false)).
    + apply list_elem_of_here.
    + reflexivity.
  - apply (disabled_buttons_do_nothing [Name "Intake"]
             (mkItem 0 true true true)).
    + apply list_elem_of_here.
    + reflexivity.
Defined.

Section Trim.
Variable trim : string -> string.
Hypothesis trim_idempotent : forall s, trim (trim s) = trim s.

(** *** What a session keeps *)

Lemma proper_trimmed s : trim s <> "" -> proper trim (Name (trim s)).
Proof.
  intros H. exists (trim s). by rewrite trim_idempotent.
Qed.

Lemma aget_proper stages i :
  Forall (proper trim) stages -> i < length stages ->
  proper trim (aget i stages).
Proof.
  intros Hall Hi. apply lookup_lt_is_Some in Hi as [e He].
  pose proof (Forall_lookup_1 _ _ _ _ Hall He) as (s & -> & Hs).
  unfold aget. rewrite He. by exists s.
Qed.

Lemma aset_proper stages i e :
  Forall (proper trim) stages -> i < length stages -> proper trim e ->
  Forall (proper trim) (aset i e stages).
Proof.
  intros Hall Hi He. unfold aset.
  destruct (decide (i < length stages)); [|lia]. by apply Forall_insert.
Qed.

Lemma aset_same_length stages i e :
  i < length stages -> length (aset i e stages) = length stages.
Proof.
  intros Hi. unfold aset.
  destruct (decide (i < length stages)); [|lia]. apply length_insert.
Qed.

Lemma apply_proper stages op :
  Forall (proper trim) stages -> on_rendered stages op ->
  Forall (proper trim) (apply trim stages op).
Proof.
  intros Hall Hop.
  assert (forall index,
            (exists it, it ∈ renderStagesList stages /\ data_index it = index) ->
            index < length stages) as Hrange.
  { intros index (it & Hit & <-).
    by destruct (SettingsFacts.rendered_item _ _ Hit) as [? _]. }
  destruct op as [i|i|i c|i v|p]; simpl in *.
  - apply Hrange in Hop. unfold moveUp.
    destruct (Nat.ltb_spec 0 i); [|done].
    apply aset_proper.
    + apply aset_proper; [done | done | apply aget_proper; [done | lia]].
    + rewrite aset_same_length by done. lia.
    + by apply aget_proper.
  - apply Hrange in Hop. unfold moveDown.
    destruct (Nat.ltb_spec i (length stages - 1)); [|done].
    apply aset_proper.
    + apply aset_proper; [done | done | apply aget_proper; [done | lia]].
    + rewrite aset_same_length by done. lia.
    + by apply aget_proper.
  - unfold deleteStage, splice1. destruct (1 <? length stages); [|done].
    destruct c; [|done]. by apply Forall_delete.
  - apply Hrange in Hop. unfold blurInput.
    destruct (Js.nonempty (trim v)) eqn:E; simpl; [|done].
    destruct (negb _); [|done].
    apply aset_proper; [done | done |].
    by apply proper_trimmed, JsFacts.nonempty_true.
  - unfold addStage. destruct p as [s|]; [|done].
    destruct (Js.nonempty s); simpl; [|done].
    destruct (Js.nonempty (trim s)) eqn:E; [|done].
    apply Forall_app. split; [done|]. apply Forall_singleton.
    by apply proper_trimmed, JsFacts.nonempty_true.
Qed.

Lemma proper_names stages :
  Forall (proper trim) stages ->
  exists names,
    stages = Name <$> names
    /\ Forall (fun s => s <> "" /\ trim s <> "") names.
Proof.
  induction 1 as [|e stages (s & -> & Hs) _ (names & -> & Hn)].
  - by exists [].
  - exists (s :: names). split; [done | by constructor].
Qed.

Lemma names_validated names :
  Forall (fun s => s <> "" /\ trim s <> "") names ->
  existsb (unnamed trim) (Name <$> names) = false
  /\ mapM name_of (Name <$> names) = Some names.
Proof.
  induction 1 as [|s names [H1 H2] _ [IH1 IH2]]; [done|]. split.
  - rewrite fmap_cons. simpl. apply JsFacts.nonempty_true in H1, H2.
    rewrite H1, H2. exact IH1.
  - rewrite fmap_cons. simpl. by rewrite IH2.
Qed.

(** X18.  As long as every click and every blur is on an element that
    the list has rendered, an editing session that starts from a
    non-empty list of names that are not blank only reaches such lists:
    the save handler never stops at the missing-name message and never
    throws. *)
Theorem session_keeps_names_proper (loaded stages : list slot)
    (confirmed : bool) (answer : response unit) (w : world) :
  loaded <> [] -> Forall (proper trim) loaded ->
  reaches trim loaded stages ->
  stages <> [] /\ Forall (proper trim) stages /\
  (saveStagesClick trim confirmed answer stages w).1.1 <> NamesMissing /\
  (saveStagesClick trim confirmed answer stages w).1.1 <> TypeErrorThrown.
Proof.
  intros Hne Hloaded Hreach.
  assert (1 <= length stages /\ Forall (proper trim) stages) as [Hlen Hall].
  { induction Hreach as [|stages op _ [IHl IHp] Hop].
    - split; [|done]. destruct loaded; [done | simpl; lia].
    - split; [by apply SettingsFacts.apply_length | by apply apply_proper]. }
  split; [by destruct stages; [simpl in Hlen; lia|]|]. split; [done|].
  destruct (proper_names _ Hall) as (names & -> & Hnames).
  destruct (names_validated _ Hnames) as [Hv Hm].
  unfold saveStagesClick. rewrite Hv, Hm.
  destruct (negb _); [destruct confirmed|];
    try destruct (saveOnboardingStages _ _ _) as [[|?] ?]; by split.
Qed.



End Trim.

Lemma session_keeps_names_proper_witness :
  (saveStagesClick ascii_trim false (Resolved tt)
     (apply ascii_trim
        (apply ascii_trim [Name "Intake"; Name "Testing"] (Rename 1 " QA "))
        (Add (Some "Launch")))
     initial).1.1 <> NamesMissing.
Proof.
  apply (session_keeps_names_proper ascii_trim ascii_trim_idempotent
           [Name "Intake"; Name "Testing"]).
  - discriminate.
  - repeat constructor; eexists; (split; [reflexivity|]); split; discriminate.
  - apply reaches_step; [apply reaches_step; [apply reaches_loaded|]|].
    + exists (mkItem 1 false true false). split; [|reflexivity].
      apply list_elem_of_further, list_elem_of_here.
    + exact I.
Defined.


End EditorSessionFacts.

(** ** The partner detail page and the dispatcher *)

Module DetailFacts.
Import Firestore Pages.

(** X20.  The partner detail page has no role branch.  Every path
    [/partners/<id>] is dispatched to it, whatever the role and the scope
    of the user; it sends one read, of the document [partners/<id>], and
    shows that partner whenever the backend returns it, or the not-found
    message when there is no such document.  This holds also for a user
    to whom the roster itself shows the access-denied message without
    sending a read. *)
Theorem detail_page_is_role_blind (id userRole : string)
    (partnerId : option string) (be : backend) :
  id <> "" -> Main.no_slash id = true ->
  Main.renderRoute ("/partners/" +:+ id) userRole partnerId
    = Main.RenderPartnerDetailPage id userRole /\
  reads (Partners.renderPartnerDetailPage id userRole) be
    = [GetDoc "partners" id] /\
  (forall data,
     answer_getDoc be "partners" id = Resolved (Some data) ->
     shown (Partners.renderPartnerDetailPage id userRole be blank).2
       = Detail (with_id id data)) /\
  (answer_getDoc be "partners" id = Resolved None ->
   shown (Partners.renderPartnerDetailPage id userRole be blank).2
     = PartnerNotFound) /\
  (Partners.partnersQuery userRole partnerId = None ->
   Partners.renderPartnersPage userRole partnerId be blank
     = (Returned tt, mkPage [] [] AccessDenied)).
Proof.
  intros Hid Hslash. split; [|split; [|split; [|split]]].
  - unfold Main.renderRoute.
    by rewrite (proj2 (MainFacts.partnerDetailMatch_Some _ id)).
  - unfold reads, Partners.renderPartnerDetailPage, try_catch, getDoc, await,
      show, console_error, mbind, M_bind. simpl.
    by destruct (answer_getDoc be "partners" id) as [[data|]|error].
  - intros data Hdata.
    unfold Partners.renderPartnerDetailPage, try_catch, getDoc, await,
      show, mbind, M_bind. simpl. by rewrite Hdata.
  - intros Hdata.
    unfold Partners.renderPartnerDetailPage, try_catch, getDoc, await,
      show, mbind, M_bind. simpl. by rewrite Hdata.
  - apply ShellFacts.denied_partners.
Qed.

Lemma detail_page_is_role_blind_witness :
  shown (Partners.renderPartnerDetailPage "acme-42" "default"
           (mkBackend (fun _ => Resolved [])
              (fun _ _ => Resolved (Some {[ "name" := Js.VStr "Acme" ]})))
           blank).2
  = Detail (with_id "acme-42" {[ "name" := Js.VStr "Acme" ]})
  /\ Partners.renderPartnersPage "default" None
       (mkBackend (fun _ => Resolved [])
          (fun _ _ => Resolved (Some {[ "name" := Js.VStr "Acme" ]})))
       blank
     = (Returned tt, mkPage [] [] AccessDenied).
Proof.
  assert ("acme-42" <> "") as Hid by discriminate.
  destruct (detail_page_is_role_blind "acme-42" "default" None
              (mkBackend (fun _ => Resolved [])
                 (fun _ _ => Resolved (Some {[ "name" := Js.VStr "Acme" ]})))
              Hid eq_refl)
    as (_ & _ & Hshown & _ & Hdenied).
  split; [apply Hshown | apply Hdenied]; reflexivity.
Defined.

End DetailFacts.

(** ** The error line of the login form *)

Module LoginFacts.
Import Markup.

Lemma replace_hyphen_cons a r :
  replace_all "-" " " (String a r)
  = String (if Ascii.eqb a "-" then " "%char else a) (replace_all "-" " " r).
Proof. simpl. by destruct (Ascii.eqb a "-"). Qed.

Lemma replace_hyphen_clean s : occurs "-" (replace_all "-" " " s) = false.
Proof.
  induction s as [|a r IH]; [done|]. rewrite replace_hyphen_cons.
  simpl. rewrite IH.
  destruct (Ascii.eqb a "-") eqn:E; [reflexivity | by rewrite E].
Qed.

Lemma replace_hyphen_length s :
  String.length (replace_all "-" " " s) = String.length s.
Proof.
  induction s as [|a r IH]; [done|]. rewrite replace_hyphen_cons.
  simpl. by rewrite IH.
Qed.

Lemma remove_first_absent pattern s :
  pattern <> "" -> Roster.includes s pattern = false ->
  remove_first pattern s = s.
Proof.
  intros Hp. induction s as [|a r IH]; simpl.
  - by destruct pattern.
  - destruct (Main.strip_prefix pattern (String a r)); [discriminate|].
    intros H. by rewrite IH.
Qed.

(** X21.  The error line of the login form never shows a hyphen.  For a
    code [auth/<rest>] it shows [<rest>] with every hyphen turned into a
    space, character for character; a code in which [auth/] does not
    occur is shown whole, its hyphens turned into spaces. *)
Theorem error_line_spec (code rest : string) :
  occurs "-" (errorWords code) = false /\
  errorWords ("auth/" +:+ rest) = replace_all "-" " " rest /\
  String.length (errorWords ("auth/" +:+ rest)) = String.length rest /\
  (Roster.includes code "auth/" = false ->
   errorWords code = replace_all "-" " " code
   /\ String.length (errorWords code) = String.length code).
Proof.
  assert (errorWords ("auth/" +:+ rest) = replace_all "-" " " rest) as Hrest.
  { unfold errorWords. f_equal. }
  split; [apply replace_hyphen_clean|]. split; [exact Hrest|].
  split; [by rewrite Hrest, replace_hyphen_length|].
  intros Habsent. unfold errorWords.
  rewrite remove_first_absent by done.
  split; [done | apply replace_hyphen_length].
Qed.

Lemma error_line_spec_witness :
  errorWords "network-request-failed" = "network request failed".
Proof.
  destruct (error_line_spec "network-request-failed" "") as (_ & _ & _ & H).
  destruct H as [H _]; [reflexivity|]. rewrite H. reflexivity.
Defined.

End LoginFacts.

(** ** The first stage *)

Module FirstStageFacts.
Import Firestore OnboardingStages.

(** X22.  [getFirstStage] never returns the empty string: it returns the
    first name of the list in use, or [Intake] when there is none or it
    is empty.  It is where [getNextStage] starts: for a partner without
    a stage, or with a stage that is not in the list, the next stage is
    the first stage, except that [getNextStage] answers [null] where
    [getFirstStage] falls back to [Intake]. *)
Theorem first_stage_spec (w : world) (stages : option (list string))
    (currentStage : option string) :
  getFirstStage w stages <> "" /\
  (head (stagesToUse w stages) = Some (getFirstStage w stages)
   \/ getFirstStage w stages = "Intake"
      /\ (stagesToUse w stages = []
          \/ head (stagesToUse w stages) = Some "")) /\
  (currentStage = None \/ currentStage = Some ""
   \/ (exists s, currentStage = Some s /\ ~ In s (stagesToUse w stages)) ->
   getNextStage w currentStage stages
   = if decide (stagesToUse w stages = []
                \/ head (stagesToUse w stages) = Some "")
     then None else Some (getFirstStage w stages)).
Proof.
  assert (first_or_null (stagesToUse w stages)
          = if decide (stagesToUse w stages = []
                       \/ head (stagesToUse w stages) = Some "")
            then None else Some (getFirstStage w stages)) as Hfirst.
  { unfold getFirstStage.
    destruct (stagesToUse w stages) as [|x l].
    - destruct (decide _) as [_|H]; [done|]. exfalso. apply H. by left.
    - cbn [first_or_null]. destruct (Js.nonempty x) eqn:E.
      + destruct (decide _) as [[?|[= ->]]|_]; done.
      + destruct (decide _) as [_|H]; [done|].
        apply JsFacts.nonempty_false in E. subst x.
        exfalso. apply H. by right. }
  split; [|split].
  - unfold getFirstStage.
    destruct (stagesToUse w stages) as [|x l]; simpl; [done|].
    destruct (Js.nonempty x) eqn:E; simpl; [|done].
    by apply JsFacts.nonempty_true.
  - unfold getFirstStage.
    destruct (stagesToUse w stages) as [|x l]; simpl; [right; by split; [|left]|].
    destruct (Js.nonempty x) eqn:E; simpl; [by left|].
    apply JsFacts.nonempty_false in E. subst x. right. by split; [|right].
  - intros [-> | [-> | (s & -> & Hs)]]; [exact Hfirst | exact Hfirst |].
    rewrite OnboardingStagesFacts.getNextStage_absent by done. exact Hfirst.
Qed.

Lemma first_stage_spec_witness :
  getNextStage initial (Some "Paused") (Some ["Intake"; "Testing"])
  = Some (getFirstStage initial (Some ["Intake"; "Testing"])).
Proof.
  rewrite (proj2 (proj2 (first_stage_spec initial (Some ["Intake"; "Testing"])
                           (Some "Paused")))).
  - reflexivity.
  - right. right. exists "Paused". split; [reflexivity|].
    intros [H|[H|[]]]; discriminate.
Defined.

End FirstStageFacts.

(** ** The handlers' data and their effects *)

(** The handlers are modelled twice: what they store ([Roster],
    [Library]) and what they send, log and show ([Handlers]).  The two
    agree on the calls and on the failures. *)
Module HandlerViewsFacts.
Import Firestore Pages Effects.

Lemma submit_views_agree (trim : string -> string) (f : Roster.partnerForm)
    (answer : response unit) :
  let submitted := Roster.submitForm trim f answer in
  let complete := match submitted.1 with
                  | Roster.Incomplete => false
                  | _ => true
                  end in
  let t := (execute (Handlers.addPartnerSubmit complete) (fun _ => answer)).2 in
  submitted.2 = length (sent t)
  /\ errors_logged t
     = match submitted.1 with
       | Roster.NotWritten _ error => [("Error adding partner:", error)]
       | _ => []
       end.
Proof.
  unfold Roster.submitForm.
  destruct (negb _ || negb _ || negb _); [done|].
  by destruct answer.
Qed.

Lemma upload_views_agree (toLowerCase : string -> string)
    (userRole : string) (partnerId : option string)
    (f : option Library.file) (folder : option string) (now newId : string)
    (uploadAnswer : response unit) (urlAnswer : response string)
    (addAnswer : response unit) (c : Library.cloud) :
  let uploaded :=
    (Library.uploadSubmitted toLowerCase userRole partnerId f folder now newId
       uploadAnswer urlAnswer addAnswer c).1 in
  let chosen := match uploaded with
                | Library.NoFile => false
                | _ => true
                end in
  let o : answers := fun n =>
    match n with
    | 0 => uploadAnswer
    | 1 => unit_answer urlAnswer
    | 2 => addAnswer
    | _ => Resolved tt
    end in
  errors_logged (execute (Handlers.uploadSubmit chosen false) o).2
  = match uploaded with
    | Library.UploadFailed error => [("Error uploading file:", error)]
    | _ => []
    end.
Proof.
  unfold Library.uploadSubmitted. destruct f as [f|]; [|done].
  destruct (negb (Js.nonempty (Library.file_name f))); [done|].
  by destruct uploadAnswer, urlAnswer, addAnswer.
Qed.

Lemma delete_views_agree (docs : gmap string Library.docData)
    (docId : string) (confirmed : bool)
    (storageAnswer databaseAnswer : response unit) (c : Library.cloud)
    (docItem : Library.docData) :
  docs !! docId = Some docItem ->
  let hasPath := Js.nonempty (Library.d_storagePath docItem) in
  let o : answers := fun n =>
    match n with
    | 0 => if hasPath then storageAnswer else databaseAnswer
    | 1 => if hasPath then databaseAnswer else Resolved tt
    | _ => Resolved tt
    end in
  errors_logged (execute (Handlers.deleteClick true confirmed hasPath false) o).2
  = match (Library.deleteClicked docs docId confirmed storageAnswer
             databaseAnswer c).1 with
    | Library.DeleteFailed error => [("Error deleting document:", error)]
    | _ => []
    end.
Proof.
  intros Hdoc. unfold Library.deleteClicked. rewrite Hdoc.
  destruct confirmed; [|done]. simpl.
  destruct (Js.nonempty (Library.d_storagePath docItem));
    by destruct storageAnswer, databaseAnswer.
Qed.

(** The folder revision of the documents page as [Pages] has it, with
    its queries and rows, and as [Handlers] has it. *)
Lemma library_views_agree (userRole : string) (partnerId : option string)
    (be : backend) :
  let q := DocumentsLibrary.documentsQuery userRole partnerId None in
  let o : answers := fun n =>
    match q, n with
    | Some q, 0 => unit_answer (answer_getDocs be q)
    | _, _ => unit_answer (answer_getDocs be DocumentsLibrary.foldersCol)
    end in
  let page := DocumentsLibrary.renderDocumentsPage userRole partnerId be blank in
  let seen :=
    execute (Handlers.renderDocumentsPage (bool_decide (is_Some q))) o in
  length (issued page.2) = length (sent seen.2)
  /\ console page.2 = [] /\ errors_logged seen.2 = []
  /\ match page.1, seen.1 with
     | Returned _, Returned _ => True
     | Thrown error, Thrown error' => error = error'
     | _, _ => False
     end.
Proof.
  unfold DocumentsLibrary.renderDocumentsPage, DocumentsLibrary.renderPage,
    DocumentsLibrary.loadDocuments, DocumentsLibrary.loadFolders.
  destruct (DocumentsLibrary.documentsQuery userRole partnerId None) as [q|];
    unfold Handlers.renderDocumentsPage, Handlers.renderPage, execute;
    unfold mbind, M_bind, H_bind, mret, M_ret, H_ret, show, getDocs,
      Pages.await, Effects.await, emit; simpl.
  - destruct (answer_getDocs be q); simpl; [|done].
    by destruct (answer_getDocs be DocumentsLibrary.foldersCol).
  - by destruct (answer_getDocs be DocumentsLibrary.foldersCol).
Qed.

End HandlerViewsFacts.
